(** * Gilly_Utilities: the file-availability checkers and the file aligners

    A shallow embedding of [file_checker], [file_checker2],
    [File_Aligner_NoSize] and [File_Aligner] of [gilly_utilities/system.py],
    with the properties the specification states about them.

    The four functions read the file system through [os.stat] only.  A run
    is modelled by the list of paths handed to [os.stat], in call order,
    together with its outcome: a returned value or a raised exception.

    Arrays are lists.  Timestamps are Python objects, values of a type
    with decidable equality, compared as NumPy compares the entries of an
    object array; the integers are among the objects.
    Paths are byte strings.  The copies that end the functions
    ([np.array(File_Availability, dtype=float)], [np.array(File_Loc,
    dtype='S256')], [np.array(File_Date, dtype=object)]) keep every cell
    as it is and are not written out. *)

From stdpp Require Import base decidable option list numbers strings.

Open Scope Z_scope.

(** ** Runs: the [os.stat] log and the outcome *)

Inductive exn : Type :=
  | OSError
  | IndexError.

Inductive outcome (A : Type) : Type :=
  | Ok (a : A)
  | Raise (e : exn).

Arguments Ok {A} a.
Arguments Raise {A} e.

Definition Run (A : Type) : Type := (list string * outcome A)%type.

Definition ret {A : Type} (a : A) : Run A := ([], Ok a).

Definition raise {A : Type} (e : exn) : Run A := ([], Raise e).

Definition bind {A B : Type} (m : Run A) (k : A → Run B) : Run B :=
  match m with
  | (tr, Ok a) => let (tr', r) := k a in (tr ++ tr', r)
  | (tr, Raise e) => (tr, Raise e)
  end.

Notation "x <- m ;; k" := (bind m (fun x => k))
  (at level 100, m at next level, right associativity).

(** [try: m except OSError: h] *)
Definition try_except_OSError {A : Type} (m h : Run A) : Run A :=
  match m with
  | (tr, Raise OSError) => let (tr', r) := h in (tr ++ tr', r)
  | _ => m
  end.

(** [for i in xrange(n): s = body i s], started from [s]. *)
Fixpoint for_range {St : Type} (n : nat) (body : nat → St → Run St) (s : St)
  : Run St :=
  match n with
  | O => ret s
  | S k => s' <- for_range k body s ;; body k s'
  end.

(** [for x in xs: s = body x s], started from [s]. *)
Fixpoint for_each {A St : Type} (xs : list A) (body : A → St → Run St)
    (s : St) : Run St :=
  match xs with
  | [] => ret s
  | x :: xs' => s' <- body x s ;; for_each xs' body s'
  end.

Definition trace {A : Type} (m : Run A) : list string := fst m.
Definition result {A : Type} (m : Run A) : outcome A := snd m.

(** Running [f] on the elements of a list, left to right, and collecting
    the values. *)
Fixpoint collect {A B : Type} (f : A → Run B) (xs : list A) : Run (list B) :=
  match xs with
  | [] => ret []
  | x :: xs' => y <- f x ;; ys <- collect f xs' ;; ret (y :: ys)
  end.

(** ** The NumPy operations the functions use *)

(** [a[i]] on a sequence: [IndexError] out of range. *)
Definition getitem {A : Type} (a : list A) (i : nat) : Run A :=
  match a !! i with
  | Some x => ret x
  | None => raise IndexError
  end.

(** [a[i] = v] on an array: [IndexError] out of range. *)
Definition setitem {A : Type} (a : list A) (i : nat) (v : A) : Run (list A) :=
  if decide (i < length a)%nat then ret (<[i:=v]> a) else raise IndexError.

(** [np.sum(mask)]: the number of [True] entries. *)
Fixpoint np_sum (mask : list bool) : nat :=
  match mask with
  | [] => O
  | b :: mask' => ((if b then 1 else 0) + np_sum mask')%nat
  end.

(** The entries of [a] at the [True] positions of [mask]. *)
Fixpoint np_select {A : Type} (a : list A) (mask : list bool) : list A :=
  match a, mask with
  | x :: a', b :: mask' =>
      if b then x :: np_select a' mask' else np_select a' mask'
  | _, _ => []
  end.

(** [a[mask]] with a boolean mask: NumPy (1.13 and later) raises
    [IndexError] when the mask and the array differ in length, unless the
    mask is empty: the length of a boolean index is checked only when it
    is greater than 0, and an empty mask selects nothing from any array. *)
Definition np_getmask {A : Type} (a : list A) (mask : list bool)
  : Run (list A) :=
  if decide (length mask = 0%nat ∨ length mask = length a)
  then ret (np_select a mask)
  else raise IndexError.

(** [a[mask] = v]; every use below has [len(mask) == len(a)]. *)
Fixpoint np_setmask {A : Type} (a : list A) (mask : list bool) (v : A)
  : list A :=
  match a, mask with
  | x :: a', b :: mask' => (if b then v else x) :: np_setmask a' mask' v
  | _, _ => a
  end.

(** [np.zeros(n)]: a float array; the availability codes stored in it are
    the integers the caller passes (1, 0 and 2 by default), on which the
    conversion to float is exact, so a cell is modelled by the integer. *)
Definition np_zeros (n : nat) : list Z := replicate n 0.

(** A cell of an array of dtype ['S256'] is a buffer of 256 bytes: a string
    stored into it is cut after its first 256 bytes, a shorter one is
    padded with NUL bytes.  [S_item] is what reading the cell gives: the
    buffer without its trailing NUL bytes. *)
Definition NUL : Ascii.ascii := Ascii.zero.

Fixpoint S_store (w : nat) (s : string) : string :=
  match w with
  | O => EmptyString
  | S w' =>
      match s with
      | EmptyString => String NUL (S_store w' EmptyString)
      | String c s' => String c (S_store w' s')
      end
  end.

Fixpoint S_item (cell : string) : string :=
  match cell with
  | EmptyString => EmptyString
  | String c cell' =>
      match S_item cell' with
      | EmptyString => if Ascii.eqb c NUL then EmptyString
                       else String c EmptyString
      | rest => String c rest
      end
  end.

(** [np.zeros(n, dtype='S256')] *)
Definition np_zeros_S256 (n : nat) : list string :=
  replicate n (S_store 256 EmptyString).

(** [str(2)], which NumPy stores when the integer 2 is assigned to a cell of
    a string array. *)
Definition str_2 : string := "2".

(** The entries of the arrays of timestamps are Python objects, and so
    are the cells of an array of dtype [object].  The integers are among
    the objects: [np.zeros] and the flag of [File_Aligner] put integers
    into cells that otherwise hold timestamps.  [py_int z] is the integer
    [z] as an object, and different integers are different objects.  With
    day numbers for timestamps every object is an integer. *)
Class PyInts (T : Type) := {
  py_int : Z → T;
  py_int_inj : Inj (=) (=) py_int
}.

#[global] Instance Z_PyInts : PyInts Z.
Proof. by refine {| py_int := fun z => z |}. Defined.

Section Checkers.

Context {T : Type} `{EqDecision T} `{PyInts T}.

(** The file system: [fs p] is [os.stat(p).st_size], or [None] when
    [os.stat(p)] raises [OSError] (no such file, permission denied, I/O
    error). *)
Variable fs : string → option Z.

Implicit Types (dates date_range : list T) (d : T).

Definition os_stat_size (p : string) : Run Z :=
  ([p], match fs p with Some s => Ok s | None => Raise OSError end).

(** [a == x], element-wise. *)
Definition np_eq (a : list T) (x : T) : list bool :=
  map (fun d => bool_decide (d = x)) a.

(** [np.in1d(a, b)] *)
Definition np_in1d (a b : list T) : list bool :=
  map (fun x => bool_decide (x ∈ b)) a.

(** ** [file_checker] *)

Definition file_checker (dates date_range : list T)
    (files : option (list string))
    (file_size_min yes_file no_file corrupt_file : Z) : Run (list Z) :=
  match files with
  | None =>
      let File_Availability := np_zeros (length date_range) in
      let File_Availability :=
        np_setmask File_Availability (np_in1d date_range dates) 1 in
      ret File_Availability
  | Some files =>
      let File_Availability := np_zeros (length date_range) in
      let File_Availability := @nil Z in
      for_range (length date_range) (fun i File_Availability =>
        d <- getitem date_range i ;;
        if decide (np_sum (np_eq dates d) = 1%nat) then
          sel <- np_getmask files (np_eq dates d) ;;
          f <- getitem sel 0 ;;
          size <- os_stat_size f ;;
          if bool_decide (file_size_min < size)
          then ret (File_Availability ++ [yes_file])
          else ret (File_Availability ++ [corrupt_file])
        else ret (File_Availability ++ [no_file])) File_Availability
  end.

(** ** [file_checker2] *)

Definition file_checker2 (dates date_range : list T)
    (files : option (list string))
    (file_size_min yes_file no_file corrupt_file : Z) : Run (list Z) :=
  let File_Availability := np_zeros (length date_range) in
  let mask_date := np_in1d date_range dates in
  let File_Availability := np_setmask File_Availability mask_date yes_file in
  match files with
  | Some files =>
      file_sizes <- for_each files (fun file file_sizes =>
        try_except_OSError
          (size <- os_stat_size file ;; ret (file_sizes ++ [size]))
          (ret (file_sizes ++ [0]))) [] ;;
      let mask_filesize :=
        map (fun size => bool_decide (size ≤ file_size_min)) file_sizes in
      small <- np_getmask dates mask_filesize ;;
      let mask_datesfile := np_in1d date_range small in
      ret (np_setmask File_Availability mask_datesfile corrupt_file)
  | None => ret File_Availability
  end.

(** ** The aligners *)

(** [np.zeros(n, dtype=object)]: every cell is the integer 0.  A cell of
    an array of dtype [object] holds what is assigned to it: the timestamp
    [date_range[i]] itself, or the integer 2 of the flag. *)
Definition np_zeros_object (n : nat) : list T := replicate n (py_int 0).

Definition File_Aligner_NoSize (files : list string)
    (dates date_range : list T) : Run (list string * list T) :=
  let File_Date := np_zeros_object (length date_range) in
  let File_Loc := np_zeros_S256 (length date_range) in
  for_range (length date_range) (fun i '(File_Loc, File_Date) =>
    d <- getitem date_range i ;;
    if decide (1 ≤ np_sum (np_eq dates d))%nat then
      d' <- getitem date_range i ;;
      File_Date <- setitem File_Date i d' ;;
      d'' <- getitem date_range i ;;
      sel <- np_getmask files (np_eq dates d'') ;;
      f <- getitem sel 0 ;;
      File_Loc <- setitem File_Loc i (S_store 256 f) ;;
      ret (File_Loc, File_Date)
    else ret (File_Loc, File_Date)) (File_Loc, File_Date).

Definition File_Aligner (files : list string) (dates date_range : list T)
    (file_size_min : Z) : Run (list string * list T) :=
  let File_Date := np_zeros_object (length date_range) in
  let File_Loc := np_zeros_S256 (length date_range) in
  for_range (length date_range) (fun i '(File_Loc, File_Date) =>
    d <- getitem date_range i ;;
    if decide (np_sum (np_eq dates d) = 1%nat) then
      sel <- np_getmask files (np_eq dates d) ;;
      f <- getitem sel 0 ;;
      size <- os_stat_size f ;;
      if bool_decide (file_size_min < size) then
        d' <- getitem date_range i ;;
        File_Date <- setitem File_Date i d' ;;
        d'' <- getitem date_range i ;;
        sel' <- np_getmask files (np_eq dates d'') ;;
        f' <- getitem sel' 0 ;;
        File_Loc <- setitem File_Loc i (S_store 256 f') ;;
        ret (File_Loc, File_Date)
      else
        File_Date <- setitem File_Date i (py_int 2) ;;
        File_Loc <- setitem File_Loc i (S_store 256 str_2) ;;
        ret (File_Loc, File_Date)
    else ret (File_Loc, File_Date)) (File_Loc, File_Date).

(** ** One requested timestamp at a time *)

(** What one pass of the loop of [file_checker] computes for [d]. *)
Definition checker_elem dates (files : list string) (file_size_min yes_file no_file
    corrupt_file : Z) d : Run Z :=
  if decide (np_sum (np_eq dates d) = 1%nat) then
    sel <- np_getmask files (np_eq dates d) ;;
    f <- getitem sel 0 ;;
    size <- os_stat_size f ;;
    ret (if bool_decide (file_size_min < size) then yes_file
         else corrupt_file)
  else ret no_file.

(** The stat of every file that [file_checker] and [File_Aligner] look
    at succeeds: the file of each requested timestamp with exactly one
    entry in the catalog. *)
Definition stat_ok dates (files : list string) date_range : Prop :=
  Forall (fun d => np_sum (np_eq dates d) = 1%nat →
                   Forall (fun p => is_Some (fs p))
                     (np_select files (np_eq dates d))) date_range.

(** The size [file_checker2] records for a path: 0 when the stat fails. *)
Definition size_or_0 (p : string) : Z :=
  match fs p with Some s => s | None => 0 end.

(** The catalog timestamps [file_checker2] marks as too small. *)
Definition small_dates dates (files : list string) (file_size_min : Z) : list T :=
  np_select dates
    (map (fun size => bool_decide (size ≤ file_size_min))
         (map size_or_0 files)).

Definition checker2_code dates (files : list string) (file_size_min yes_file corrupt_file : Z)
    d : Z :=
  if bool_decide (d ∈ small_dates dates files file_size_min)
  then corrupt_file
  else if bool_decide (d ∈ dates) then yes_file else 0.

(** What a pass of a loop decides for its index: nothing, or the path
    cell and the timestamp cell to write. *)
Definition slots : Type := option (string * T).

Definition write (i : nat) (u : slots) (st : list string * list T)
  : Run (list string * list T) :=
  match u with
  | None => ret st
  | Some (l, o) =>
      File_Date <- setitem (snd st) i o ;;
      File_Loc <- setitem (fst st) i l ;;
      ret (File_Loc, File_Date)
  end.

Definition loc_of (u : slots) : string :=
  match u with Some (l, _) => l | None => S_store 256 EmptyString end.

Definition date_of (u : slots) : T :=
  match u with Some (_, o) => o | None => py_int 0 end.

Definition nosize_elem dates (files : list string) d : Run slots :=
  if decide (1 ≤ np_sum (np_eq dates d))%nat then
    sel <- np_getmask files (np_eq dates d) ;;
    f <- getitem sel 0 ;;
    ret (Some (S_store 256 f, d))
  else ret None.

Definition aligner_elem dates (files : list string) (file_size_min : Z) d : Run slots :=
  if decide (np_sum (np_eq dates d) = 1%nat) then
    sel <- np_getmask files (np_eq dates d) ;;
    f <- getitem sel 0 ;;
    size <- os_stat_size f ;;
    if bool_decide (file_size_min < size) then
      sel' <- np_getmask files (np_eq dates d) ;;
      f' <- getitem sel' 0 ;;
      ret (Some (S_store 256 f', d))
    else ret (Some (S_store 256 str_2, py_int 2))
  else ret None.

End Checkers.


(** * Concrete data *)

(** A disk with two files of 10 bytes, an empty file, a file named ["2"],
    and nothing else.  Timestamps are day numbers. *)
Definition disk (p : string) : option Z :=
  if decide (p = "a.txt") then Some 10
  else if decide (p = "b.txt") then Some 10
  else if decide (p = "empty.txt") then Some 0
  else if decide (p = "2") then Some 10
  else None.

Definition cat_dates : list Z := [1; 2; 3].

Definition cat_files : list string := ["a.txt"; "empty.txt"; "b.txt"].

Definition requested : list Z := [1; 2; 4].

(** The reading of the specification: the code of a requested timestamp
    comes from the first entry of the catalog at that timestamp. *)
Fixpoint first_entry (dates : list Z) (files : list string) (d : Z)
  : option string :=
  match dates, files with
  | d' :: dates', p :: files' =>
      if decide (d' = d) then Some p else first_entry dates' files' d
  | _, _ => None
  end.

Definition spec_first_entry_code (fs : string → option Z) (dates : list Z)
    (files : list string) (file_size_min yes_file no_file corrupt_file : Z)
    (d : Z) : Z :=
  match first_entry dates files d with
  | None => no_file
  | Some p =>
      if bool_decide (file_size_min < size_or_0 fs p) then yes_file
      else corrupt_file
  end.

(** A catalog with two entries on day 1. *)
Definition dup_dates : list Z := [1; 1; 2].

Definition dup_files : list string := ["a.txt"; "empty.txt"; "b.txt"].

Definition dup_requested : list Z := [1; 2].

(** A path of 304 bytes. *)
Fixpoint long_name (n : nat) : string :=
  match n with
  | O => ".dat"
  | S k => String (Ascii.ascii_of_nat 120) (long_name k)
  end.

Definition long_path : string := long_name 300.

Definition long_disk (p : string) : option Z :=
  if decide (p = long_path) then Some 10 else disk p.

(** * The other functions of the module *)

(** Python exceptions that the functions below raise or let through. *)
Inductive pyexc : Type :=
  | ValueError
  | TypeError
  | NameError
  | AttributeError
  | RecursionError
  | KeyboardInterrupt
  | PyOSError
  | UserError (name : string).

Inductive pyres (A : Type) : Type :=
  | Ret (a : A)
  | Exc (e : pyexc).

Arguments Ret {A} a.
Arguments Exc {A} e.

Definition pbind {A B : Type} (m : pyres A) (k : A → pyres B) : pyres B :=
  match m with
  | Ret a => k a
  | Exc e => Exc e
  end.

Notation "x <~ m ;; k" := (pbind m (fun x => k))
  (at level 100, m at next level, right associativity).

(** ** [isnone], [iszero], [isval] on one-dimensional arrays

    The argument is a one-dimensional array whose elements are [None] or
    integers; [np.atleast_1d] returns such an array as it is.  What the
    functions do depends on the NumPy they run on, which is a parameter. *)

Inductive pyval : Type :=
  | VNone
  | VInt (z : Z).

(** [val is None] *)
Definition is_None (val : pyval) : bool :=
  match val with
  | VNone => true
  | VInt _ => false
  end.

(** [val == value] *)
Definition py_eq (val value : pyval) : bool :=
  match val, value with
  | VNone, VNone => true
  | VInt a, VInt b => bool_decide (a = b)
  | _, _ => false
  end.

(** The NumPy the module runs on: 1.16 or earlier, or 1.17 or later.
    From NumPy 1.17 on, the functions of NumPy are called through the
    [__array_function__] dispatcher, which reads the sequence handed to
    [np.hstack] once before [np.hstack] itself reads it. *)
Inductive numpy : Type :=
  | NumPy_1_16
  | NumPy_1_17.

(** [arg.flat] is an iterator over the elements of [arg] and can be read
    once: reading it gives the elements that are left, and leaves none. *)
Definition flatiter (A : Type) : Type := list A.

Definition flat {A : Type} (a : list A) : flatiter A := a.

Definition read {A : Type} (it : flatiter A) : list A * flatiter A :=
  (it, []).

(** [np.hstack] of the elements it has read from its argument: the
    one-dimensional array of these elements, and [ValueError] when there
    is no element to concatenate. *)
Definition np_hstack {A : Type} (a : list A) : pyres (list A) :=
  match a with
  | [] => Exc ValueError
  | _ :: _ => Ret a
  end.

(** [np.hstack(arg.flat)]: under the dispatcher the iterator has been
    read when [np.hstack] comes to read it. *)
Definition np_hstack_flat {A : Type} (np : numpy) (it : flatiter A)
  : pyres (list A) :=
  let it := match np with
            | NumPy_1_16 => it
            | NumPy_1_17 => snd (read it)
            end in
  np_hstack (fst (read it)).

(** [np.where(index == ind)]: the positions of [ind] in [index], counted
    from [k]. *)
Fixpoint np_where_from (k : nat) (index : list nat) (ind : nat) : list nat :=
  match index with
  | [] => []
  | x :: index' =>
      if decide (x = ind) then k :: np_where_from (S k) index' ind
      else np_where_from (S k) index' ind
  end.

Definition np_where (index : list nat) (ind : nat) : list nat :=
  np_where_from 0 index ind.

(** [a[positions] = v], the positions being those of [np.where]. *)
Definition np_setpos {A : Type} (a : list A) (positions : list nat) (v : A)
  : list A :=
  foldl (fun a i => <[i:=v]> a) a positions.

(** [for ind, val in zip(index_flat, flags): full[np.where(index == ind)] =
    val] *)
Definition restructure (index index_flat : list nat) (flags full : list bool)
  : list bool :=
  foldl (fun full '(ind, val) => np_setpos full (np_where index ind) val)
        full (zip index_flat flags).

Definition isnone (np : numpy) (arg : list pyval) (keepshape : bool)
  : pyres (list bool) :=
  let nones_full := replicate (length arg) false in
  let index := seq 0 (length arg) in
  arg <~ np_hstack_flat np (flat arg) ;;
  index_flat <~ np_hstack index ;;
  let nones := map is_None arg in
  if keepshape then Ret (restructure index index_flat nones nones_full)
  else Ret nones.

Definition iszero (np : numpy) (arg : list pyval) (keepshape : bool)
  : pyres (list bool) :=
  let zero_full := replicate (length arg) false in
  let index := seq 0 (length arg) in
  arg <~ np_hstack_flat np (flat arg) ;;
  index_flat <~ np_hstack index ;;
  let zeros := map (fun val => py_eq val (VInt 0)) arg in
  if keepshape then Ret (restructure index index_flat zeros zero_full)
  else Ret zeros.

(** What [isval] returns: the Python [False], or a boolean array. *)
Inductive isval_result : Type :=
  | PyFalse
  | BoolArray (a : list bool).

Definition isval (np : numpy) (arg : list pyval) (value : pyval)
    (keepshape : bool) : pyres isval_result :=
  let zero_full := replicate (length arg) false in
  if decide (length arg = 0%nat) then Ret PyFalse
  else
    let index := seq 0 (length arg) in
    arg <~ np_hstack_flat np (flat arg) ;;
    index_flat <~ np_hstack index ;;
    let zeros := map (fun val => py_eq val value) arg in
    if keepshape
    then Ret (BoolArray (restructure index index_flat zeros zero_full))
    else Ret (BoolArray zeros).

(** ** [del_folder]

    The operating system is a parameter: a world [W] and what [os.listdir],
    [os.path.isfile], [os.path.isdir], [os.unlink] and [shutil.rmtree] do
    in it.  [os.unlink] and [shutil.rmtree] return the world they leave
    and, when they raise, the text of the exception. *)

Record os (W : Type) : Type := OS {
  os_listdir : string → W → pyres (list string);
  os_isfile : string → W → bool;
  os_isdir : string → W → bool;
  os_unlink : string → W → option string * W;
  os_rmtree : string → W → option string * W
}.

Arguments os_listdir {W} _ _ _.
Arguments os_isfile {W} _ _ _.
Arguments os_isdir {W} _ _ _.
Arguments os_unlink {W} _ _ _.
Arguments os_rmtree {W} _ _ _.

Inductive os_call : Type :=
  | Unlink (path : string)
  | Rmtree (path : string).

(** [b.startswith('/')] and [a.endswith('/')] *)
Definition starts_with_sep (b : string) : bool :=
  match b with
  | String c _ => Ascii.eqb c (Ascii.ascii_of_nat 47)
  | EmptyString => false
  end.

Fixpoint ends_with_sep (a : string) : bool :=
  match a with
  | EmptyString => false
  | String c EmptyString => Ascii.eqb c (Ascii.ascii_of_nat 47)
  | String _ a' => ends_with_sep a'
  end.

(** [os.path.join(a, b)] of [posixpath] *)
Definition path_join (a b : string) : string :=
  if starts_with_sep b then b
  else if String.eqb a EmptyString || ends_with_sep a then a +:+ b
  else a +:+ "/" +:+ b.

(** The world, the calls made so far and the lines printed so far. *)
Record del_state (W : Type) : Type := DelState {
  world : W;
  calls : list os_call;
  printed : list string
}.

Arguments DelState {W} _ _ _.
Arguments world {W} _.
Arguments calls {W} _.
Arguments printed {W} _.

(** One pass of the loop of [del_folder]. *)
Definition del_step {W : Type} (sys : os W) (folder : string) (sub : bool)
    (st : del_state W) (the_file : string) : del_state W :=
  let file_path := path_join folder the_file in
  if os_isfile sys file_path (world st) then
    match os_unlink sys file_path (world st) with
    | (None, w) => DelState w (calls st ++ [Unlink file_path]) (printed st)
    | (Some e, w) =>
        DelState w (calls st ++ [Unlink file_path]) (printed st ++ [e])
    end
  else if os_isdir sys file_path (world st) && sub then
    match os_rmtree sys file_path (world st) with
    | (None, w) => DelState w (calls st ++ [Rmtree file_path]) (printed st)
    | (Some e, w) =>
        DelState w (calls st ++ [Rmtree file_path]) (printed st ++ [e])
    end
  else st.

Definition del_folder {W : Type} (sys : os W) (folder : string) (sub : bool)
    (w : W) : pyres unit * del_state W :=
  match os_listdir sys folder w with
  | Exc e => (Exc e, DelState w [] [])
  | Ret names =>
      (Ret tt, foldl (del_step sys folder sub) (DelState w [] []) names)
  end.

(** ** [Print_Output]

    [frames] is the number of frames the interpreter still allows.  The
    argument of [threading.Timer] is the call [Print_Output(...)] itself,
    evaluated first; the module does not import [time], which the first
    [print] reads. *)

Inductive console_event : Type :=
  | TimerStarted
  | ScreenCleared
  | Printed (line : string).

Fixpoint Print_Output (frames : nat) (delay_time t_start it_tot it : Z)
  : list console_event * pyres unit :=
  match frames with
  | O => ([], Exc RecursionError)
  | S frames' =>
      match Print_Output frames' delay_time t_start it_tot it with
      | (events, Ret _) =>
          (events ++ [TimerStarted; ScreenCleared], Exc NameError)
      | (events, Exc e) => (events, Exc e)
      end
  end.

(** ** [antiverbose] and [verbose_class]

    [sys.stdout] is a variable of the interpreter; a stream is the console
    ([sys.__stdout__]) or a file opened on [os.devnull].  [open] is taken
    to succeed.  [closed] lists the streams whose [close] method has been
    called; that the interpreter closes a file object which nothing refers
    to any more is not part of the model. *)

Inductive stream : Type :=
  | Console
  | DevNull (n : nat).

#[global] Instance stream_eq_dec : EqDecision stream.
Proof. solve_decision. Defined.

Record interp : Type := Interp {
  sys_stdout : stream;
  closed : list stream;
  console : list string;
  opened : nat
}.

(** [print(s)]: writes to [sys.stdout]; [ValueError] on a closed file. *)
Definition py_print (s : string) (st : interp) : pyres unit * interp :=
  if decide (sys_stdout st ∈ closed st) then (Exc ValueError, st)
  else
    match sys_stdout st with
    | Console =>
        (Ret tt, Interp (sys_stdout st) (closed st) (console st ++ [s])
                   (opened st))
    | DevNull _ => (Ret tt, st)
    end.

(** [open(os.devnull, 'w')] *)
Definition open_devnull (st : interp) : stream * interp :=
  (DevNull (opened st),
   Interp (sys_stdout st) (closed st) (console st) (S (opened st))).

(** [sys.stdout = f] *)
Definition set_stdout (f : stream) (st : interp) : interp :=
  Interp f (closed st) (console st) (opened st).

(** [f.close()] *)
Definition close (f : stream) (st : interp) : interp :=
  Interp (sys_stdout st) (f :: closed st) (console st) (opened st).

Record antiverbose : Type := Antiverbose {
  verbose : bool;
  _original_stdout : option stream
}.

Definition antiverbose_enter (self : antiverbose) (st : interp)
  : antiverbose * interp :=
  if negb (verbose self) then
    let self := Antiverbose (verbose self) (Some (sys_stdout st)) in
    let (f, st) := open_devnull st in
    (self, set_stdout f st)
  else (self, st).

Definition antiverbose_exit (self : antiverbose) (st : interp)
  : pyres unit * interp :=
  if negb (verbose self) then
    let st := close (sys_stdout st) st in
    match _original_stdout self with
    | Some f => (Ret tt, set_stdout f st)
    | None => (Exc AttributeError, st)
    end
  else (Ret tt, st).

(** [with antiverbose(verbose): body] *)
Definition with_antiverbose (verbose : bool)
    (body : interp → pyres unit * interp) (st : interp)
  : pyres unit * interp :=
  let self := Antiverbose verbose None in
  let (self, st) := antiverbose_enter self st in
  let (r, st) := body st in
  match antiverbose_exit self st with
  | (Ret _, st) => (r, st)
  | (Exc e, st) => (Exc e, st)
  end.

(** The wrapper that [verbose_class] builds around [func], called on an
    object whose [self.verbose] is [verbose]. *)
Definition verbose_class (func : interp → pyres unit * interp)
    (verbose : bool) (st : interp) : pyres unit * interp :=
  if negb verbose then
    let (f, st) := open_devnull st in
    let st := set_stdout f st in
    match func st with
    | (Ret value, st) =>
        let st := set_stdout Console st in
        (Ret value, st)
    | (Exc e, st) => (Exc e, st)
    end
  else func st.

(** Programs that print, raise, open [antiverbose] blocks and call
    methods decorated with [verbose_class]. *)
#[warnings="-register-all"]
Inductive stmt : Type :=
  | Print (s : string)
  | Throw (e : pyexc)
  | With (verbose : bool) (body : list stmt)
  | Method (verbose : bool) (body : list stmt).

Fixpoint exec1 (c : stmt) (st : interp) {struct c} : pyres unit * interp :=
  let exec_body :=
    fix exec_body (body : list stmt) (st : interp) : pyres unit * interp :=
      match body with
      | [] => (Ret tt, st)
      | c :: body' =>
          match exec1 c st with
          | (Ret _, st) => exec_body body' st
          | (Exc e, st) => (Exc e, st)
          end
      end in
  match c with
  | Print s => py_print s st
  | Throw e => (Exc e, st)
  | With verbose body => with_antiverbose verbose (exec_body body) st
  | Method verbose body => verbose_class (exec_body body) verbose st
  end.

Fixpoint exec (body : list stmt) (st : interp) : pyres unit * interp :=
  match body with
  | [] => (Ret tt, st)
  | c :: body' =>
      match exec1 c st with
      | (Ret _, st) => exec body' st
      | (Exc e, st) => (Exc e, st)
      end
  end.

(** Programs without calls of decorated methods. *)
Fixpoint plain (c : stmt) : bool :=
  match c with
  | Print _ | Throw _ => true
  | With _ body => forallb plain body
  | Method _ _ => false
  end.

(** What a program without decorated calls leaves behind: [sys.stdout] as
    it was, every file it opened closed and no other, and the console as
    it was unless [sys.stdout] was the console. *)
Definition tidy (st st' : interp) : Prop :=
  sys_stdout st' = sys_stdout st
  ∧ (opened st ≤ opened st')%nat
  ∧ (∀ f, f ∈ closed st'
          ↔ f ∈ closed st ∨ ∃ n, f = DevNull n
                                 ∧ (opened st ≤ n ∧ n < opened st')%nat)
  ∧ (sys_stdout st ≠ Console → console st' = console st).

(** ** [DelayedKeyboardInterrupt] *)

Inductive signum : Type :=
  | SIGINT
  | SIGTSTP
  | SIGQUIT.

#[global] Instance signum_eq_dec : EqDecision signum.
Proof. solve_decision. Defined.

(** What [signal.signal] installs and returns: Python's
    [signal.default_int_handler], [SIG_DFL], [SIG_IGN], the [handler]
    method of a [DelayedKeyboardInterrupt] object, or some other callable,
    which returns or raises when called. *)
Inductive sighandler : Type :=
  | default_int_handler
  | SIG_DFL
  | SIG_IGN
  | delayed (obj : nat)
  | callable (name : nat) (raises : bool).

Record dki : Type := DKI {
  signal_received : option signum;
  ctrlc_handler : sighandler;
  ctrlz_handler : sighandler;
  ctrlslash_handler : sighandler
}.

(** The process: the installed handlers, the [DelayedKeyboardInterrupt]
    objects, the calls of the other callables, and the number of warnings
    printed. *)
Record process : Type := Process {
  handlers : signum → sighandler;
  objects : nat → dki;
  called : list (nat * signum);
  warnings : nat
}.

Definition update {A B : Type} `{EqDecision A} (f : A → B) (a : A) (b : B)
  : A → B :=
  fun x => if decide (x = a) then b else f x.

(** [signal.signal(sig, h)]: installs [h], returns the handler it
    replaces. *)
Definition signal_signal (sig : signum) (h : sighandler) (p : process)
  : sighandler * process :=
  (handlers p sig,
   Process (update (handlers p) sig h) (objects p) (called p) (warnings p)).

Definition set_object (obj : nat) (self : dki) (p : process) : process :=
  Process (handlers p) (update (objects p) obj self) (called p) (warnings p).

Definition DKI_enter (obj : nat) (p : process) : process :=
  let self := objects p obj in
  let self := DKI None (ctrlc_handler self) (ctrlz_handler self)
                (ctrlslash_handler self) in
  let (h, p) := signal_signal SIGINT (delayed obj) p in
  let self := DKI (signal_received self) h (ctrlz_handler self)
                (ctrlslash_handler self) in
  let (h, p) := signal_signal SIGTSTP (delayed obj) p in
  let self := DKI (signal_received self) (ctrlc_handler self) h
                (ctrlslash_handler self) in
  let (h, p) := signal_signal SIGQUIT (delayed obj) p in
  let self := DKI (signal_received self) (ctrlc_handler self)
                (ctrlz_handler self) h in
  set_object obj self p.

(** [self.handler(sig, frame)] *)
Definition DKI_handler (obj : nat) (sig : signum) (p : process) : process :=
  let self := objects p obj in
  let self := DKI (Some sig) (ctrlc_handler self) (ctrlz_handler self)
                (ctrlslash_handler self) in
  let p := set_object obj self p in
  Process (handlers p) (objects p) (called p) (S (warnings p)).

(** The call [h(sig, frame)]. *)
Definition call_handler (h : sighandler) (sig : signum) (p : process)
  : pyres unit * process :=
  match h with
  | default_int_handler => (Exc KeyboardInterrupt, p)
  | SIG_DFL | SIG_IGN => (Exc TypeError, p)
  | delayed obj => (Ret tt, DKI_handler obj sig p)
  | callable name raises =>
      (if raises then Exc (UserError "handler") else Ret tt,
       Process (handlers p) (objects p) (called p ++ [(name, sig)])
         (warnings p))
  end.

(** [if self.signal_received: h(sig, frame)], the pair being
    [self.signal_received]. *)
Definition call_if_received (obj : nat) (h : sighandler) (p : process)
  : pyres unit * process :=
  match signal_received (objects p obj) with
  | Some sig => call_handler h sig p
  | None => (Ret tt, p)
  end.

Definition DKI_exit (obj : nat) (p : process) : pyres unit * process :=
  let (_, p) := signal_signal SIGINT (ctrlc_handler (objects p obj)) p in
  match call_if_received obj (ctrlc_handler (objects p obj)) p with
  | (Exc e, p) => (Exc e, p)
  | (Ret _, p) =>
      let (_, p) := signal_signal SIGTSTP (ctrlz_handler (objects p obj)) p in
      match call_if_received obj (ctrlz_handler (objects p obj)) p with
      | (Exc e, p) => (Exc e, p)
      | (Ret _, p) =>
          let (_, p) :=
            signal_signal SIGQUIT (ctrlslash_handler (objects p obj)) p in
          call_if_received obj (ctrlslash_handler (objects p obj)) p
      end
  end.

(** [with DelayedKeyboardInterrupt(): ...], the block being interrupted by
    the signals [sigs], in this order; each runs the handler that
    [__enter__] has installed for the three signals. *)
Definition with_DKI (obj : nat) (sigs : list signum) (p : process)
  : pyres unit * process :=
  let p := DKI_enter obj p in
  let p := foldl (fun p sig => DKI_handler obj sig p) p sigs in
  DKI_exit obj p.

(** [with DelayedKeyboardInterrupt(): body]: [__exit__] returns [None],
    so that an exception of the body goes on, unless [__exit__] raises
    one itself. *)
Definition with_DKI_block (obj : nat)
    (body : process → pyres unit * process) (p : process)
  : pyres unit * process :=
  let p := DKI_enter obj p in
  let (r, p) := body p in
  match DKI_exit obj p with
  | (Ret _, p) => (r, p)
  | (Exc e, p) => (Exc e, p)
  end.

(** A process as Python starts it: [signal.default_int_handler] for
    Ctrl+C, the system's default for the two others; and a process of a
    program that has installed three handlers of its own.  No object has
    entered a block yet. *)
Definition python_process : process :=
  Process (fun sig => match sig with
                      | SIGINT => default_int_handler
                      | SIGTSTP | SIGQUIT => SIG_DFL
                      end)
    (fun _ => DKI None SIG_DFL SIG_DFL SIG_DFL) [] 0.

Definition program_process : process :=
  Process (fun sig => match sig with
                      | SIGINT => callable 1 false
                      | SIGTSTP => callable 2 false
                      | SIGQUIT => callable 3 false
                      end)
    (fun _ => DKI None SIG_DFL SIG_DFL SIG_DFL) [] 0.

(** * Properties *)

(** The two writes of a pass and the selection of the file raise nothing
  but [IndexError] and stat nothing, so their order does not show. *)
Ltac write_order files dates d i File_Loc File_Date :=
unfold write, np_getmask, setitem, getitem;
destruct (decide (length (np_eq dates d) = length files));
destruct (decide (i < length File_Date)%nat);
destruct (decide (i < length File_Loc)%nat);
cbn [bind ret raise app fst snd]; repeat case_decide; try done;
cbn [bind ret raise app fst snd]; try done;
destruct (np_select files (np_eq dates d) !! 0%nat);
cbn [bind ret raise app fst snd]; repeat case_decide; done.


(** ** Laws of runs *)

Lemma bind_ret_l {A B : Type} (a : A) (k : A → Run B) :
  (x <- ret a ;; k x) = k a.
Proof. unfold bind, ret. by destruct (k a). Qed.

Lemma bind_ret_r {A : Type} (m : Run A) : (x <- m ;; ret x) = m.
Proof.
  destruct m as [tr [a|e]]; simpl; [|done]. by rewrite app_nil_r.
Qed.

Lemma bind_assoc {A B C : Type} (m : Run A) (k : A → Run B) (h : B → Run C) :
  (y <- (x <- m ;; k x) ;; h y) = (x <- m ;; y <- k x ;; h y).
Proof.
  destruct m as [tr [a|e]]; simpl; [|done].
  destruct (k a) as [tr' [b|e]]; simpl; [|done].
  destruct (h b) as [tr'' r]. by rewrite app_assoc.
Qed.

Lemma bind_ext_ok {A B : Type} (m : Run A) (k k' : A → Run B) :
  (∀ a, result m = Ok a → k a = k' a) →
  (x <- m ;; k x) = (x <- m ;; k' x).
Proof.
  destruct m as [tr [a|e]]; simpl; [|done].
  intros Hk. by rewrite (Hk a).
Qed.

Lemma bind_raise {A B : Type} (e : exn) (k : A → Run B) :
  (x <- raise e ;; k x) = raise e.
Proof. done. Qed.

Lemma result_bind_ok {A B : Type} (m : Run A) (k : A → Run B) (a : A) :
  result m = Ok a → result (x <- m ;; k x) = result (k a).
Proof.
  destruct m as [tr r]; simpl. intros ->. simpl. by destruct (k a).
Qed.

Lemma trace_bind_ok {A B : Type} (m : Run A) (k : A → Run B) (a : A) :
  result m = Ok a → trace (x <- m ;; k x) = trace m ++ trace (k a).
Proof.
  destruct m as [tr r]; simpl. intros ->. simpl. by destruct (k a).
Qed.

Lemma run_eq {A : Type} (m : Run A) : m = (trace m, result m).
Proof. by destruct m. Qed.

(** ** Loops that read [a[i]] *)

Lemma collect_snoc {A B : Type} (f : A → Run B) (xs : list A) (x : A) :
  collect f (xs ++ [x]) = (ys <- collect f xs ;; y <- f x ;; ret (ys ++ [y])).
Proof.
  induction xs as [|x' xs IH]; cbn [collect app].
  - rewrite bind_ret_l. apply bind_ext_ok. intros y _.
    by rewrite bind_ret_l.
  - rewrite IH, !bind_assoc. apply bind_ext_ok. intros y' _.
    rewrite !bind_assoc. apply bind_ext_ok. intros ys _.
    rewrite bind_ret_l, bind_assoc. apply bind_ext_ok. intros y _.
    by rewrite bind_ret_l.
Qed.

Lemma collect_ext {A B : Type} (f g : A → Run B) (xs : list A) :
  (∀ x, f x = g x) → collect f xs = collect g xs.
Proof.
  intros Hfg. induction xs as [|x xs IH]; cbn [collect]; [done|].
  by rewrite Hfg, IH.
Qed.

Lemma collect_length {A B : Type} (f : A → Run B) (xs : list A) (ys : list B) :
  result (collect f xs) = Ok ys → length ys = length xs.
Proof.
  revert ys. induction xs as [|x xs IH]; simpl; intros ys.
  - by intros [= <-].
  - destruct (f x) as [tr [y|e]]; simpl; [|done].
    destruct (collect f xs) as [tr' [ys'|e]]; simpl; [|done].
    intros [= <-]. simpl. f_equal. by apply IH.
Qed.

Lemma collect_Forall2 {A B : Type} (f : A → Run B) (xs : list A) (ys : list B) :
  result (collect f xs) = Ok ys ↔ Forall2 (fun x y => result (f x) = Ok y) xs ys.
Proof.
  revert ys. induction xs as [|x xs IH]; intros ys; split.
  - intros [= <-]. constructor.
  - by inversion 1.
  - cbn [collect].
    destruct (f x) as [tr [y|e]] eqn:Hx; [|done].
    destruct (collect f xs) as [tr' [ys'|e]] eqn:Hxs; [|done].
    intros [= <-]. constructor; [by rewrite Hx|]. by apply IH.
  - inversion 1 as [|? y ? ys' Hy Hys]; subst. apply IH in Hys.
    cbn [collect].
    by rewrite (result_bind_ok _ _ _ Hy), (result_bind_ok _ _ _ Hys).
Qed.

Lemma collect_total {A B : Type} (f : A → Run B) (xs : list A) :
  Forall (fun x => ∃ y, result (f x) = Ok y) xs →
  ∃ ys, result (collect f xs) = Ok ys.
Proof.
  induction 1 as [|x xs [y Hy] _ [ys Hys]]; simpl; [by eexists|].
  exists (y :: ys).
  rewrite (result_bind_ok _ _ _ Hy), (result_bind_ok _ _ _ Hys). done.
Qed.

Lemma collect_trace_nil {A B : Type} (f : A → Run B) (xs : list A) :
  Forall (fun x => trace (f x) = []) xs → trace (collect f xs) = [].
Proof.
  induction 1 as [|x xs Hx _ IH]; simpl; [done|].
  destruct (f x) as [tr [y|e]]; simpl in *; [|done].
  destruct (collect f xs) as [tr' [ys|e]]; simpl in *; subst; done.
Qed.

Lemma getitem_lookup {A : Type} (a : list A) (i : nat) (x : A) :
  a !! i = Some x → getitem a i = ret x.
Proof. unfold getitem. by intros ->. Qed.

Lemma for_range_ext {St : Type} (n : nat) (body body' : nat → St → Run St)
    (s : St) :
  (∀ i s', (i < n)%nat → body i s' = body' i s') →
  for_range n body s = for_range n body' s.
Proof.
  induction n as [|n IH]; simpl; intros Hb; [done|].
  rewrite IH by (intros; apply Hb; lia).
  apply bind_ext_ok. intros s' _. apply Hb. lia.
Qed.

(** A loop that appends one value per index is [collect]. *)
Lemma for_range_append {A B : Type} (f : A → Run B) (xs : list A)
    (k : nat) (acc : list B) :
  (k ≤ length xs)%nat →
  for_range k (fun i acc' => x <- getitem xs i ;; y <- f x ;; ret (acc' ++ [y]))
    acc
  = (ys <- collect f (take k xs) ;; ret (acc ++ ys)).
Proof.
  induction k as [|k IH]; intros Hk.
  - rewrite take_0. cbn [for_range collect].
    by rewrite bind_ret_l, app_nil_r.
  - destruct (lookup_lt_is_Some_2 xs k) as [x Hx]; [lia|].
    cbn [for_range]. rewrite IH by lia.
    rewrite (take_S_r _ _ _ Hx), collect_snoc, !bind_assoc.
    apply bind_ext_ok. intros ys _.
    rewrite bind_ret_l, (getitem_lookup _ _ _ Hx), bind_ret_l, bind_assoc.
    apply bind_ext_ok. intros y _.
    by rewrite !bind_ret_l, app_assoc.
Qed.

(** ** Masks *)

Lemma np_select_sum_0 {A : Type} (a : list A) (mask : list bool) :
  np_sum mask = 0%nat → np_select a mask = [].
Proof.
  revert a. induction mask as [|b mask IH]; intros [|x a]; simpl; try done.
  destruct b; [done|]. intros Hs. by apply IH.
Qed.

Lemma elem_of_np_select {A : Type} (a : list A) (mask : list bool) (x : A) :
  x ∈ np_select a mask ↔ ∃ j, a !! j = Some x ∧ mask !! j = Some true.
Proof.
  revert mask. induction a as [|y a IH]; intros [|b mask]; simpl.
  - split; [by intros ?%elem_of_nil | by intros (j & ? & ?)].
  - split; [by intros ?%elem_of_nil | by intros (j & ? & ?)].
  - split; [by intros ?%elem_of_nil | by intros (j & ? & ?)].
  - destruct b.
    + rewrite elem_of_cons, IH. split.
      * intros [->|(j & ? & ?)]; [by exists 0%nat | by exists (S j)].
      * intros ([|j] & ? & ?); simplify_eq/=; [by left | right; eauto].
    + rewrite IH. split.
      * intros (j & ? & ?). by exists (S j).
      * intros ([|j] & ? & ?); simplify_eq/=. eauto.
Qed.

Lemma np_getmask_eq {A : Type} (a : list A) (mask : list bool) :
  length mask = length a → np_getmask a mask = ret (np_select a mask).
Proof. intros Hlen. unfold np_getmask. by rewrite decide_True by auto. Qed.

Lemma np_getmask_mismatch {A : Type} (a : list A) (mask : list bool) :
  length mask ≠ 0%nat → length mask ≠ length a →
  np_getmask a mask = raise IndexError.
Proof.
  intros Hne Hlen. unfold np_getmask. by rewrite decide_False by tauto.
Qed.

Lemma np_getmask_empty {A : Type} (a : list A) : np_getmask a [] = ret [].
Proof. unfold np_getmask. rewrite decide_True by auto. by destruct a. Qed.

Lemma np_setmask_replicate {A B : Type} (f : A → bool) (xs : list A) (v w : B) :
  np_setmask (replicate (length xs) w) (map f xs) v
  = map (fun x => if f x then v else w) xs.
Proof. induction xs as [|x xs IH]; simpl; [done|]. by rewrite IH. Qed.

Lemma np_setmask_map {A B : Type} (f : A → bool) (g : A → B) (xs : list A)
    (v : B) :
  np_setmask (map g xs) (map f xs) v = map (fun x => if f x then v else g x) xs.
Proof. induction xs as [|x xs IH]; simpl; [done|]. by rewrite IH. Qed.

Section Matching.

Context {T : Type} `{EqDecision T}.
Implicit Types (dates date_range : list T) (d : T) (files : list string).

Lemma np_eq_length dates d : length (np_eq dates d) = length dates.
Proof. apply length_map. Qed.

Lemma np_eq_nonempty dates d :
  (1 ≤ np_sum (np_eq dates d))%nat → length (np_eq dates d) ≠ 0%nat.
Proof. destruct dates; simpl; [lia|done]. Qed.

Lemma np_eq_lookup dates d j :
  np_eq dates d !! j = Some true ↔ dates !! j = Some d.
Proof.
  unfold np_eq. rewrite list_lookup_fmap.
  destruct (dates !! j) as [d'|]; simpl; [|done].
  case_bool_decide; naive_solver.
Qed.

Lemma np_sum_eq_0 dates d : np_sum (np_eq dates d) = 0%nat ↔ d ∉ dates.
Proof.
  induction dates as [|d' dates IH]; simpl.
  - split; [intros _; apply not_elem_of_nil | done].
  - rewrite not_elem_of_cons. case_bool_decide as Hd; simpl.
    + split; [done | by intros [? _]].
    + rewrite IH. split; [by split | by intros [_ ?]].
Qed.

Lemma np_sum_eq_pos dates d : (1 ≤ np_sum (np_eq dates d))%nat ↔ d ∈ dates.
Proof.
  destruct (decide (d ∈ dates)) as [Hin|Hin].
  - split; [done|]. intros _.
    destruct (np_sum (np_eq dates d)) eqn:Hs; [|lia].
    by apply np_sum_eq_0 in Hs.
  - apply np_sum_eq_0 in Hin as Hs. rewrite Hs. split; [lia | done].
Qed.

(** With at most one entry of the catalog at [d], its index is unique. *)
Lemma np_sum_eq_le_1_inj dates d j j' :
  (np_sum (np_eq dates d) ≤ 1)%nat →
  dates !! j = Some d → dates !! j' = Some d → j = j'.
Proof.
  revert j j'. induction dates as [|d' dates IH]; intros j j'; [done|].
  simpl. case_bool_decide as Hd; simpl; intros Hs Hj Hj'.
  - assert (d ∉ dates) as Hnin by (apply np_sum_eq_0; lia).
    destruct j as [|j], j' as [|j']; simplify_eq/=; try done.
    + by apply list_elem_of_lookup_2 in Hj'.
    + by apply list_elem_of_lookup_2 in Hj.
    + by apply list_elem_of_lookup_2 in Hj.
  - destruct j as [|j], j' as [|j']; simplify_eq/=. f_equal. by apply IH.
Qed.

(** The files selected at [d] start with the file of the first entry of
    the catalog at [d]. *)
Lemma np_select_first {A : Type} (a : list A) dates d :
  length a = length dates → d ∈ dates →
  ∃ j x, dates !! j = Some d ∧ (∀ j', (j' < j)%nat → dates !! j' ≠ Some d)
         ∧ a !! j = Some x ∧ np_select a (np_eq dates d) !! 0%nat = Some x.
Proof.
  revert a. induction dates as [|d' dates IH]; intros [|x a] Hlen Hin;
    simplify_eq/=; [by apply elem_of_nil in Hin|].
  case_bool_decide as Hd.
  - subst d'. exists 0%nat, x. repeat split; try done. intros j' Hj'. lia.
  - apply elem_of_cons in Hin as [->|Hin]; [done|].
    destruct (IH a Hlen Hin) as (j & y & Hj & Hfirst & Ha & Hsel).
    exists (S j), y. repeat split; try done.
    intros [|j'] Hj'; simpl; [congruence|]. apply Hfirst. lia.
Qed.

(** With exactly one entry at [d], the selection is that entry's file. *)
Lemma np_select_unique {A : Type} (a : list A) dates d j x :
  length a = length dates → np_sum (np_eq dates d) = 1%nat →
  dates !! j = Some d → a !! j = Some x →
  np_select a (np_eq dates d) = [x].
Proof.
  revert a j. induction dates as [|d' dates IH]; intros [|y a] j Hlen;
    simplify_eq/=; [done|].
  case_bool_decide as Hd; simpl; intros Hs Hj Ha.
  - assert (d ∉ dates) as Hnin by (apply np_sum_eq_0; lia).
    destruct j as [|j]; simplify_eq/=.
    + f_equal. apply np_select_sum_0. lia.
    + by apply list_elem_of_lookup_2 in Hj.
  - destruct j as [|j]; simplify_eq/=. by eapply IH.
Qed.

Lemma np_sum_eq_ge_2 dates d :
  (2 ≤ np_sum (np_eq dates d))%nat →
  ∃ j j', j ≠ j' ∧ dates !! j = Some d ∧ dates !! j' = Some d.
Proof.
  induction dates as [|d' dates IH]; simpl; [lia|].
  case_bool_decide as Hd; simpl; intros Hs.
  - subst d'. assert (d ∈ dates) as Hin by (apply np_sum_eq_pos; lia).
    apply list_elem_of_lookup_1 in Hin as [j Hj].
    by exists 0%nat, (S j).
  - destruct (IH Hs) as (j & j' & Hne & Hj & Hj').
    exists (S j), (S j'). repeat split; try done. congruence.
Qed.

(** The test [np.sum(dates == d) == 1] holds exactly when the catalog has
    one entry at [d] and no other. *)
Lemma np_sum_eq_1 dates d :
  np_sum (np_eq dates d) = 1%nat
  ↔ ∃ j, dates !! j = Some d ∧ ∀ j', dates !! j' = Some d → j' = j.
Proof.
  split.
  - intros Hs. assert (d ∈ dates) as Hin by (apply np_sum_eq_pos; lia).
    apply list_elem_of_lookup_1 in Hin as [j Hj]. exists j.
    split; [done|]. intros j' Hj'.
    apply (np_sum_eq_le_1_inj dates d); [lia|done..].
  - intros (j & Hj & Huniq).
    assert (1 ≤ np_sum (np_eq dates d))%nat as Hge.
    { apply np_sum_eq_pos. by eapply list_elem_of_lookup_2. }
    destruct (decide (2 ≤ np_sum (np_eq dates d))%nat) as [H2|H2]; [|lia].
    destruct (np_sum_eq_ge_2 dates d H2) as (j1 & j2 & Hne & Hj1 & Hj2).
    apply Huniq in Hj1, Hj2. congruence.
Qed.

End Matching.

(** ** [file_checker], one requested timestamp at a time *)

Section CheckerFacts.

Context {T : Type} `{EqDecision T}.
Variable fs : string → option Z.
Implicit Types (dates date_range : list T) (d : T) (files : list string).

Lemma file_checker_collect dates date_range files m y n c :
  file_checker fs dates date_range (Some files) m y n c
  = collect (checker_elem fs dates files m y n c) date_range.
Proof.
  unfold file_checker.
  rewrite (for_range_ext _ _ (fun i acc =>
    x <- getitem date_range i ;;
    v <- checker_elem fs dates files m y n c x ;; ret (acc ++ [v]))).
  - rewrite for_range_append, firstn_all by done.
    rewrite <- (bind_ret_r (collect _ _)) at 2.
    by apply bind_ext_ok.
  - intros i acc _. apply bind_ext_ok. intros d _.
    unfold checker_elem. case_decide; [|by rewrite bind_ret_l].
    rewrite !bind_assoc. apply bind_ext_ok. intros sel _.
    rewrite !bind_assoc. apply bind_ext_ok. intros f _.
    rewrite !bind_assoc. apply bind_ext_ok. intros size _.
    rewrite bind_ret_l. by case_bool_decide.
Qed.

Lemma checker_elem_other dates files m y n c d :
  np_sum (np_eq dates d) ≠ 1%nat → checker_elem fs dates files m y n c d = ret n.
Proof. intros Hs. unfold checker_elem. by case_decide. Qed.

Lemma checker_elem_one dates files m y n c d j p :
  length files = length dates → np_sum (np_eq dates d) = 1%nat →
  dates !! j = Some d → files !! j = Some p →
  checker_elem fs dates files m y n c d
  = ([p], match fs p with
          | Some s => Ok (if bool_decide (m < s) then y else c)
          | None => Raise OSError
          end).
Proof.
  intros Hlen Hs Hj Hp. unfold checker_elem, np_getmask.
  rewrite decide_True by done.
  rewrite decide_True by (right; by rewrite np_eq_length).
  rewrite bind_ret_l, (np_select_unique _ _ _ _ _ Hlen Hs Hj Hp).
  cbn [getitem lookup list_lookup]. rewrite bind_ret_l.
  unfold os_stat_size. by destruct (fs p).
Qed.

Lemma checker_elem_mismatch dates files m y n c d :
  length files ≠ length dates →
  checker_elem fs dates files m y n c d
  = if decide (np_sum (np_eq dates d) = 1%nat) then raise IndexError
    else ret n.
Proof.
  intros Hlen. unfold checker_elem. case_decide; [|done].
  rewrite np_getmask_mismatch; [done| |by rewrite np_eq_length].
  apply np_eq_nonempty. lia.
Qed.

(** A pass that returns at a timestamp with exactly one entry has seen the
    size of that entry's file. *)
Lemma checker_elem_one_ok dates files m y n c d j p s v :
  result (checker_elem fs dates files m y n c d) = Ok v →
  np_sum (np_eq dates d) = 1%nat →
  dates !! j = Some d → files !! j = Some p → fs p = Some s →
  v = if bool_decide (m < s) then y else c.
Proof.
  intros Hres Hone Hj Hp Hs.
  destruct (decide (length files = length dates)) as [Hlen|Hlen].
  - rewrite (checker_elem_one _ _ _ _ _ _ _ _ _ Hlen Hone Hj Hp), Hs in Hres.
    by simplify_eq/=.
  - rewrite checker_elem_mismatch, decide_True in Hres by done. done.
Qed.

Lemma stat_ok_lookup dates files date_range d j p :
  length files = length dates → stat_ok fs dates files date_range →
  d ∈ date_range → np_sum (np_eq dates d) = 1%nat →
  dates !! j = Some d → files !! j = Some p → is_Some (fs p).
Proof.
  intros Hlen Hok Hd Hs Hj Hp.
  unfold stat_ok in Hok. rewrite Forall_forall in Hok.
  specialize (Hok d Hd Hs).
  rewrite (np_select_unique _ _ _ _ _ Hlen Hs Hj Hp) in Hok.
  by inversion Hok.
Qed.

Lemma checker_elem_ok dates files date_range m y n c d :
  length files = length dates → stat_ok fs dates files date_range →
  d ∈ date_range → ∃ v, result (checker_elem fs dates files m y n c d) = Ok v.
Proof.
  intros Hlen Hok Hd.
  destruct (decide (np_sum (np_eq dates d) = 1%nat)) as [Hs|Hs].
  - assert (d ∈ dates) as Hin by (apply np_sum_eq_pos; lia).
    destruct (np_select_first files dates d Hlen Hin)
      as (j & p & Hj & _ & Hp & _).
    destruct (stat_ok_lookup _ _ _ _ _ _ Hlen Hok Hd Hs Hj Hp) as [s Hfs].
    rewrite (checker_elem_one _ _ _ _ _ _ _ _ _ Hlen Hs Hj Hp), Hfs.
    by eexists.
  - rewrite checker_elem_other by done. by eexists.
Qed.

Lemma file_checker_returns dates date_range files m y n c :
  length files = length dates → stat_ok fs dates files date_range →
  ∃ out, result (file_checker fs dates date_range (Some files) m y n c)
         = Ok out.
Proof.
  intros Hlen Hok. rewrite file_checker_collect.
  apply collect_total, Forall_forall. intros d Hd.
  by eapply checker_elem_ok.
Qed.

End CheckerFacts.

(** ** [file_checker2] and the shortcut of [file_checker], in closed form *)

Section Checker2Facts.

Context {T : Type} `{EqDecision T}.
Variable fs : string → option Z.
Implicit Types (dates date_range : list T) (d : T) (files : list string).

Lemma stat_loop files (acc : list Z) :
  for_each files (fun file file_sizes =>
    try_except_OSError
      (size <- os_stat_size fs file ;; ret (file_sizes ++ [size]))
      (ret (file_sizes ++ [0]))) acc
  = (files, Ok (acc ++ map (size_or_0 fs) files)).
Proof.
  revert acc. induction files as [|p files IH]; intros acc.
  - simpl. by rewrite app_nil_r.
  - cbn [for_each]. unfold os_stat_size at 1, size_or_0 at 1.
    destruct (fs p) as [s|] eqn:Hp; cbn [bind try_except_OSError ret app];
      rewrite IH, <- app_assoc; simpl; by rewrite Hp.
Qed.

Lemma file_checker2_files dates date_range files m y n c :
  file_checker2 fs dates date_range (Some files) m y n c
  = (files,
     if decide (length files = 0%nat ∨ length files = length dates)
     then Ok (map (checker2_code fs dates files m y c) date_range)
     else Raise IndexError).
Proof.
  unfold file_checker2. rewrite stat_loop. unfold np_getmask.
  rewrite app_nil_l. cbn [bind]. rewrite !length_map.
  case_decide; cbn [bind raise ret]; rewrite app_nil_r; [|done].
  do 2 f_equal. unfold np_zeros, np_in1d.
  rewrite np_setmask_replicate, np_setmask_map.
  apply map_ext. intros d. unfold checker2_code, small_dates.
  by repeat case_bool_decide.
Qed.

Lemma file_checker2_None dates date_range m y n c :
  file_checker2 fs dates date_range None m y n c
  = ret (map (fun d => if bool_decide (d ∈ dates) then y else 0) date_range).
Proof.
  unfold file_checker2, np_zeros, np_in1d. by rewrite np_setmask_replicate.
Qed.

Lemma file_checker_None dates date_range m y n c :
  file_checker fs dates date_range None m y n c
  = ret (map (fun d => if bool_decide (d ∈ dates) then 1 else 0) date_range).
Proof.
  unfold file_checker, np_zeros, np_in1d. by rewrite np_setmask_replicate.
Qed.

(** A timestamp is marked too small exactly when some entry of the
    catalog at that timestamp has a file of recorded size at most the
    threshold. *)
Lemma elem_of_small_dates dates files m d :
  d ∈ small_dates fs dates files m
  ↔ ∃ j p, dates !! j = Some d ∧ files !! j = Some p ∧ size_or_0 fs p ≤ m.
Proof.
  unfold small_dates. rewrite elem_of_np_select. split.
  - intros (j & Hj & Hm). rewrite !list_lookup_fmap in Hm.
    destruct (files !! j) as [p|] eqn:Hp; simplify_eq/=.
    exists j, p. repeat split; try done. by eapply bool_decide_eq_true_1.
  - intros (j & p & Hj & Hp & Hsz). exists j. split; [done|].
    rewrite !list_lookup_fmap, Hp. simpl. f_equal.
    by apply bool_decide_eq_true_2.
Qed.

End Checker2Facts.

(** ** The aligners, one requested timestamp at a time *)

Lemma fill_next {A : Type} (l : list A) (x0 : A) (n k : nat) :
  (k < n)%nat →
  l ++ replicate (n - k) x0 = (l ++ [x0]) ++ replicate (n - S k) x0.
Proof.
  intros Hk. replace (n - k)%nat with (S (n - S k)) by lia.
  by rewrite <- app_assoc.
Qed.

Lemma insert_fill {A : Type} (l : list A) (x0 x : A) (n k : nat) :
  length l = k → (k < n)%nat →
  <[k:=x]> (l ++ replicate (n - k) x0) = (l ++ [x]) ++ replicate (n - S k) x0.
Proof.
  intros Hl Hk. replace (n - k)%nat with (S (n - S k)) by lia.
  rewrite insert_app_r_alt by lia.
  replace (k - length l)%nat with 0%nat by lia. by rewrite <- app_assoc.
Qed.

Section AlignerFacts.

Context {T : Type} `{EqDecision T} `{PyInts T}.
Variable fs : string → option Z.
Implicit Types (dates date_range : list T) (d : T) (files : list string).

Lemma for_range_write (f : T → Run (@slots T)) date_range (k : nat) :
  (k ≤ length date_range)%nat →
  for_range k (fun i st => d <- getitem date_range i ;; u <- f d ;; write i u st)
    (np_zeros_S256 (length date_range), np_zeros_object (length date_range))
  = (us <- collect f (take k date_range) ;;
     ret (map loc_of us
            ++ replicate (length date_range - k) (S_store 256 EmptyString),
          map date_of us ++ replicate (length date_range - k) (py_int 0))).
Proof.
  induction k as [|k IH]; intros Hk.
  - rewrite take_0. cbn [for_range collect].
    by rewrite bind_ret_l, Nat.sub_0_r.
  - destruct (lookup_lt_is_Some_2 date_range k) as [d Hd]; [lia|].
    cbn [for_range]. rewrite IH by lia.
    rewrite (take_S_r _ _ _ Hd), collect_snoc, !bind_assoc.
    apply bind_ext_ok. intros us Hus.
    apply collect_length in Hus. rewrite length_take in Hus.
    rewrite bind_ret_l, (getitem_lookup _ _ _ Hd), bind_ret_l, bind_assoc.
    apply bind_ext_ok. intros u _. rewrite bind_ret_l.
    rewrite !map_app. cbn [map].
    destruct u as [[l o]|]; cbn [write fst snd loc_of date_of].
    + unfold setitem.
      rewrite !decide_True
        by (rewrite length_app, length_map, length_replicate; lia).
      rewrite !bind_ret_l.
      by rewrite !insert_fill by (rewrite ?length_map; lia).
    + by rewrite <- !fill_next by lia.
Qed.

(** *** [File_Aligner_NoSize] *)

Lemma File_Aligner_NoSize_collect files dates date_range :
  File_Aligner_NoSize files dates date_range
  = (us <- collect (nosize_elem dates files) date_range ;;
     ret (map loc_of us, map date_of us)).
Proof.
  unfold File_Aligner_NoSize.
  rewrite (for_range_ext _ _ (fun i st =>
    d <- getitem date_range i ;;
    u <- nosize_elem dates files d ;; write i u st)).
  - rewrite for_range_write, firstn_all by done.
    apply bind_ext_ok. intros us _.
    by rewrite Nat.sub_diag, !app_nil_r.
  - intros i [File_Loc File_Date] Hi.
    destruct (lookup_lt_is_Some_2 date_range i Hi) as [d Hd].
    rewrite !(getitem_lookup _ _ _ Hd), !bind_ret_l. unfold nosize_elem.
    case_decide; [|by rewrite bind_ret_l].
    write_order files dates d i File_Loc File_Date.
Qed.

(** *** [File_Aligner] *)

Lemma File_Aligner_collect files dates date_range m :
  File_Aligner fs files dates date_range m
  = (us <- collect (aligner_elem fs dates files m) date_range ;;
     ret (map loc_of us, map date_of us)).
Proof.
  unfold File_Aligner.
  rewrite (for_range_ext _ _ (fun i st =>
    d <- getitem date_range i ;;
    u <- aligner_elem fs dates files m d ;; write i u st)).
  - rewrite for_range_write, firstn_all by done.
    apply bind_ext_ok. intros us _.
    by rewrite Nat.sub_diag, !app_nil_r.
  - intros i [File_Loc File_Date] Hi.
    destruct (lookup_lt_is_Some_2 date_range i Hi) as [d Hd].
    rewrite !(getitem_lookup _ _ _ Hd), !bind_ret_l. unfold aligner_elem.
    case_decide; [|by rewrite bind_ret_l].
    rewrite !bind_assoc. apply bind_ext_ok. intros sel _.
    rewrite !bind_assoc. apply bind_ext_ok. intros f _.
    rewrite !bind_assoc. apply bind_ext_ok. intros size _.
    case_bool_decide.
    + write_order files dates d i File_Loc File_Date.
    + by rewrite bind_ret_l.
Qed.

Lemma nosize_elem_none dates files d :
  d ∉ dates → nosize_elem dates files d = ret None.
Proof.
  intros Hnin. unfold nosize_elem.
  rewrite decide_False; [done|]. by rewrite np_sum_eq_pos.
Qed.

Lemma nosize_elem_first dates files d j p :
  length files = length dates →
  dates !! j = Some d → (∀ j', (j' < j)%nat → dates !! j' ≠ Some d) →
  files !! j = Some p →
  nosize_elem dates files d = ret (Some (S_store 256 p, d)).
Proof.
  intros Hlen Hj Hfirst Hp.
  assert (d ∈ dates) as Hin by (by eapply list_elem_of_lookup_2).
  destruct (np_select_first files dates d Hlen Hin)
    as (j0 & p0 & Hj0 & Hfirst0 & Hp0 & Hsel).
  assert (j0 = j) as ->.
  { destruct (Nat.lt_trichotomy j0 j) as [Hlt|[->|Hlt]]; [|done|].
    - by apply Hfirst in Hlt.
    - by apply Hfirst0 in Hlt. }
  simplify_eq. unfold nosize_elem, np_getmask.
  rewrite decide_True by (by apply np_sum_eq_pos).
  rewrite decide_True by (right; by rewrite np_eq_length).
  rewrite bind_ret_l, (getitem_lookup _ _ _ Hsel). by rewrite bind_ret_l.
Qed.

Lemma nosize_elem_ok dates files d :
  length files = length dates →
  ∃ u, nosize_elem dates files d = ret u.
Proof.
  intros Hlen. destruct (decide (d ∈ dates)) as [Hin|Hnin].
  - destruct (np_select_first files dates d Hlen Hin)
      as (j & p & Hj & Hfirst & Hp & _).
    eexists. by eapply nosize_elem_first.
  - eexists. by apply nosize_elem_none.
Qed.

Lemma aligner_elem_other dates files m d :
  np_sum (np_eq dates d) ≠ 1%nat → aligner_elem fs dates files m d = ret None.
Proof. intros Hs. unfold aligner_elem. by case_decide. Qed.

Lemma aligner_elem_one dates files m d j p :
  length files = length dates → np_sum (np_eq dates d) = 1%nat →
  dates !! j = Some d → files !! j = Some p →
  aligner_elem fs dates files m d
  = ([p], match fs p with
          | Some s =>
              Ok (Some (if bool_decide (m < s) then (S_store 256 p, d)
                        else (S_store 256 str_2, py_int 2)))
          | None => Raise OSError
          end).
Proof.
  intros Hlen Hs Hj Hp. unfold aligner_elem, np_getmask.
  rewrite decide_True by done.
  rewrite decide_True by (right; by rewrite np_eq_length).
  rewrite bind_ret_l, (np_select_unique _ _ _ _ _ Hlen Hs Hj Hp).
  cbn [getitem lookup list_lookup]. rewrite bind_ret_l.
  unfold os_stat_size. destruct (fs p) as [s|]; [|done].
  cbn [bind]. case_bool_decide; by rewrite ?bind_ret_l.
Qed.

Lemma aligner_elem_ok dates files date_range m d :
  length files = length dates → stat_ok fs dates files date_range →
  d ∈ date_range → ∃ u, result (aligner_elem fs dates files m d) = Ok u.
Proof.
  intros Hlen Hok Hd.
  destruct (decide (np_sum (np_eq dates d) = 1%nat)) as [Hs|Hs].
  - assert (d ∈ dates) as Hin by (apply np_sum_eq_pos; lia).
    destruct (np_select_first files dates d Hlen Hin)
      as (j & p & Hj & _ & Hp & _).
    destruct (stat_ok_lookup _ _ _ _ _ _ _ Hlen Hok Hd Hs Hj Hp) as [s Hfs].
    rewrite (aligner_elem_one _ _ _ _ _ _ Hlen Hs Hj Hp), Hfs.
    by eexists.
  - rewrite aligner_elem_other by done. by eexists.
Qed.

Lemma aligner_elem_one_ok dates files m d j p s u :
  result (aligner_elem fs dates files m d) = Ok u →
  np_sum (np_eq dates d) = 1%nat →
  dates !! j = Some d → files !! j = Some p → fs p = Some s →
  u = Some (if bool_decide (m < s) then (S_store 256 p, d)
            else (S_store 256 str_2, py_int 2)).
Proof.
  intros Hres Hone Hj Hp Hs.
  destruct (decide (length files = length dates)) as [Hlen|Hlen].
  - rewrite (aligner_elem_one _ _ _ _ _ _ Hlen Hone Hj Hp), Hs in Hres.
    by injection Hres as <-.
  - unfold aligner_elem in Hres. rewrite decide_True in Hres by done.
    rewrite np_getmask_mismatch in Hres; [done| |by rewrite np_eq_length].
    apply np_eq_nonempty. lia.
Qed.

Lemma nosize_elem_first_ok dates files d j p u :
  result (nosize_elem dates files d) = Ok u →
  dates !! j = Some d → (∀ j', (j' < j)%nat → dates !! j' ≠ Some d) →
  files !! j = Some p →
  u = Some (S_store 256 p, d).
Proof.
  intros Hres Hj Hfirst Hp.
  destruct (decide (length files = length dates)) as [Hlen|Hlen].
  - rewrite (nosize_elem_first _ _ _ _ _ Hlen Hj Hfirst Hp) in Hres.
    by injection Hres as <-.
  - assert (1 ≤ np_sum (np_eq dates d))%nat as Hpos
      by (apply np_sum_eq_pos; by eapply list_elem_of_lookup_2).
    unfold nosize_elem in Hres. rewrite decide_True in Hres by done.
    rewrite np_getmask_mismatch in Hres; [done| |by rewrite np_eq_length].
    by apply np_eq_nonempty.
Qed.

Lemma nosize_elem_trace dates files d : trace (nosize_elem dates files d) = [].
Proof.
  unfold nosize_elem, np_getmask. case_decide; [|done].
  case_decide; [|done]. rewrite bind_ret_l. unfold getitem.
  by destruct (np_select files (np_eq dates d) !! 0%nat).
Qed.

(** [File_Aligner_NoSize] stats no file. *)
Lemma File_Aligner_NoSize_trace files dates date_range :
  trace (File_Aligner_NoSize files dates date_range) = [].
Proof.
  rewrite File_Aligner_NoSize_collect.
  pose proof (collect_trace_nil (nosize_elem dates files) date_range) as Htr.
  destruct (collect (nosize_elem dates files) date_range) as [tr [us|e]];
    simpl in *; rewrite Htr; try done;
    apply Forall_forall; intros d _; apply nosize_elem_trace.
Qed.

Lemma collect_then_inv {A B C : Type} (f : A → Run B) (F : list B → C)
    (xs : list A) (v : C) :
  result (ys <- collect f xs ;; ret (F ys)) = Ok v →
  ∃ ys, Forall2 (fun x y => result (f x) = Ok y) xs ys ∧ v = F ys.
Proof.
  destruct (collect f xs) as [tr [ys|e]] eqn:Hc; simpl; [|done].
  intros [= <-]. exists ys. split; [|done].
  apply collect_Forall2. by rewrite Hc.
Qed.

Lemma File_Aligner_inv files dates date_range m locs dts :
  result (File_Aligner fs files dates date_range m) = Ok (locs, dts) →
  ∃ us, Forall2 (fun d u => result (aligner_elem fs dates files m d) = Ok u)
          date_range us
        ∧ locs = map loc_of us ∧ dts = map date_of us.
Proof.
  rewrite File_Aligner_collect. intros Hres.
  apply (collect_then_inv _ (fun us => (map loc_of us, map date_of us)))
    in Hres as (us & Hus & [= -> ->]).
  by exists us.
Qed.

Lemma File_Aligner_NoSize_inv files dates date_range locs dts :
  result (File_Aligner_NoSize files dates date_range) = Ok (locs, dts) →
  ∃ us, Forall2 (fun d u => result (nosize_elem dates files d) = Ok u)
          date_range us
        ∧ locs = map loc_of us ∧ dts = map date_of us.
Proof.
  rewrite File_Aligner_NoSize_collect. intros Hres.
  apply (collect_then_inv _ (fun us => (map loc_of us, map date_of us)))
    in Hres as (us & Hus & [= -> ->]).
  by exists us.
Qed.

(** The arrays a run returns, read at one index. *)
Lemma slots_lookup (f : T → Run (@slots T)) date_range us i d :
  Forall2 (fun d u => result (f d) = Ok u) date_range us →
  date_range !! i = Some d →
  ∃ u, result (f d) = Ok u ∧ map loc_of us !! i = Some (loc_of u)
       ∧ map date_of us !! i = Some (date_of u).
Proof.
  intros Hus Hi.
  destruct (Forall2_lookup_l _ _ _ _ _ Hus Hi) as (u & Hu & Hres).
  exists u. by rewrite !list_lookup_fmap, Hu.
Qed.

Lemma File_Aligner_returns files dates date_range m :
  length files = length dates → stat_ok fs dates files date_range →
  ∃ us, Forall2 (fun d u => result (aligner_elem fs dates files m d) = Ok u)
          date_range us
        ∧ result (File_Aligner fs files dates date_range m)
          = Ok (map loc_of us, map date_of us).
Proof.
  intros Hlen Hok.
  destruct (collect_total (aligner_elem fs dates files m) date_range) as [us Hus].
  { apply Forall_forall. intros d Hd. by eapply aligner_elem_ok. }
  exists us. split; [by apply collect_Forall2|].
  by rewrite File_Aligner_collect, (result_bind_ok _ _ _ Hus).
Qed.

Lemma File_Aligner_NoSize_returns files dates date_range :
  length files = length dates →
  ∃ us, Forall2 (fun d u => result (nosize_elem dates files d) = Ok u)
          date_range us
        ∧ File_Aligner_NoSize files dates date_range
          = ([], Ok (map loc_of us, map date_of us)).
Proof.
  intros Hlen.
  destruct (collect_total (nosize_elem dates files) date_range) as [us Hus].
  { apply Forall_forall. intros d _.
    destruct (nosize_elem_ok dates files d Hlen) as [u ->]. by eexists. }
  exists us. split; [by apply collect_Forall2|].
  rewrite File_Aligner_NoSize_collect.
  rewrite (run_eq (_ <- _ ;; _)).
  rewrite (trace_bind_ok _ _ _ Hus), (result_bind_ok _ _ _ Hus).
  rewrite collect_trace_nil; [done|].
  apply Forall_forall. intros d _.
  by destruct (nosize_elem_ok dates files d Hlen) as [u ->].
Qed.

End AlignerFacts.

(** ** Cells of dtype ['S256'] *)

Lemma S_store_length (w : nat) (s : string) : String.length (S_store w s) = w.
Proof.
  revert s. induction w as [|w IH]; intros s; [done|].
  destruct s; simpl; by rewrite IH.
Qed.

Lemma S_store_substring (w : nat) (s : string) :
  (w ≤ String.length s)%nat → S_store w s = String.substring 0 w s.
Proof.
  revert s. induction w as [|w IH]; intros [|c s]; simpl; try done; try lia.
  intros Hw. rewrite IH; [done | lia].
Qed.

Lemma S_store_flag_nonzero : S_store 256 str_2 ≠ S_store 256 EmptyString.
Proof. unfold str_2. cbn [S_store]. by intros [=]. Qed.

Arguments S_store : simpl never.

(** * The claims *)

Lemma Forall2_result_map {A B : Type} (f : A → Run B) (g : A → B)
    (xs : list A) (ys : list B) :
  Forall2 (fun x y => result (f x) = Ok y) xs ys →
  (∀ x y, x ∈ xs → result (f x) = Ok y → y = g x) →
  ys = map g xs.
Proof.
  induction 1 as [|x y xs ys Hxy _ IH]; intros Hg; simpl; [done|].
  f_equal.
  - apply Hg; [by left | done].
  - apply IH. intros x' y' Hin. apply Hg. by right.
Qed.

Section Claims.

Context {T : Type} `{EqDecision T} `{PyInts T}.
Variable fs : string → option Z.
Implicit Types (dates date_range : list T) (d : T) (files : list string).

(** [file_checker2] catches the [OSError] of a stat: it never raises it,
    and with a threshold of at least 0 a timestamp with an entry whose file
    cannot be stat'ed is reported as [corrupt_file]. *)
Lemma file_checker2_no_OSError dates date_range (files : option (list string))
    (m y n c : Z) :
  result (file_checker2 fs dates date_range files m y n c) ≠ Raise OSError.
Proof.
  destruct files as [fl|].
  - rewrite file_checker2_files. simpl. by case_decide.
  - by rewrite file_checker2_None.
Qed.

Lemma file_checker2_absent_file dates date_range files (m y n c : Z)
    (i j : nat) d p :
  length files = length dates → 0 ≤ m →
  date_range !! i = Some d → dates !! j = Some d → files !! j = Some p →
  fs p = None →
  ∃ out, result (file_checker2 fs dates date_range (Some files) m y n c)
         = Ok out
         ∧ out !! i = Some c.
Proof.
  intros Hlen Hm Hi Hj Hp Hfs. eexists.
  rewrite file_checker2_files, decide_True by auto. split; [done|].
  rewrite list_lookup_fmap, Hi. simpl. f_equal. unfold checker2_code.
  rewrite bool_decide_eq_true_2; [done|].
  apply elem_of_small_dates. exists j, p. repeat split; try done.
  unfold size_or_0. by rewrite Hfs.
Qed.

(** [file_checker] has no such handler: when the only entry of a requested
    timestamp has a file that cannot be stat'ed, it returns nothing. *)
Lemma file_checker_absent_file dates date_range files (m y n c : Z)
    (i j : nat) d p :
  length files = length dates →
  date_range !! i = Some d →
  dates !! j = Some d → (∀ j', dates !! j' = Some d → j' = j) →
  files !! j = Some p → fs p = None →
  ∀ out, result (file_checker fs dates date_range (Some files) m y n c)
         ≠ Ok out.
Proof.
  intros Hlen Hi Hj Huniq Hp Hfs out Hout.
  rewrite file_checker_collect in Hout. apply collect_Forall2 in Hout.
  destruct (Forall2_lookup_l _ _ _ _ _ Hout Hi) as (v & _ & Hres).
  assert (np_sum (np_eq dates d) = 1%nat) as Hone
    by (apply np_sum_eq_1; eauto).
  by rewrite (checker_elem_one _ _ _ _ _ _ _ _ _ _ Hlen Hone Hj Hp), Hfs
    in Hres.
Qed.

(** C1.  With the files supplied, whatever [file_checker] returns holds,
    for a requested timestamp [d], [no_file] when the catalog has no entry
    at [d], and, when it has exactly one entry at [d], whose file has size
    [s], [yes_file] if [s > file_size_min] and [corrupt_file] otherwise.  It
    returns when the catalog is well formed and every file that is looked
    at is present. *)
Theorem file_checker_classifies dates date_range files
    (file_size_min yes_file no_file corrupt_file : Z) :
  (∀ out,
     result (file_checker fs dates date_range (Some files) file_size_min
               yes_file no_file corrupt_file) = Ok out →
     ∀ i d, date_range !! i = Some d →
       (d ∉ dates → out !! i = Some no_file)
       ∧ (∀ j p s,
            dates !! j = Some d → (∀ j', dates !! j' = Some d → j' = j) →
            files !! j = Some p → fs p = Some s →
            out !! i = Some (if bool_decide (file_size_min < s) then yes_file
                             else corrupt_file)))
  ∧ (length files = length dates → stat_ok fs dates files date_range →
     ∃ out, result (file_checker fs dates date_range (Some files)
                      file_size_min yes_file no_file corrupt_file) = Ok out).
Proof.
  split; [|apply file_checker_returns].
  intros out Hout i d Hi.
  rewrite file_checker_collect in Hout. apply collect_Forall2 in Hout.
  destruct (Forall2_lookup_l _ _ _ _ _ Hout Hi) as (v & Hv & Hres).
  split.
  - intros Hnin. apply np_sum_eq_0 in Hnin.
    rewrite checker_elem_other in Hres by lia. by simplify_eq/=.
  - intros j p s Hj Huniq Hp Hs.
    assert (np_sum (np_eq dates d) = 1%nat) as Hone
      by (apply np_sum_eq_1; eauto).
    rewrite Hv. f_equal. by eapply checker_elem_one_ok.
Qed.

(** C7.  Whatever [file_checker] and [file_checker2] return has one
    entry per requested timestamp, in the order of the requested range: the
    output is the image of the range under a function of the timestamp.
    Both return when the catalog is well formed (and, for [file_checker],
    every file that is looked at is present). *)
Theorem checker_output_length dates date_range (files : option (list string))
    (file_size_min yes_file no_file corrupt_file : Z) :
  (∀ out,
     result (file_checker fs dates date_range files file_size_min yes_file
               no_file corrupt_file) = Ok out →
     length out = length date_range ∧ ∃ f, out = map f date_range)
  ∧ (∀ out,
       result (file_checker2 fs dates date_range files file_size_min yes_file
                 no_file corrupt_file) = Ok out →
       length out = length date_range ∧ ∃ f, out = map f date_range)
  ∧ ((∀ fl, files = Some fl → length fl = length dates) →
     (∃ out, result (file_checker2 fs dates date_range files file_size_min
                       yes_file no_file corrupt_file) = Ok out)
     ∧ ((∀ fl, files = Some fl → stat_ok fs dates fl date_range) →
        ∃ out, result (file_checker fs dates date_range files file_size_min
                         yes_file no_file corrupt_file) = Ok out)).
Proof.
  split_and!.
  - intros out Hout. destruct files as [fl|].
    + rewrite file_checker_collect in Hout. split.
      * by apply collect_length in Hout.
      * apply collect_Forall2 in Hout.
        set (elem := checker_elem fs dates fl file_size_min yes_file no_file
                       corrupt_file) in *.
        exists (fun d => match result (elem d) with
                         | Ok v => v
                         | Raise _ => 0
                         end).
        apply (Forall2_result_map elem); [done|]. by intros d v _ ->.
    + rewrite file_checker_None in Hout. simplify_eq/=.
      split; [by rewrite length_map | by eexists].
  - intros out Hout. destruct files as [fl|].
    + rewrite file_checker2_files in Hout. simpl in Hout.
      case_decide; simplify_eq/=. split; [by rewrite length_map | by eexists].
    + rewrite file_checker2_None in Hout. simplify_eq/=.
      split; [by rewrite length_map | by eexists].
  - intros Hlen. split.
    + destruct files as [fl|].
      * rewrite file_checker2_files, decide_True by eauto. by eexists.
      * rewrite file_checker2_None. by eexists.
    + intros Hok. destruct files as [fl|].
      * apply file_checker_returns; eauto.
      * rewrite file_checker_None. by eexists.
Qed.

(** C9.  [file_checker2] never reads [no_file]: a requested timestamp
    with no entry in the catalog gets 0, the fill value of [np.zeros],
    whatever [no_file] the caller passes. *)
Theorem file_checker2_missing_is_zero dates date_range
    (files : option (list string)) (file_size_min yes_file corrupt_file : Z) :
  (∀ fl, files = Some fl → length fl = length dates) →
  ∃ out,
    (∀ no_file',
       result (file_checker2 fs dates date_range files file_size_min yes_file
                 no_file' corrupt_file) = Ok out)
    ∧ ∀ i d, date_range !! i = Some d → d ∉ dates → out !! i = Some 0.
Proof.
  intros Hlen. destruct files as [fl|].
  - exists (map (checker2_code fs dates fl file_size_min yes_file corrupt_file)
              date_range).
    split.
    + intros n'. by rewrite file_checker2_files, decide_True by eauto.
    + intros i d Hi Hnin. rewrite list_lookup_fmap, Hi. simpl. f_equal.
      unfold checker2_code.
      rewrite bool_decide_eq_false_2, bool_decide_eq_false_2; [done..|].
      rewrite elem_of_small_dates. intros (j & p & Hj & _).
      by apply list_elem_of_lookup_2 in Hj.
  - exists (map (fun d => if bool_decide (d ∈ dates) then yes_file else 0)
              date_range).
    split.
    + intros n'. by rewrite file_checker2_None.
    + intros i d Hi Hnin. rewrite list_lookup_fmap, Hi. simpl.
      by rewrite bool_decide_eq_false_2.
Qed.

(** C4, as amended.  On a well-formed catalog in which every requested
    timestamp has at most one entry and every file that [file_checker]
    looks at is present, [file_checker] and [file_checker2] return the same
    output when [no_file] is 0, as it is by default; without the files
    they agree when moreover [yes_file] is 1. *)
Theorem file_checker_agree dates date_range files
    (file_size_min yes_file corrupt_file : Z) :
  length files = length dates →
  stat_ok fs dates files date_range →
  (∀ d j j', d ∈ date_range →
     dates !! j = Some d → dates !! j' = Some d → j = j') →
  (∃ out,
     result (file_checker fs dates date_range (Some files) file_size_min
               yes_file 0 corrupt_file) = Ok out
     ∧ result (file_checker2 fs dates date_range (Some files) file_size_min
                 yes_file 0 corrupt_file) = Ok out)
  ∧ file_checker fs dates date_range None file_size_min 1 0 corrupt_file
    = file_checker2 fs dates date_range None file_size_min 1 0 corrupt_file.
Proof.
  intros Hlen Hok Huniq. split;
    [|by rewrite file_checker_None, file_checker2_None].
  destruct (file_checker_returns fs dates date_range files file_size_min
              yes_file 0 corrupt_file Hlen Hok) as [out Hout].
  exists out. split; [done|].
  rewrite file_checker2_files, decide_True by auto. simpl. f_equal.
  rewrite file_checker_collect in Hout. apply collect_Forall2 in Hout.
  symmetry. apply (Forall2_result_map _ _ _ _ Hout). intros d v Hd Hres.
  unfold checker2_code.
  destruct (decide (d ∈ dates)) as [Hin|Hnin].
  - apply list_elem_of_lookup_1 in Hin as Hj. destruct Hj as [j Hj].
    assert (np_sum (np_eq dates d) = 1%nat) as Hone.
    { apply np_sum_eq_1. exists j. split; [done|].
      intros j' Hj'. by apply (Huniq d). }
    destruct (lookup_lt_is_Some_2 files j) as [p Hp].
    { rewrite Hlen. by eapply lookup_lt_Some. }
    rewrite (checker_elem_one _ _ _ _ _ _ _ _ _ _ Hlen Hone Hj Hp) in Hres.
    destruct (fs p) as [s|] eqn:Hs; simplify_eq/=.
    rewrite (bool_decide_eq_true_2 (d ∈ dates)) by done.
    case_bool_decide as Hlt.
    + rewrite bool_decide_eq_false_2; [done|].
      rewrite elem_of_small_dates. intros (j' & p' & Hj' & Hp' & Hsz).
      assert (j' = j) as -> by (by apply (Huniq d)). simplify_eq.
      unfold size_or_0 in Hsz. rewrite Hs in Hsz. lia.
    + rewrite bool_decide_eq_true_2; [done|].
      rewrite elem_of_small_dates. exists j, p. repeat split; try done.
      unfold size_or_0. rewrite Hs. lia.
  - apply np_sum_eq_0 in Hnin as Hzero.
    rewrite checker_elem_other in Hres by lia. simplify_eq/=.
    rewrite bool_decide_eq_false_2, bool_decide_eq_false_2; [done..|].
    rewrite elem_of_small_dates. intros (j & p & Hj & _).
    by apply list_elem_of_lookup_2 in Hj.
Qed.

Lemma duplicate_not_one dates d j j' :
  j ≠ j' → dates !! j = Some d → dates !! j' = Some d →
  np_sum (np_eq dates d) ≠ 1%nat.
Proof.
  intros Hne Hj Hj' Hone.
  apply Hne. apply (np_sum_eq_le_1_inj dates d); [lia|done..].
Qed.

(** C3, as amended.  For a requested timestamp [d] with two or more
    entries in the catalog, only [File_Aligner_NoSize] computes its result
    from the first entry at [d] in catalog order.  [file_checker] reports
    [no_file] and [File_Aligner] leaves both slots at their defaults, as for
    a timestamp with no entry; [file_checker2] reports [corrupt_file] as
    soon as the file of some entry at [d] is too small, and [yes_file] when
    none is.  Each result is a function of the inputs and the file system. *)
Theorem duplicates_first_entry_NoSize_only dates date_range files
    (file_size_min yes_file no_file corrupt_file : Z) (i : nat) d :
  length files = length dates →
  stat_ok fs dates files date_range →
  date_range !! i = Some d →
  (∃ j j', j ≠ j' ∧ dates !! j = Some d ∧ dates !! j' = Some d) →
  (∃ out,
     result (file_checker fs dates date_range (Some files) file_size_min
               yes_file no_file corrupt_file) = Ok out
     ∧ out !! i = Some no_file)
  ∧ (∃ locs dts,
       result (File_Aligner fs files dates date_range file_size_min)
       = Ok (locs, dts)
       ∧ locs !! i = Some (S_store 256 EmptyString)
       ∧ dts !! i = Some (py_int 0))
  ∧ (∃ locs dts j p,
       File_Aligner_NoSize files dates date_range = ([], Ok (locs, dts))
       ∧ dates !! j = Some d ∧ (∀ j', (j' < j)%nat → dates !! j' ≠ Some d)
       ∧ files !! j = Some p
       ∧ locs !! i = Some (S_store 256 p) ∧ dts !! i = Some d)
  ∧ (∃ out,
       result (file_checker2 fs dates date_range (Some files) file_size_min
                 yes_file no_file corrupt_file) = Ok out
       ∧ ((∃ j p, dates !! j = Some d ∧ files !! j = Some p
                  ∧ size_or_0 fs p ≤ file_size_min) →
          out !! i = Some corrupt_file)
       ∧ ((∀ j p, dates !! j = Some d → files !! j = Some p →
                  file_size_min < size_or_0 fs p) →
          out !! i = Some yes_file)).
Proof.
  intros Hlen Hok Hi (j1 & j2 & Hne & Hj1 & Hj2).
  pose proof (duplicate_not_one _ _ _ _ Hne Hj1 Hj2) as Hdup.
  assert (d ∈ dates) as Hin by (by eapply list_elem_of_lookup_2).
  repeat apply conj.
  - destruct (file_checker_returns fs dates date_range files file_size_min
                yes_file no_file corrupt_file Hlen Hok) as [out Hout].
    exists out. split; [done|].
    rewrite file_checker_collect in Hout. apply collect_Forall2 in Hout.
    destruct (Forall2_lookup_l _ _ _ _ _ Hout Hi) as (v & Hv & Hres).
    rewrite checker_elem_other in Hres by done. by simplify_eq/=.
  - destruct (File_Aligner_returns fs files dates date_range file_size_min
                Hlen Hok) as (us & Hus & Hrun).
    destruct (slots_lookup _ _ _ _ _ Hus Hi) as (u & Hu & Hloc & Hdate).
    rewrite aligner_elem_other in Hu by done. simplify_eq/=. eauto.
  - destruct (File_Aligner_NoSize_returns files dates date_range Hlen)
      as (us & Hus & Hrun).
    destruct (slots_lookup _ _ _ _ _ Hus Hi) as (u & Hu & Hloc & Hdate).
    destruct (np_select_first files dates d Hlen Hin)
      as (j & p & Hj & Hfirst & Hp & _).
    rewrite (nosize_elem_first _ _ _ _ _ Hlen Hj Hfirst Hp) in Hu.
    simplify_eq/=. exists (map loc_of us), (map date_of us), j, p. eauto 10.
  - eexists. rewrite file_checker2_files, decide_True by auto.
    split; [done|]. rewrite list_lookup_fmap, Hi. simpl. unfold checker2_code.
    split.
    + intros Hsmall. apply elem_of_small_dates in Hsmall.
      by rewrite bool_decide_eq_true_2.
    + intros Hbig. rewrite bool_decide_eq_false_2, bool_decide_eq_true_2;
        [done..|].
      rewrite elem_of_small_dates. intros (j & p & Hj & Hp & Hsz).
      specialize (Hbig j p Hj Hp). lia.
Qed.

Lemma collect_raise_or_ret {A B : Type} (P : A → Prop) `{∀ x, Decision (P x)}
    (e : exn) (v : B) (xs : list A) :
  collect (fun x => if decide (P x) then raise e else ret v) xs
  = if decide (Exists P xs) then raise e else ret (replicate (length xs) v).
Proof.
  induction xs as [|x xs IH]; cbn [collect].
  - rewrite decide_False; [done|]. by intros ?%Exists_nil.
  - destruct (decide (P x)) as [HP|HP].
    + rewrite decide_True; [done|]. by left.
    + rewrite bind_ret_l, IH. destruct (decide (Exists P xs)) as [HE|HE].
      * rewrite decide_True; [done|]. by right.
      * rewrite decide_False; [by rewrite !bind_ret_l|].
        by intros [?|?]%Exists_cons.
Qed.

(** C5, as amended.  The lengths of [dates] and [files] are never compared
    up front.  When they differ, [file_checker2] raises [IndexError] only
    after it has queried the size of every file, and not at all when
    [files] is empty: it then returns what it returns without the files.
    [file_checker] raises [IndexError], before any query, only if some
    requested timestamp has exactly one entry in the catalog, and otherwise
    returns [no_file] for every requested timestamp. *)
Theorem mismatched_lengths_not_validated dates date_range files
    (file_size_min yes_file no_file corrupt_file : Z) :
  length files ≠ length dates →
  file_checker2 fs dates date_range (Some files) file_size_min yes_file
    no_file corrupt_file
  = (files,
     if decide (files = [])
     then Ok (map (fun d => if bool_decide (d ∈ dates) then yes_file else 0)
                date_range)
     else Raise IndexError)
  ∧ file_checker fs dates date_range (Some files) file_size_min yes_file
      no_file corrupt_file
    = if decide (Exists (fun d => np_sum (np_eq dates d) = 1%nat) date_range)
      then ([], Raise IndexError)
      else ([], Ok (replicate (length date_range) no_file)).
Proof.
  intros Hlen. split.
  - rewrite file_checker2_files. destruct files as [|p files].
    + rewrite !decide_True by auto. do 2 f_equal. apply map_ext. intros d.
      unfold checker2_code, small_dates. simpl.
      rewrite bool_decide_eq_false_2; [done|].
      destruct dates; apply not_elem_of_nil.
    + rewrite !decide_False; [done..|]. simpl. intros [?|?]; [lia|done].
  - rewrite file_checker_collect.
    rewrite <- (collect_raise_or_ret _ IndexError no_file date_range).
    apply collect_ext. intros d. by apply checker_elem_mismatch.
Qed.

(** C8, as amended.  In whatever [File_Aligner] returns, a requested
    timestamp with no entry in the catalog keeps the defaults in both slots
    (the empty cell and the integer 0), and one whose only entry has a file
    of size at most [file_size_min] has the flag 2 in both slots: the
    integer 2 in the timestamp slot and the string ["2"] in the path slot.
    Neither is the default.  The integer 2 in the timestamp slot of a
    requested timestamp that is not itself the integer 2 is the flag: the
    only entry at this timestamp has a file of size at most
    [file_size_min]; a requested timestamp that is the integer 2 is stored
    as the very cell of the flag.  [File_Aligner_NoSize] stats no file; in
    what it returns a timestamp with no entry keeps the defaults and any
    other has the path of the first entry at the timestamp, whatever its
    file.  Both return on a well-formed catalog, [File_Aligner] when
    moreover every file that is looked at is present. *)
Theorem aligner_slots dates date_range files (file_size_min : Z) :
  (∀ locs dts,
     result (File_Aligner fs files dates date_range file_size_min)
     = Ok (locs, dts) →
     ∀ i d, date_range !! i = Some d →
       (d ∉ dates →
        locs !! i = Some (S_store 256 EmptyString)
        ∧ dts !! i = Some (py_int 0))
       ∧ (∀ j p s,
            dates !! j = Some d → (∀ j', dates !! j' = Some d → j' = j) →
            files !! j = Some p → fs p = Some s → s ≤ file_size_min →
            locs !! i = Some (S_store 256 str_2)
            ∧ dts !! i = Some (py_int 2))
       ∧ (d ≠ py_int 2 → dts !! i = Some (py_int 2) →
          ∃ j p s,
            dates !! j = Some d ∧ (∀ j', dates !! j' = Some d → j' = j)
            ∧ files !! j = Some p ∧ fs p = Some s ∧ s ≤ file_size_min)
       ∧ (d = py_int 2 → dts !! i = Some (py_int 0) ∨ dts !! i = Some d))
  ∧ (∀ locs dts,
       result (File_Aligner_NoSize files dates date_range) = Ok (locs, dts) →
       trace (File_Aligner_NoSize files dates date_range) = []
       ∧ ∀ i d, date_range !! i = Some d →
           (d ∉ dates →
            locs !! i = Some (S_store 256 EmptyString)
            ∧ dts !! i = Some (py_int 0))
           ∧ (∀ j p,
                dates !! j = Some d →
                (∀ j', (j' < j)%nat → dates !! j' ≠ Some d) →
                files !! j = Some p →
                locs !! i = Some (S_store 256 p) ∧ dts !! i = Some d))
  ∧ ((py_int 2 : T) ≠ py_int 0
     ∧ S_store 256 str_2 ≠ S_store 256 EmptyString)
  ∧ (length files = length dates →
     (∃ r, result (File_Aligner_NoSize files dates date_range) = Ok r)
     ∧ (stat_ok fs dates files date_range →
        ∃ r, result (File_Aligner fs files dates date_range file_size_min)
             = Ok r)).
Proof.
  assert ((py_int 2 : T) ≠ py_int 0) as Hflag
    by (intros Heq; by apply py_int_inj in Heq).
  split_and!; [| |done|apply S_store_flag_nonzero|].
  - intros locs dts Hrun i d Hi.
    apply File_Aligner_inv in Hrun as (us & Hus & -> & ->).
    destruct (slots_lookup _ _ _ _ _ Hus Hi) as (u & Hu & -> & ->).
    assert (np_sum (np_eq dates d) = 1%nat →
            ∃ j p s, dates !! j = Some d
              ∧ (∀ j', dates !! j' = Some d → j' = j)
              ∧ files !! j = Some p ∧ fs p = Some s
              ∧ u = Some (if bool_decide (file_size_min < s)
                          then (S_store 256 p, d)
                          else (S_store 256 str_2, py_int 2))) as Hone.
    { intros Hone. apply np_sum_eq_1 in Hone as Huniq.
      destruct Huniq as (j & Hj & Huniq).
      destruct (decide (length files = length dates)) as [Hl|Hl].
      - destruct (lookup_lt_is_Some_2 files j) as [p Hp].
        { rewrite Hl. by eapply lookup_lt_Some. }
        rewrite (aligner_elem_one _ _ _ _ _ _ _ Hl Hone Hj Hp) in Hu.
        simpl in Hu. destruct (fs p) as [s|] eqn:Hs; [|done].
        injection Hu as <-. by exists j, p, s.
      - unfold aligner_elem in Hu. rewrite decide_True in Hu by done.
        rewrite np_getmask_mismatch in Hu;
          [done| |by rewrite np_eq_length].
        apply np_eq_nonempty. lia. }
    split_and!.
    + intros Hnin. apply np_sum_eq_0 in Hnin.
      rewrite aligner_elem_other in Hu by lia. by simplify_eq/=.
    + intros j p s Hj Huniq Hp Hs Hsmall.
      assert (np_sum (np_eq dates d) = 1%nat) as Hone'
        by (apply np_sum_eq_1; eauto).
      rewrite (aligner_elem_one_ok _ _ _ _ _ _ _ _ _ Hu Hone' Hj Hp Hs).
      by rewrite bool_decide_eq_false_2 by lia.
    + intros Hd Hcell.
      destruct (decide (np_sum (np_eq dates d) = 1%nat)) as [Hs|Hs].
      * destruct (Hone Hs) as (j & p & s & Hj & Huniq & Hp & Hfs & ->).
        exists j, p, s. split_and!; try done.
        case_bool_decide; [|lia]. simpl in Hcell. by simplify_eq.
      * rewrite aligner_elem_other in Hu by done. simplify_eq/=.
    + intros ->.
      destruct (decide (np_sum (np_eq dates (py_int 2)) = 1%nat)) as [Hs|Hs].
      * destruct (Hone Hs) as (j & p & s & _ & _ & _ & _ & ->).
        right. by case_bool_decide.
      * rewrite aligner_elem_other in Hu by done. simplify_eq/=. by left.
  - intros locs dts Hrun. split; [apply File_Aligner_NoSize_trace|].
    intros i d Hi.
    apply File_Aligner_NoSize_inv in Hrun as (us & Hus & -> & ->).
    destruct (slots_lookup _ _ _ _ _ Hus Hi) as (u & Hu & -> & ->).
    split.
    + intros Hnin. rewrite nosize_elem_none in Hu by done. by simplify_eq/=.
    + intros j p Hj Hfirst Hp.
      by rewrite (nosize_elem_first_ok _ _ _ _ _ _ Hu Hj Hfirst Hp).
  - intros Hlen. split.
    + destruct (File_Aligner_NoSize_returns files dates date_range Hlen)
        as (us & _ & ->). by eexists.
    + intros Hok.
      destruct (File_Aligner_returns fs files dates date_range file_size_min
                  Hlen Hok) as (us & _ & ->). by eexists.
Qed.

Lemma aligner_elem_cell dates files m d u :
  result (aligner_elem fs dates files m d) = Ok u →
  String.length (loc_of u) = 256%nat.
Proof.
  unfold aligner_elem, np_getmask. intros Hres.
  assert (∀ s (o : T), String.length (loc_of (Some (S_store 256 s, o)))
                              = 256%nat) as Hcell
    by (intros; apply S_store_length).
  case_decide; [|by simplify_eq/=].
  case_decide; [|by simplify_eq/=].
  rewrite bind_ret_l in Hres. unfold getitem in Hres.
  destruct (np_select files (np_eq dates d) !! 0%nat) as [p|] eqn:Hsel;
    [|by simplify_eq/=].
  rewrite !bind_ret_l in Hres. unfold os_stat_size in Hres.
  destruct (fs p) as [s|]; [|by simplify_eq/=].
  cbn [bind] in Hres. case_bool_decide.
  - rewrite Hsel, !bind_ret_l in Hres. cbn [ret result snd] in Hres.
    simplify_eq. apply Hcell.
  - cbn [ret result snd] in Hres. simplify_eq. apply Hcell.
Qed.

Lemma nosize_elem_cell dates files d u :
  result (nosize_elem dates files d) = Ok u →
  String.length (loc_of u) = 256%nat.
Proof.
  unfold nosize_elem, np_getmask. intros Hres.
  assert (∀ s (o : T), String.length (loc_of (Some (S_store 256 s, o)))
                              = 256%nat) as Hcell
    by (intros; apply S_store_length).
  case_decide; [|by simplify_eq/=].
  case_decide; [|by simplify_eq/=].
  rewrite bind_ret_l in Hres. unfold getitem in Hres.
  destruct (np_select files (np_eq dates d) !! 0%nat) as [p|];
    [|by simplify_eq/=].
  rewrite !bind_ret_l in Hres. cbn [ret result snd] in Hres.
  simplify_eq. apply Hcell.
Qed.

Lemma cells_length (f : T → Run (@slots T)) date_range (us : list (@slots T)) :
  (∀ d u, result (f d) = Ok u → String.length (loc_of u) = 256%nat) →
  Forall2 (fun d u => result (f d) = Ok u) date_range us →
  Forall (fun cell => String.length cell = 256%nat) (map loc_of us).
Proof.
  intros Hf. induction 1 as [|d u ds us Hdu _ IH]; simpl; [done|].
  constructor; [by eapply Hf | done].
Qed.

(** C10.  Both aligners return the paths in cells of 256 bytes.  A path
    of more than 256 bytes that is written to a slot (the first entry at the
    timestamp for [File_Aligner_NoSize]; the only entry, when its file is
    larger than [file_size_min], for [File_Aligner]) is stored as its first
    256 bytes.  Both return on a well-formed catalog, [File_Aligner] when
    moreover every file that is looked at is present. *)
Theorem aligner_paths_cut_at_256 dates date_range files (file_size_min : Z) :
  (∀ locs dts,
     result (File_Aligner fs files dates date_range file_size_min)
     = Ok (locs, dts) →
     Forall (fun cell => String.length cell = 256%nat) locs
     ∧ ∀ i d j p s,
         date_range !! i = Some d →
         dates !! j = Some d → (∀ j', dates !! j' = Some d → j' = j) →
         files !! j = Some p → fs p = Some s → file_size_min < s →
         (256 < String.length p)%nat →
         locs !! i = Some (String.substring 0 256 p))
  ∧ (∀ locs dts,
       result (File_Aligner_NoSize files dates date_range) = Ok (locs, dts) →
       Forall (fun cell => String.length cell = 256%nat) locs
       ∧ ∀ i d j p,
           date_range !! i = Some d →
           dates !! j = Some d →
           (∀ j', (j' < j)%nat → dates !! j' ≠ Some d) →
           files !! j = Some p → (256 < String.length p)%nat →
           locs !! i = Some (String.substring 0 256 p))
  ∧ (length files = length dates →
     (∃ r, result (File_Aligner_NoSize files dates date_range) = Ok r)
     ∧ (stat_ok fs dates files date_range →
        ∃ r, result (File_Aligner fs files dates date_range file_size_min)
             = Ok r)).
Proof.
  split_and!.
  - intros locs dts Hrun.
    apply File_Aligner_inv in Hrun as (us & Hus & -> & ->).
    split; [eapply cells_length; [apply aligner_elem_cell | done]|].
    intros i d j p s Hi Hj Huniq Hp Hs Hbig Hlong.
    destruct (slots_lookup _ _ _ _ _ Hus Hi) as (u & Hu & -> & _).
    assert (np_sum (np_eq dates d) = 1%nat) as Hone
      by (apply np_sum_eq_1; eauto).
    rewrite (aligner_elem_one_ok _ _ _ _ _ _ _ _ _ Hu Hone Hj Hp Hs).
    rewrite bool_decide_eq_true_2 by done. cbn [loc_of]. f_equal.
    apply S_store_substring. lia.
  - intros locs dts Hrun.
    apply File_Aligner_NoSize_inv in Hrun as (us & Hus & -> & ->).
    split; [eapply cells_length; [apply nosize_elem_cell | done]|].
    intros i d j p Hi Hj Hfirst Hp Hlong.
    destruct (slots_lookup _ _ _ _ _ Hus Hi) as (u & Hu & -> & _).
    rewrite (nosize_elem_first_ok _ _ _ _ _ _ Hu Hj Hfirst Hp).
    cbn [loc_of]. f_equal. apply S_store_substring. lia.
  - intros Hlen. split.
    + destruct (File_Aligner_NoSize_returns files dates date_range Hlen)
        as (us & _ & ->). by eexists.
    + intros Hok.
      destruct (File_Aligner_returns fs files dates date_range file_size_min
                  Hlen Hok) as (us & _ & ->). by eexists.
Qed.

End Claims.

(** * Concrete runs *)

(** ** The theorems on a concrete catalog *)

Lemma cat_files_wf (fl : list string) :
  Some cat_files = Some fl → length fl = length cat_dates.
Proof. by intros [= <-]. Defined.

Lemma cat_stat_ok : stat_ok disk cat_dates cat_files requested.
Proof. unfold stat_ok. compute_done. Defined.

Lemma cat_dates_only (d : Z) (j j' : nat) :
  cat_dates !! j = Some d → cat_dates !! j' = Some d → j' = j.
Proof.
  intros Hj Hj'.
  destruct j as [|[|[|j]]], j' as [|[|[|j']]]; simplify_eq/=; reflexivity.
Defined.

Lemma file_checker_classifies_witness :
  length cat_files = length cat_dates
  ∧ stat_ok disk cat_dates cat_files requested
  ∧ ∃ out,
      result (file_checker disk cat_dates requested (Some cat_files) 0 1 0 2)
      = Ok out
      ∧ out !! 0%nat = Some 1 ∧ out !! 1%nat = Some 2 ∧ out !! 2%nat = Some 0.
Proof.
  destruct (file_checker_classifies disk cat_dates requested cat_files 0 1 0 2)
    as [Hcls Hret].
  destruct (Hret eq_refl cat_stat_ok) as [out Hout].
  split; [reflexivity|]. split; [exact cat_stat_ok|].
  exists out. split; [exact Hout|]. split_and!.
  - apply (proj2 (Hcls out Hout 0%nat 1 eq_refl) 0%nat "a.txt" 10);
      try reflexivity.
    intros j'. by apply cat_dates_only.
  - apply (proj2 (Hcls out Hout 1%nat 2 eq_refl) 1%nat "empty.txt" 0);
      try reflexivity.
    intros j'. by apply cat_dates_only.
  - apply (proj1 (Hcls out Hout 2%nat 4 eq_refl)). compute_done.
Defined.

Lemma checker_output_length_witness :
  (∀ fl, Some cat_files = Some fl → length fl = length cat_dates)
  ∧ (∀ fl, Some cat_files = Some fl → stat_ok disk cat_dates fl requested)
  ∧ (∃ out, result (file_checker2 disk cat_dates requested (Some cat_files)
                      0 1 0 2) = Ok out
            ∧ length out = length requested)
  ∧ (∃ out, result (file_checker disk cat_dates requested (Some cat_files)
                      0 1 0 2) = Ok out
            ∧ length out = length requested).
Proof.
  assert (∀ fl, Some cat_files = Some fl → stat_ok disk cat_dates fl requested)
    as Hok by (intros fl [= <-]; exact cat_stat_ok).
  destruct (checker_output_length disk cat_dates requested (Some cat_files)
              0 1 0 2) as (Hlen1 & Hlen2 & Hret).
  destruct (Hret cat_files_wf) as ([out2 Hout2] & Hret1).
  destruct (Hret1 Hok) as [out1 Hout1].
  split; [exact cat_files_wf|]. split; [exact Hok|]. split.
  - exists out2. split; [exact Hout2|]. exact (proj1 (Hlen2 out2 Hout2)).
  - exists out1. split; [exact Hout1|]. exact (proj1 (Hlen1 out1 Hout1)).
Defined.

Lemma file_checker2_missing_is_zero_witness :
  (∀ fl, Some cat_files = Some fl → length fl = length cat_dates)
  ∧ ∃ out,
      (∀ no_file',
         result (file_checker2 disk cat_dates requested (Some cat_files)
                   0 1 no_file' 2) = Ok out)
      ∧ ∀ i d, requested !! i = Some d → d ∉ cat_dates → out !! i = Some 0.
Proof.
  split; [exact cat_files_wf|].
  exact (file_checker2_missing_is_zero disk cat_dates requested
           (Some cat_files) 0 1 2 cat_files_wf).
Defined.

Lemma cat_dates_unique (d : Z) (j j' : nat) :
  d ∈ requested →
  cat_dates !! j = Some d → cat_dates !! j' = Some d → j = j'.
Proof.
  intros _ Hj Hj'.
  destruct j as [|[|[|j]]], j' as [|[|[|j']]]; simplify_eq/=; reflexivity.
Defined.

Lemma file_checker_agree_witness :
  length cat_files = length cat_dates
  ∧ stat_ok disk cat_dates cat_files requested
  ∧ (∀ d j j', d ∈ requested →
       cat_dates !! j = Some d → cat_dates !! j' = Some d → j = j')
  ∧ ∃ out,
      result (file_checker disk cat_dates requested (Some cat_files) 0 1 0 2)
      = Ok out
      ∧ result (file_checker2 disk cat_dates requested (Some cat_files)
                  0 1 0 2) = Ok out.
Proof.
  split; [reflexivity|]. split; [exact cat_stat_ok|].
  split; [exact cat_dates_unique|].
  exact (proj1 (file_checker_agree disk cat_dates requested cat_files 0 1 2
                  eq_refl cat_stat_ok cat_dates_unique)).
Defined.

Lemma dup_stat_ok : stat_ok disk dup_dates dup_files dup_requested.
Proof. unfold stat_ok. compute_done. Defined.

Lemma duplicates_first_entry_NoSize_only_witness :
  length dup_files = length dup_dates
  ∧ stat_ok disk dup_dates dup_files dup_requested
  ∧ dup_requested !! 0%nat = Some 1
  ∧ (∃ j j', j ≠ j' ∧ dup_dates !! j = Some 1 ∧ dup_dates !! j' = Some 1)
  ∧ (∃ out,
       result (file_checker disk dup_dates dup_requested (Some dup_files)
                 0 1 0 2) = Ok out
       ∧ out !! 0%nat = Some 0)
  ∧ (∃ locs dts j p,
       File_Aligner_NoSize dup_files dup_dates dup_requested
       = ([], Ok (locs, dts))
       ∧ dup_dates !! j = Some 1
       ∧ (∀ j', (j' < j)%nat → dup_dates !! j' ≠ Some 1)
       ∧ dup_files !! j = Some p
       ∧ locs !! 0%nat = Some (S_store 256 p)
       ∧ dts !! 0%nat = Some 1).
Proof.
  assert (∃ j j', j ≠ j' ∧ dup_dates !! j = Some 1 ∧ dup_dates !! j' = Some 1)
    as Hdup.
  { exists 0%nat, 1%nat. split; [discriminate|]. split; reflexivity. }
  destruct (duplicates_first_entry_NoSize_only disk dup_dates dup_requested
              dup_files 0 1 0 2 0 1 eq_refl dup_stat_ok eq_refl Hdup)
    as (Hchecker & _ & Hnosize & _).
  split; [reflexivity|]. split; [exact dup_stat_ok|].
  split; [reflexivity|]. split; [exact Hdup|].
  split; [exact Hchecker | exact Hnosize].
Defined.

Lemma mismatched_lengths_not_validated_witness :
  length ["a.txt"; "b.txt"] ≠ length [1]
  ∧ file_checker2 disk [1] [2] (Some ["a.txt"; "b.txt"]) 0 1 0 2
    = (["a.txt"; "b.txt"],
       if decide (["a.txt"; "b.txt"] = [])
       then Ok (map (fun d => if bool_decide (d ∈ [1]) then 1 else 0) [2])
       else Raise IndexError)
  ∧ file_checker disk [1] [2] (Some ["a.txt"; "b.txt"]) 0 1 0 2
    = if decide (Exists (fun d => np_sum (np_eq [1] d) = 1%nat) [2])
      then ([], Raise IndexError)
      else ([], Ok (replicate (length [2]) 0)).
Proof.
  assert (length ["a.txt"; "b.txt"] ≠ length [1]) as Hlen by discriminate.
  split; [exact Hlen|].
  exact (mismatched_lengths_not_validated disk [1] [2] ["a.txt"; "b.txt"]
           0 1 0 2 Hlen).
Defined.

Lemma aligner_slots_witness :
  length cat_files = length cat_dates
  ∧ stat_ok disk cat_dates cat_files requested
  ∧ (∃ locs dts,
       result (File_Aligner disk cat_files cat_dates requested 0)
       = Ok (locs, dts)
       ∧ locs !! 1%nat = Some (S_store 256 str_2)
       ∧ dts !! 1%nat = Some 2
       ∧ locs !! 2%nat = Some (S_store 256 EmptyString)
       ∧ dts !! 2%nat = Some 0)
  ∧ (∃ locs dts,
       result (File_Aligner_NoSize cat_files cat_dates requested)
       = Ok (locs, dts)
       ∧ locs !! 1%nat = Some (S_store 256 "empty.txt")
       ∧ dts !! 1%nat = Some 2).
Proof.
  destruct (aligner_slots disk cat_dates requested cat_files 0)
    as (Hal & Hns & _ & Hret).
  destruct (Hret eq_refl) as [[[locs' dts'] Hrun'] Hret'].
  destruct (Hret' cat_stat_ok) as [[locs dts] Hrun].
  split; [reflexivity|]. split; [exact cat_stat_ok|]. split.
  - exists locs, dts. split; [exact Hrun|].
    destruct (proj1 (proj2 (Hal locs dts Hrun 1%nat 2 eq_refl))
                1%nat "empty.txt" 0)
      as [Hl Hd]; try reflexivity.
    { intros j'. by apply cat_dates_only. }
    destruct (proj1 (Hal locs dts Hrun 2%nat 4 eq_refl)) as [Hl' Hd'];
      [compute_done|].
    split_and!; assumption.
  - exists locs', dts'. split; [exact Hrun'|].
    apply (proj2 (proj2 (Hns locs' dts' Hrun') 1%nat 2 eq_refl) 1%nat
             "empty.txt"); try reflexivity.
    intros [|j'] Hj'; [discriminate | lia].
Defined.

Lemma long_stat_ok : stat_ok long_disk [1] [long_path] [1].
Proof. unfold stat_ok. compute_done. Defined.

Lemma aligner_paths_cut_at_256_witness :
  length [long_path] = length [1]
  ∧ stat_ok long_disk [1] [long_path] [1]
  ∧ (256 < String.length long_path)%nat
  ∧ (∃ locs dts,
       result (File_Aligner long_disk [long_path] [1] [1] 0) = Ok (locs, dts)
       ∧ locs !! 0%nat = Some (String.substring 0 256 long_path))
  ∧ (∃ locs dts,
       result (File_Aligner_NoSize [long_path] [1] [1]) = Ok (locs, dts)
       ∧ locs !! 0%nat = Some (String.substring 0 256 long_path)).
Proof.
  assert (256 < String.length long_path)%nat as Hlong by (vm_compute; lia).
  destruct (aligner_paths_cut_at_256 long_disk [1] [1] [long_path] 0)
    as (Hal & Hns & Hret).
  destruct (Hret eq_refl) as [[[locs' dts'] Hrun'] Hret'].
  destruct (Hret' long_stat_ok) as [[locs dts] Hrun].
  split; [reflexivity|]. split; [exact long_stat_ok|]. split; [exact Hlong|].
  split.
  - exists locs, dts. split; [exact Hrun|].
    apply (proj2 (Hal locs dts Hrun) 0%nat 1 0%nat long_path 10);
      try reflexivity; [|exact Hlong].
    intros [|j'] Hj'; [reflexivity | discriminate].
  - exists locs', dts'. split; [exact Hrun'|].
    apply (proj2 (Hns locs' dts' Hrun') 0%nat 1 0%nat long_path);
      try reflexivity; [|exact Hlong].
    intros j' Hj'. lia.
Defined.

(** ** The scenarios of the specification *)

(** Scenario 1: one entry, a file of 10 bytes, two requested days. *)
Example scenario_available_missing :
  file_checker disk [1] [1; 2] (Some ["a.txt"]) 0 1 0 2
  = (["a.txt"], Ok [1; 0])
  ∧ file_checker2 disk [1] [1; 2] (Some ["a.txt"]) 0 1 0 2
    = (["a.txt"], Ok [1; 0]).
Proof. split; vm_compute; reflexivity. Qed.

(** Scenario 2: the file is empty; the size must exceed the threshold. *)
Example scenario_corrupt_missing :
  file_checker disk [1] [1; 2] (Some ["empty.txt"]) 0 1 0 2
  = (["empty.txt"], Ok [2; 0])
  ∧ file_checker2 disk [1] [1; 2] (Some ["empty.txt"]) 0 1 0 2
    = (["empty.txt"], Ok [2; 0]).
Proof. split; vm_compute; reflexivity. Qed.

(** Scenario 4: the file is not on disk; only [file_checker2] reports it
    as corrupt. *)
Example scenario_absent_file :
  file_checker2 disk [1] [1; 2] (Some ["gone.txt"]) 0 1 0 2
  = (["gone.txt"], Ok [2; 0])
  ∧ file_checker disk [1] [1; 2] (Some ["gone.txt"]) 0 1 0 2
    = (["gone.txt"], Raise OSError).
Proof. split; vm_compute; reflexivity. Qed.

(** Reading the cells back: the empty default and the flag. *)
Example S_item_cells :
  S_item (S_store 256 EmptyString) = EmptyString
  ∧ S_item (S_store 256 str_2) = "2"
  ∧ S_item (S_store 256 "a.txt") = "a.txt".
Proof. repeat split; vm_compute; reflexivity. Qed.

(** ** Where the code departs from the specification *)

(** C2.  [file_checker] stats without a handler: on a catalog whose first
    file is not on disk it raises [OSError] at that file and classifies
    nothing, where [file_checker2] reports [corrupt_file] and goes on. *)
Theorem file_checker_propagates_OSError :
  disk "gone.txt" = None
  ∧ file_checker disk [1; 2] [1; 2] (Some ["gone.txt"; "a.txt"]) 0 1 0 2
    = (["gone.txt"], Raise OSError)
  ∧ file_checker2 disk [1; 2] [1; 2] (Some ["gone.txt"; "a.txt"]) 0 1 0 2
    = (["gone.txt"; "a.txt"], Ok [2; 1]).
Proof. repeat split; vm_compute; reflexivity. Qed.

(** C3 fails as stated: with two entries on day 1, the first of which has
    a file of 10 bytes, [file_checker] reports [no_file] and [File_Aligner]
    leaves the defaults, where the first entry gives [yes_file] and the
    path of that file. *)
Lemma duplicates_counterexample :
  map (spec_first_entry_code disk [1; 1] ["a.txt"; "b.txt"] 0 1 0 2) [1] = [1]
  ∧ result (file_checker disk [1; 1] [1] (Some ["a.txt"; "b.txt"]) 0 1 0 2)
    = Ok [0]
  ∧ result (file_checker disk [1; 1] [1] (Some ["a.txt"; "b.txt"]) 0 1 0 2)
    ≠ Ok (map (spec_first_entry_code disk [1; 1] ["a.txt"; "b.txt"] 0 1 0 2)
            [1])
  ∧ result (File_Aligner disk ["a.txt"; "b.txt"] [1; 1] [1] 0)
    = Ok ([S_store 256 EmptyString], [0]).
Proof. repeat split; vm_compute; (reflexivity || discriminate). Qed.

(** C4 fails as stated: the two functions differ on a timestamp with two
    entries, on a file that is not on disk, and on a catalog with more
    files than timestamps. *)
Lemma file_checker_agree_counterexample :
  result (file_checker disk [1; 1] [1] (Some ["a.txt"; "b.txt"]) 0 1 0 2)
  ≠ result (file_checker2 disk [1; 1] [1] (Some ["a.txt"; "b.txt"]) 0 1 0 2)
  ∧ result (file_checker disk [1] [1] (Some ["gone.txt"]) 0 1 0 2)
    ≠ result (file_checker2 disk [1] [1] (Some ["gone.txt"]) 0 1 0 2)
  ∧ result (file_checker disk [1] [2] (Some ["a.txt"; "b.txt"]) 0 1 0 2)
    = Ok [0]
  ∧ result (file_checker2 disk [1] [2] (Some ["a.txt"; "b.txt"]) 0 1 0 2)
    = Raise IndexError.
Proof.
  split_and!; [vm_compute; discriminate..|vm_compute; reflexivity
              |vm_compute; reflexivity].
Qed.

(** C5 fails as stated: with one timestamp and no file, [file_checker]
    and [file_checker2] return a result; with one timestamp and two files,
    [file_checker2] has queried both files when it raises. *)
Lemma mismatched_lengths_counterexample :
  file_checker disk [1] [2] (Some []) 0 1 0 2 = ([], Ok [0])
  ∧ file_checker2 disk [1] [1; 2] (Some []) 0 1 0 2 = ([], Ok [1; 0])
  ∧ file_checker2 disk [1] [1] (Some ["a.txt"; "b.txt"]) 0 1 0 2
    = (["a.txt"; "b.txt"], Raise IndexError).
Proof. repeat split; vm_compute; reflexivity. Qed.

(** C6.  The shortcut of [file_checker] writes 1 and 0 and [file_checker2]
    leaves 0 for a timestamp without entry, whatever codes are passed: with
    the codes 5, 6 and 7 neither output consists of these codes. *)
Theorem codes_not_configurable :
  file_checker disk [1] [1; 2] None 0 5 6 7 = ([], Ok [1; 0])
  ∧ file_checker2 disk [1] [1; 2] None 0 5 6 7 = ([], Ok [5; 0])
  ∧ file_checker2 disk [1] [1; 2] (Some ["a.txt"]) 0 5 6 7
    = (["a.txt"], Ok [5; 0])
  ∧ file_checker disk [1] [1; 2] (Some ["a.txt"]) 0 5 6 7
    = (["a.txt"], Ok [5; 6]).
Proof. repeat split; vm_compute; reflexivity. Qed.

(** C8 fails as stated: the flag in the path slot is the path of the file
    named ["2"], and the flag in the timestamp slot is the timestamp 2.
    The path slot of a timestamp whose file is empty equals the path slot
    of a timestamp whose file is ["2"], of 10 bytes; with day 2 for the
    timestamp the two runs return the same arrays. *)
Lemma aligner_flag_counterexample :
  disk "2" = Some 10 ∧ disk "empty.txt" = Some 0
  ∧ result (File_Aligner disk ["2"] [1] [1] 0)
    = Ok ([S_store 256 "2"], [1])
  ∧ result (File_Aligner disk ["empty.txt"] [1] [1] 0)
    = Ok ([S_store 256 "2"], [2])
  ∧ result (File_Aligner disk ["2"] [2] [2] 0)
    = Ok ([S_store 256 "2"], [2])
  ∧ result (File_Aligner disk ["empty.txt"] [2] [2] 0)
    = Ok ([S_store 256 "2"], [2]).
Proof. repeat split; vm_compute; reflexivity. Qed.

(** * Further properties of the checkers and the aligners *)

Lemma collect_app {A B : Type} (f : A → Run B) (xs ys : list A) :
  collect f (xs ++ ys)
  = (us <- collect f xs ;; vs <- collect f ys ;; ret (us ++ vs)).
Proof.
  induction xs as [|x xs IH]; cbn [collect app].
  - rewrite bind_ret_l. rewrite <- (bind_ret_r (collect f ys)) at 1.
    by apply bind_ext_ok.
  - rewrite IH, !bind_assoc. apply bind_ext_ok. intros u _.
    rewrite !bind_assoc. apply bind_ext_ok. intros us _.
    rewrite bind_ret_l, bind_assoc. apply bind_ext_ok. intros vs _.
    by rewrite bind_ret_l.
Qed.

Lemma collect_raise_inv {A B : Type} (f : A → Run B) (xs : list A) (e : exn) :
  result (collect f xs) = Raise e → ∃ x, x ∈ xs ∧ result (f x) = Raise e.
Proof.
  induction xs as [|x xs IH]; cbn [collect]; [done|].
  destruct (f x) as [tr [y|e']] eqn:Hx; simpl.
  - destruct (collect f xs) as [tr' [ys|e']]; simpl; [done|].
    intros [= ->]. destruct IH as (x' & Hin & Hres); [done|].
    exists x'. split; [by right | done].
  - intros [= ->]. exists x. split; [by left | by rewrite Hx].
Qed.

Lemma collect_trace_elem {A B : Type} (f : A → Run B) (xs : list A)
    (p : string) :
  p ∈ trace (collect f xs) → ∃ x, x ∈ xs ∧ p ∈ trace (f x).
Proof.
  induction xs as [|x xs IH]; cbn [collect]; [by intros ?%elem_of_nil|].
  destruct (f x) as [tr [y|e']] eqn:Hx; simpl.
  - destruct (collect f xs) as [tr' [ys|e']]; simpl in *;
      rewrite ?app_nil_r; intros [Hp|Hp]%elem_of_app.
    + exists x. split; [by left | by rewrite Hx].
    + destruct (IH Hp) as (x' & Hin & Hx'). exists x'. split; [by right|done].
    + exists x. split; [by left | by rewrite Hx].
    + destruct (IH Hp) as (x' & Hin & Hx'). exists x'. split; [by right|done].
  - intros Hp. exists x. split; [by left | by rewrite Hx].
Qed.

Lemma collect_trace_ok {A B : Type} (f : A → Run B) (xs : list A)
    (ys : list B) (x : A) (p : string) :
  result (collect f xs) = Ok ys → x ∈ xs → p ∈ trace (f x) →
  p ∈ trace (collect f xs).
Proof.
  revert ys. induction xs as [|x' xs IH]; intros ys; cbn [collect];
    [by intros _ ?%elem_of_nil|].
  destruct (f x') as [tr [y|e']] eqn:Hx; simpl; [|done].
  destruct (collect f xs) as [tr' [ys'|e']] eqn:Hxs; simpl in *; [|done].
  intros _ [->|Hin]%elem_of_cons Hp; rewrite app_nil_r; apply elem_of_app.
  - left. by rewrite Hx in Hp.
  - right. by eapply IH.
Qed.

Lemma collect_trace_length {A B : Type} (f : A → Run B) (xs : list A) :
  (∀ x, length (trace (f x)) ≤ 1)%nat →
  (length (trace (collect f xs)) ≤ length xs)%nat.
Proof.
  intros Hf. induction xs as [|x xs IH]; cbn [collect]; [done|].
  specialize (Hf x).
  destruct (f x) as [tr [y|e']]; simpl in *; [|lia].
  destruct (collect f xs) as [tr' [ys'|e']]; simpl in *;
    rewrite ?app_nil_r, length_app; lia.
Qed.

Section Further.

Context {T : Type} `{EqDecision T} `{PyInts T}.
Variable fs : string → option Z.
Implicit Types (dates date_range : list T) (d : T) (files : list string).

Lemma checker_elem_cases dates files m y n c d :
  length files = length dates →
  (np_sum (np_eq dates d) ≠ 1%nat
   ∧ checker_elem fs dates files m y n c d = ret n)
  ∨ (∃ j p, dates !! j = Some d ∧ (∀ j', dates !! j' = Some d → j' = j)
            ∧ files !! j = Some p
            ∧ checker_elem fs dates files m y n c d
              = ([p], match fs p with
                      | Some s => Ok (if bool_decide (m < s) then y else c)
                      | None => Raise OSError
                      end)).
Proof.
  intros Hlen.
  destruct (decide (np_sum (np_eq dates d) = 1%nat)) as [Hone|Hne].
  - right. apply np_sum_eq_1 in Hone as Huniq.
    destruct Huniq as (j & Hj & Huniq).
    destruct (lookup_lt_is_Some_2 files j) as [p Hp].
    { rewrite Hlen. by eapply lookup_lt_Some. }
    exists j, p. repeat split; try done. by eapply checker_elem_one.
  - left. split; [done|]. by apply checker_elem_other.
Qed.

(** X1.  On a well-formed catalog [file_checker] returns exactly when the
    file of every requested timestamp with exactly one entry can be
    stat'ed, and its only other outcome is [OSError]. *)
Theorem file_checker_outcome dates date_range files (m y n c : Z) :
  length files = length dates →
  ((∃ out, result (file_checker fs dates date_range (Some files) m y n c)
           = Ok out)
   ↔ ∀ d j p, d ∈ date_range →
       dates !! j = Some d → (∀ j', dates !! j' = Some d → j' = j) →
       files !! j = Some p → is_Some (fs p))
  ∧ ((∃ d j p, d ∈ date_range ∧ dates !! j = Some d
               ∧ (∀ j', dates !! j' = Some d → j' = j)
               ∧ files !! j = Some p ∧ fs p = None) →
     result (file_checker fs dates date_range (Some files) m y n c)
     = Raise OSError).
Proof.
  intros Hlen. rewrite file_checker_collect.
  assert (∀ out,
    result (collect (checker_elem fs dates files m y n c) date_range) = Ok out →
    ∀ d j p, d ∈ date_range →
      dates !! j = Some d → (∀ j', dates !! j' = Some d → j' = j) →
      files !! j = Some p → is_Some (fs p)) as Hfwd.
  { intros out Hout d j p Hd Hj Huniq Hp.
    apply collect_Forall2 in Hout.
    apply list_elem_of_lookup_1 in Hd as [i Hi].
    destruct (Forall2_lookup_l _ _ _ _ _ Hout Hi) as (v & _ & Hres).
    assert (np_sum (np_eq dates d) = 1%nat) as Hone
      by (apply np_sum_eq_1; eauto).
    rewrite (checker_elem_one _ _ _ _ _ _ _ _ _ _ Hlen Hone Hj Hp) in Hres.
    destruct (fs p); [by eexists | done]. }
  split; [split|].
  - intros [out Hout]. by eapply Hfwd.
  - intros Hall. apply collect_total, Forall_forall. intros d Hd.
    destruct (checker_elem_cases dates files m y n c d Hlen)
      as [[_ ->]|(j & p & Hj & Huniq & Hp & ->)]; [by eexists|].
    destruct (Hall d j p Hd Hj Huniq Hp) as [s ->]. by eexists.
  - intros (d & j & p & Hd & Hj & Huniq & Hp & Hfs).
    destruct (result (collect (checker_elem fs dates files m y n c) date_range))
      as [out|e] eqn:Hres.
    + destruct (Hfwd out eq_refl d j p Hd Hj Huniq Hp) as [s Hs]. congruence.
    + apply collect_raise_inv in Hres as (d' & _ & Hres).
      destruct (checker_elem_cases dates files m y n c d' Hlen)
        as [[_ Heq]|(j' & p' & _ & _ & _ & Heq)]; rewrite Heq in Hres;
        [done|].
      simpl in Hres. destruct (fs p'); by simplify_eq.
Qed.

(** X2.  [file_checker] stats at most one file per requested timestamp,
    and only the file of the single entry of a requested timestamp: never
    a file whose timestamp is not requested or has several entries.  When
    it returns, it has stat'ed each of these files. *)
Theorem file_checker_stats dates date_range files (m y n c : Z) :
  (length (trace (file_checker fs dates date_range (Some files) m y n c))
   ≤ length date_range)%nat
  ∧ (∀ p, p ∈ trace (file_checker fs dates date_range (Some files) m y n c) →
       ∃ d j, d ∈ date_range ∧ dates !! j = Some d
              ∧ (∀ j', dates !! j' = Some d → j' = j) ∧ files !! j = Some p)
  ∧ (∀ out,
       result (file_checker fs dates date_range (Some files) m y n c) = Ok out →
       ∀ d j p, d ∈ date_range → dates !! j = Some d →
         (∀ j', dates !! j' = Some d → j' = j) → files !! j = Some p →
         p ∈ trace (file_checker fs dates date_range (Some files) m y n c)).
Proof.
  rewrite file_checker_collect.
  destruct (decide (length files = length dates)) as [Hlen|Hlen].
  - split_and!.
    + apply collect_trace_length. intros d.
      destruct (checker_elem_cases dates files m y n c d Hlen)
        as [[_ ->]|(j & p & _ & _ & _ & ->)]; simpl; lia.
    + intros p (d & Hd & Hp)%collect_trace_elem.
      destruct (checker_elem_cases dates files m y n c d Hlen)
        as [[_ Heq]|(j & p' & Hj & Huniq & Hp' & Heq)]; rewrite Heq in Hp.
      * by apply elem_of_nil in Hp.
      * apply list_elem_of_singleton in Hp as ->. eauto 10.
    + intros out Hout d j p Hd Hj Huniq Hp.
      apply (collect_trace_ok _ _ _ d _ Hout Hd).
      assert (np_sum (np_eq dates d) = 1%nat) as Hone
        by (apply np_sum_eq_1; eauto).
      rewrite (checker_elem_one _ _ _ _ _ _ _ _ _ _ Hlen Hone Hj Hp).
      simpl. by left.
  - rewrite (collect_ext _ _ _ (fun d => checker_elem_mismatch fs dates files
                                            m y n c d Hlen)).
    rewrite collect_raise_or_ret.
    split_and!.
    + case_decide; simpl; lia.
    + intros p Hp. case_decide; by apply elem_of_nil in Hp.
    + intros out Hout d j p Hd Hj Huniq Hp.
      rewrite decide_True in Hout; [done|].
      apply Exists_exists. exists d. split; [done|].
      apply np_sum_eq_1. eauto.
Qed.

(** X3.  With the files supplied, [file_checker2] stats every file of the
    catalog once, in catalog order, whatever is requested; it returns
    exactly when [files] is empty or as long as [dates], and otherwise
    raises [IndexError], after the stats.  With an empty [files] it
    returns what it returns without the files, whatever [dates] is.
    Without the files it stats nothing and always returns. *)
Theorem file_checker2_outcome dates date_range files (m y n c : Z) :
  trace (file_checker2 fs dates date_range (Some files) m y n c) = files
  ∧ (files = [] ∨ length files = length dates
     ↔ ∃ out, result (file_checker2 fs dates date_range (Some files) m y n c)
              = Ok out)
  ∧ (files ≠ [] ∧ length files ≠ length dates
     ↔ result (file_checker2 fs dates date_range (Some files) m y n c)
       = Raise IndexError)
  ∧ file_checker2 fs dates date_range (Some []) m y n c
    = file_checker2 fs dates date_range None m y n c
  ∧ trace (file_checker2 fs dates date_range None m y n c) = []
  ∧ ∃ out, result (file_checker2 fs dates date_range None m y n c) = Ok out.
Proof.
  rewrite !file_checker2_files, file_checker2_None. simpl.
  assert (files = [] ↔ length files = 0%nat) as Hnil
    by (split; [by intros -> | apply nil_length_inv]).
  split_and!; [done| | | |done|by eexists].
  - case_decide; split.
    + by eexists.
    + tauto.
    + tauto.
    + by intros [? ?].
  - case_decide; split; try done; tauto.
  - unfold ret. do 2 f_equal.
    apply map_ext. intros d. unfold checker2_code, small_dates. simpl.
    rewrite bool_decide_eq_false_2; [done|].
    destruct dates; apply not_elem_of_nil.
Qed.

(** X4.  With a threshold of at least 0 and a well-formed catalog,
    [file_checker2] reports a requested timestamp as [corrupt_file] as soon
    as one entry at the timestamp has a file that cannot be stat'ed or has
    at most [file_size_min] bytes, as [yes_file] when the timestamp has
    entries and every one has a file of more than [file_size_min] bytes,
    and as 0 when it has no entry. *)
Theorem file_checker2_classifies dates date_range files (m y n c : Z) :
  length files = length dates → 0 ≤ m →
  ∃ out,
    result (file_checker2 fs dates date_range (Some files) m y n c) = Ok out
    ∧ ∀ i d, date_range !! i = Some d →
        ((∃ j p, dates !! j = Some d ∧ files !! j = Some p
                 ∧ (fs p = None ∨ ∃ s, fs p = Some s ∧ s ≤ m)) →
         out !! i = Some c)
        ∧ (d ∈ dates →
           (∀ j p, dates !! j = Some d → files !! j = Some p →
                   ∃ s, fs p = Some s ∧ m < s) →
           out !! i = Some y)
        ∧ (d ∉ dates → out !! i = Some 0).
Proof.
  intros Hlen Hm. eexists.
  rewrite file_checker2_files, decide_True by auto. split; [done|].
  intros i d Hi. rewrite list_lookup_fmap, Hi. simpl. unfold checker2_code.
  split_and!.
  - intros (j & p & Hj & Hp & Hsmall).
    rewrite bool_decide_eq_true_2; [done|].
    apply elem_of_small_dates. exists j, p. repeat split; try done.
    unfold size_or_0. destruct Hsmall as [->|(s & -> & Hs)]; lia.
  - intros Hin Hbig.
    rewrite bool_decide_eq_false_2, bool_decide_eq_true_2; [done..|].
    rewrite elem_of_small_dates. intros (j & p & Hj & Hp & Hsz).
    destruct (Hbig j p Hj Hp) as (s & Hs & Hlt).
    unfold size_or_0 in Hsz. rewrite Hs in Hsz. lia.
  - intros Hnin.
    rewrite bool_decide_eq_false_2, bool_decide_eq_false_2; [done..|].
    rewrite elem_of_small_dates. intros (j & p & Hj & _).
    by apply list_elem_of_lookup_2 in Hj.
Qed.

(** X5.  With a negative threshold the files make no difference to
    [file_checker2]: sizes being at least 0, nothing is reported as
    [corrupt_file], and a timestamp whose file cannot be stat'ed is
    reported as [yes_file], as if no files had been given. *)
Theorem file_checker2_negative_threshold dates date_range files (m y n c : Z) :
  length files = length dates → m < 0 →
  (∀ p s, fs p = Some s → 0 ≤ s) →
  result (file_checker2 fs dates date_range (Some files) m y n c)
  = result (file_checker2 fs dates date_range None m y n c)
  ∧ ∃ out,
      result (file_checker2 fs dates date_range (Some files) m y n c) = Ok out
      ∧ ∀ i d, date_range !! i = Some d → d ∈ dates → out !! i = Some y.
Proof.
  intros Hlen Hm Hpos.
  rewrite file_checker2_files, file_checker2_None, decide_True by auto.
  assert (∀ d, checker2_code fs dates files m y c d
               = if bool_decide (d ∈ dates) then y else 0) as Hcode.
  { intros d. unfold checker2_code.
    rewrite bool_decide_eq_false_2; [done|].
    rewrite elem_of_small_dates. intros (j & p & _ & _ & Hsz).
    unfold size_or_0 in Hsz. destruct (fs p) as [s|] eqn:Hs; [|lia].
    apply Hpos in Hs. lia. }
  split.
  - simpl. f_equal. by apply map_ext.
  - eexists. split; [done|]. intros i d Hi Hin.
    rewrite list_lookup_fmap, Hi. simpl.
    by rewrite Hcode, bool_decide_eq_true_2.
Qed.

(** X6.  The shortcut of [file_checker] without files is right for the
    default codes exactly on healthy catalogs: when every requested
    timestamp has at most one entry and every such entry has a file of more
    than [file_size_min] bytes, the run with the files returns what the
    run without them returns.  A requested timestamp with several entries
    is 1 without the files and [no_file] with them. *)
Theorem file_checker_shortcut dates date_range files (m c : Z) :
  length files = length dates →
  (∀ d j j', d ∈ date_range →
     dates !! j = Some d → dates !! j' = Some d → j = j') →
  (∀ d j p, d ∈ date_range → dates !! j = Some d → files !! j = Some p →
     ∃ s, fs p = Some s ∧ m < s) →
  result (file_checker fs dates date_range (Some files) m 1 0 c)
  = result (file_checker fs dates date_range None m 1 0 c).
Proof.
  intros Hlen Huniq Hbig.
  rewrite file_checker_None, file_checker_collect. simpl.
  apply collect_Forall2.
  apply Forall2_fmap_r, Forall_Forall2_diag, Forall_forall. intros d Hd.
  unfold compose. cbn beta.
  destruct (checker_elem_cases dates files m 1 0 c d Hlen)
    as [[Hne ->]|(j & p & Hj & _ & Hp & ->)].
  - rewrite bool_decide_eq_false_2; [done|]. intros Hin.
    apply Hne, np_sum_eq_1.
    apply list_elem_of_lookup_1 in Hin as [j Hj]. exists j.
    split; [done|]. intros j' Hj'. by apply (Huniq d).
  - destruct (Hbig d j p Hd Hj Hp) as (s & -> & Hlt). simpl.
    rewrite bool_decide_eq_true_2 by done.
    rewrite bool_decide_eq_true_2; [done|]. by eapply list_elem_of_lookup_2.
Qed.

(** X7.  A requested timestamp with two or more entries in the catalog is
    reported as 1 by the shortcut of [file_checker] and as [no_file] by
    the run with the files, whatever the files are. *)
Theorem file_checker_shortcut_duplicates dates date_range files (m y n c : Z)
    (i j j' : nat) d :
  date_range !! i = Some d →
  j ≠ j' → dates !! j = Some d → dates !! j' = Some d →
  (∃ out, result (file_checker fs dates date_range None m y n c) = Ok out
          ∧ out !! i = Some 1)
  ∧ ∀ out, result (file_checker fs dates date_range (Some files) m y n c)
           = Ok out →
           out !! i = Some n.
Proof.
  intros Hi Hne Hj Hj'. split.
  - rewrite file_checker_None. eexists. split; [done|].
    rewrite list_lookup_fmap, Hi. simpl.
    rewrite bool_decide_eq_true_2; [done|]. by eapply list_elem_of_lookup_2.
  - intros out Hout.
    rewrite file_checker_collect in Hout. apply collect_Forall2 in Hout.
    destruct (Forall2_lookup_l _ _ _ _ _ Hout Hi) as (v & Hv & Hres).
    rewrite checker_elem_other in Hres; [by simplify_eq/=|].
    intros Hone. apply Hne.
    apply (np_sum_eq_le_1_inj dates d); [lia|done..].
Qed.

Lemma S_item_store (w : nat) (p : string) :
  (String.length p ≤ w)%nat → S_item (S_store w p) = S_item p.
Proof.
  revert p. induction w as [|w IH]; intros [|c p] Hlen; simpl in Hlen;
    try lia; try done.
  - clear Hlen. change (S_store (S w) EmptyString)
      with (String NUL (S_store w EmptyString)).
    cbn [S_item]. rewrite IH by (simpl; lia). done.
  - change (S_store (S w) (String c p)) with (String c (S_store w p)).
    cbn [S_item]. rewrite IH by lia. done.
Qed.

Lemma unique_is_first dates d j :
  dates !! j = Some d → (∀ j', dates !! j' = Some d → j' = j) →
  ∀ j', (j' < j)%nat → dates !! j' ≠ Some d.
Proof. intros Hj Huniq j' Hlt Hj'. apply Huniq in Hj'. lia. Qed.

(** X8.  The two arrays an aligner returns have one slot per requested
    timestamp, and a timestamp slot holds nothing but the default 0, the
    flag 2 (in [File_Aligner] only) or the requested timestamp of its own
    index. *)
Theorem aligner_shape dates date_range files (m : Z) :
  (∀ locs dts,
     result (File_Aligner fs files dates date_range m) = Ok (locs, dts) →
     length locs = length date_range ∧ length dts = length date_range
     ∧ ∀ i d, date_range !! i = Some d →
         dts !! i = Some (py_int 0) ∨ dts !! i = Some (py_int 2)
         ∨ dts !! i = Some d)
  ∧ (∀ locs dts,
       result (File_Aligner_NoSize files dates date_range) = Ok (locs, dts) →
       length locs = length date_range ∧ length dts = length date_range
       ∧ ∀ i d, date_range !! i = Some d →
           dts !! i = Some (py_int 0) ∨ dts !! i = Some d).
Proof.
  split.
  - intros locs dts Hrun.
    apply File_Aligner_inv in Hrun as (us & Hus & -> & ->).
    apply Forall2_length in Hus as Hlen. rewrite !length_map.
    split_and!; [done..|]. intros i d Hi.
    destruct (slots_lookup _ _ _ _ _ Hus Hi) as (u & Hu & _ & ->).
    destruct (decide (np_sum (np_eq dates d) = 1%nat)) as [Hone|Hne].
    + apply np_sum_eq_1 in Hone as Huniq. destruct Huniq as (j & Hj & Huniq).
      destruct (decide (length files = length dates)) as [Hl|Hl].
      * destruct (lookup_lt_is_Some_2 files j) as [p Hp].
        { rewrite Hl. by eapply lookup_lt_Some. }
        rewrite (aligner_elem_one _ _ _ _ _ _ _ Hl Hone Hj Hp) in Hu.
        simpl in Hu. destruct (fs p); [|done]. injection Hu as <-.
        case_bool_decide; simpl; auto.
      * unfold aligner_elem in Hu. rewrite decide_True in Hu by done.
        rewrite np_getmask_mismatch in Hu;
          [done| |by rewrite np_eq_length].
        apply np_eq_nonempty. lia.
    + rewrite aligner_elem_other in Hu by done. injection Hu as <-. auto.
  - intros locs dts Hrun.
    apply File_Aligner_NoSize_inv in Hrun as (us & Hus & -> & ->).
    apply Forall2_length in Hus as Hlen. rewrite !length_map.
    split_and!; [done..|]. intros i d Hi.
    destruct (slots_lookup _ _ _ _ _ Hus Hi) as (u & Hu & _ & ->).
    destruct (decide (d ∈ dates)) as [Hin|Hnin].
    + apply list_elem_of_lookup_1 in Hin as Hj.
      destruct (decide (length files = length dates)) as [Hl|Hl].
      * destruct (np_select_first files dates d Hl Hin)
          as (j & p & Hj' & Hfirst & Hp & _).
        rewrite (nosize_elem_first _ _ _ _ _ Hl Hj' Hfirst Hp) in Hu.
        injection Hu as <-. auto.
      * assert (1 ≤ np_sum (np_eq dates d))%nat as Hpos
          by (by apply np_sum_eq_pos).
        unfold nosize_elem in Hu. rewrite decide_True in Hu by done.
        rewrite np_getmask_mismatch in Hu;
          [done| |by rewrite np_eq_length].
        by apply np_eq_nonempty.
    + rewrite nosize_elem_none in Hu by done. injection Hu as <-. auto.
Qed.

(** X9.  In what [File_Aligner] returns, a requested timestamp whose only
    entry has a file of more than [file_size_min] bytes has its own
    timestamp in the timestamp slot and the path of that file in the path
    slot; in what [File_Aligner_NoSize] returns, so has a timestamp with an
    entry, for the first one.  Reading the cell gives the path back when
    the path has at most 256 bytes and does not end in a NUL byte. *)
Theorem aligner_matched_slots dates date_range files (m : Z) :
  (∀ locs dts,
     result (File_Aligner fs files dates date_range m) = Ok (locs, dts) →
     ∀ i d j p s,
       date_range !! i = Some d →
       dates !! j = Some d → (∀ j', dates !! j' = Some d → j' = j) →
       files !! j = Some p → fs p = Some s → m < s →
       dts !! i = Some d
       ∧ ∃ cell, locs !! i = Some cell
                 ∧ ((String.length p ≤ 256)%nat → S_item p = p →
                    S_item cell = p))
  ∧ (∀ locs dts,
       result (File_Aligner_NoSize files dates date_range) = Ok (locs, dts) →
       ∀ i d j p,
         date_range !! i = Some d →
         dates !! j = Some d → (∀ j', (j' < j)%nat → dates !! j' ≠ Some d) →
         files !! j = Some p →
         dts !! i = Some d
         ∧ ∃ cell, locs !! i = Some cell
                   ∧ ((String.length p ≤ 256)%nat → S_item p = p →
                      S_item cell = p)).
Proof.
  split.
  - intros locs dts Hrun i d j p s Hi Hj Huniq Hp Hs Hbig.
    apply File_Aligner_inv in Hrun as (us & Hus & -> & ->).
    destruct (slots_lookup _ _ _ _ _ Hus Hi) as (u & Hu & -> & ->).
    assert (np_sum (np_eq dates d) = 1%nat) as Hone
      by (apply np_sum_eq_1; eauto).
    rewrite (aligner_elem_one_ok _ _ _ _ _ _ _ _ _ Hu Hone Hj Hp Hs).
    rewrite bool_decide_eq_true_2 by done. cbn [loc_of date_of].
    split; [done|]. eexists. split; [done|].
    intros Hlen Hnul. by rewrite S_item_store.
  - intros locs dts Hrun i d j p Hi Hj Hfirst Hp.
    apply File_Aligner_NoSize_inv in Hrun as (us & Hus & -> & ->).
    destruct (slots_lookup _ _ _ _ _ Hus Hi) as (u & Hu & -> & ->).
    rewrite (nosize_elem_first_ok _ _ _ _ _ _ Hu Hj Hfirst Hp).
    cbn [loc_of date_of]. split; [done|]. eexists. split; [done|].
    intros Hlen Hnul. by rewrite S_item_store.
Qed.

Lemma collect_result_ext {A B : Type} (f g : A → Run B) (xs : list A) :
  (∀ x, x ∈ xs → result (f x) = result (g x)) →
  result (collect f xs) = result (collect g xs).
Proof.
  induction xs as [|x xs IH]; intros Hfg; cbn [collect]; [done|].
  pose proof (Hfg x (list_elem_of_here _ _)) as Hx.
  assert (result (collect f xs) = result (collect g xs)) as Hxs.
  { apply IH. intros x' Hin. apply Hfg. by right. }
  destruct (f x) as [tr [y|e]], (g x) as [tr' [y'|e']]; simpl in *;
    simplify_eq; [|done].
  destruct (collect f xs) as [tr1 [ys|e]], (collect g xs) as [tr2 [ys'|e']];
    simpl in *; by simplify_eq.
Qed.

(** X10.  On a well-formed catalog in which every requested timestamp has
    at most one entry and every such entry has a file of more than
    [file_size_min] bytes, [File_Aligner] returns what [File_Aligner_NoSize]
    returns. *)
Theorem aligners_agree dates date_range files (m : Z) :
  length files = length dates →
  (∀ d j j', d ∈ date_range →
     dates !! j = Some d → dates !! j' = Some d → j = j') →
  (∀ d j p, d ∈ date_range → dates !! j = Some d → files !! j = Some p →
     ∃ s, fs p = Some s ∧ m < s) →
  result (File_Aligner fs files dates date_range m)
  = result (File_Aligner_NoSize files dates date_range)
  ∧ ∃ r, result (File_Aligner fs files dates date_range m) = Ok r.
Proof.
  intros Hlen Huniq Hbig.
  assert (∀ d, d ∈ date_range →
            result (aligner_elem fs dates files m d)
            = result (nosize_elem dates files d)) as Helem.
  { intros d Hd. destruct (decide (d ∈ dates)) as [Hin|Hnin].
    - apply list_elem_of_lookup_1 in Hin as [j Hj].
      assert (∀ j', dates !! j' = Some d → j' = j) as Honly
        by (intros j' Hj'; by apply (Huniq d)).
      assert (np_sum (np_eq dates d) = 1%nat) as Hone
        by (apply np_sum_eq_1; eauto).
      destruct (lookup_lt_is_Some_2 files j) as [p Hp].
      { rewrite Hlen. by eapply lookup_lt_Some. }
      destruct (Hbig d j p Hd Hj Hp) as (s & Hs & Hlt).
      rewrite (aligner_elem_one _ _ _ _ _ _ _ Hlen Hone Hj Hp), Hs.
      rewrite (nosize_elem_first _ _ _ _ _ Hlen Hj
                 (unique_is_first _ _ _ Hj Honly) Hp).
      simpl. by rewrite bool_decide_eq_true_2.
    - rewrite nosize_elem_none by done.
      rewrite aligner_elem_other; [done|].
      apply np_sum_eq_0 in Hnin. lia. }
  assert (result (File_Aligner fs files dates date_range m)
          = result (File_Aligner_NoSize files dates date_range)) as Heq.
  { rewrite File_Aligner_collect, File_Aligner_NoSize_collect.
    pose proof (collect_result_ext _ _ _ Helem) as Hc.
    destruct (collect (aligner_elem fs dates files m) date_range)
      as [tr [us|e]],
      (collect (nosize_elem dates files) date_range) as [tr' [us'|e']];
      simpl in *; by simplify_eq. }
  split; [done|]. rewrite Heq.
  destruct (File_Aligner_NoSize_returns files dates date_range Hlen)
    as (us & _ & ->). by eexists.
Qed.

Lemma np_sum_Permutation (m m' : list bool) :
  m ≡ₚ m' → np_sum m = np_sum m'.
Proof.
  induction 1 as [|b m m' _ IH|b b' m|m m' m'' _ IH _ IH']; simpl;
    [done|by rewrite IH| |congruence].
  destruct b, b'; lia.
Qed.

Lemma np_sum_eq_Permutation dates dates' d :
  dates ≡ₚ dates' → np_sum (np_eq dates d) = np_sum (np_eq dates' d).
Proof. intros Hp. apply np_sum_Permutation. unfold np_eq. by rewrite Hp. Qed.

Lemma catalog_lookup (cat : list (T * string)) j d p :
  cat !! j = Some (d, p) ↔ cat.*1 !! j = Some d ∧ cat.*2 !! j = Some p.
Proof.
  rewrite !list_lookup_fmap. destruct (cat !! j) as [[d' p']|]; simpl.
  - split; [by intros [= -> ->] | by intros [[= ->] [= ->]]].
  - split; [done | by intros [? _]].
Qed.

Lemma catalog_entry_Permutation (cat cat' : list (T * string)) j d p :
  cat ≡ₚ cat' → cat.*1 !! j = Some d → cat.*2 !! j = Some p →
  ∃ j', cat'.*1 !! j' = Some d ∧ cat'.*2 !! j' = Some p.
Proof.
  intros Hperm Hj Hp.
  assert ((d, p) ∈ cat') as Hin.
  { rewrite <- Hperm. apply list_elem_of_lookup. exists j.
    by apply catalog_lookup. }
  apply list_elem_of_lookup_1 in Hin as [j' Hj']. exists j'.
  by apply catalog_lookup.
Qed.

Lemma checker_elem_Permutation (cat cat' : list (T * string)) m y n c d :
  cat ≡ₚ cat' →
  checker_elem fs (cat.*1) (cat.*2) m y n c d
  = checker_elem fs (cat'.*1) (cat'.*2) m y n c d.
Proof.
  intros Hperm.
  assert (length cat.*2 = length cat.*1) as Hlen by by rewrite !length_fmap.
  assert (length cat'.*2 = length cat'.*1) as Hlen'
    by by rewrite !length_fmap.
  assert (np_sum (np_eq cat.*1 d) = np_sum (np_eq cat'.*1 d)) as Hsum
    by (apply np_sum_eq_Permutation; by rewrite Hperm).
  destruct (checker_elem_cases (cat.*1) (cat.*2) m y n c d Hlen)
    as [[Hne ->]|(j & p & Hj & Huniq & Hp & ->)].
  - rewrite checker_elem_other; [done | congruence].
  - assert (np_sum (np_eq cat'.*1 d) = 1%nat) as Hone'.
    { rewrite <- Hsum. apply np_sum_eq_1. eauto. }
    destruct (catalog_entry_Permutation cat cat' j d p Hperm Hj Hp)
      as (j' & Hj' & Hp').
    by rewrite (checker_elem_one _ _ _ _ _ _ _ _ _ _ Hlen' Hone' Hj' Hp').
Qed.

Lemma aligner_elem_Permutation (cat cat' : list (T * string)) m d :
  cat ≡ₚ cat' →
  aligner_elem fs (cat.*1) (cat.*2) m d
  = aligner_elem fs (cat'.*1) (cat'.*2) m d.
Proof.
  intros Hperm.
  assert (length cat.*2 = length cat.*1) as Hlen by by rewrite !length_fmap.
  assert (length cat'.*2 = length cat'.*1) as Hlen'
    by by rewrite !length_fmap.
  assert (np_sum (np_eq cat.*1 d) = np_sum (np_eq cat'.*1 d)) as Hsum
    by (apply np_sum_eq_Permutation; by rewrite Hperm).
  destruct (decide (np_sum (np_eq cat.*1 d) = 1%nat)) as [Hone|Hne].
  - apply np_sum_eq_1 in Hone as Huniq. destruct Huniq as (j & Hj & Huniq).
    destruct (lookup_lt_is_Some_2 (cat.*2) j) as [p Hp].
    { rewrite Hlen. by eapply lookup_lt_Some. }
    destruct (catalog_entry_Permutation cat cat' j d p Hperm Hj Hp)
      as (j' & Hj' & Hp').
    rewrite (aligner_elem_one _ _ _ _ _ _ _ Hlen Hone Hj Hp).
    rewrite (aligner_elem_one _ _ _ _ _ _ _ Hlen' (eq_trans (eq_sym Hsum) Hone)
               Hj' Hp').
    done.
  - rewrite !aligner_elem_other; [done| congruence | done].
Qed.

(** X11.  The order of the catalog does not matter to [file_checker],
    [file_checker2] and [File_Aligner]: on a catalog of (timestamp, path)
    entries and on any reordering of its entries, [file_checker] and
    [File_Aligner] run alike, stats included, and [file_checker2] returns
    the same output. *)
Theorem catalog_order_irrelevant (cat cat' : list (T * string)) date_range
    (m y n c : Z) :
  cat ≡ₚ cat' →
  file_checker fs (cat.*1) date_range (Some (cat.*2)) m y n c
  = file_checker fs (cat'.*1) date_range (Some (cat'.*2)) m y n c
  ∧ File_Aligner fs (cat.*2) (cat.*1) date_range m
    = File_Aligner fs (cat'.*2) (cat'.*1) date_range m
  ∧ result (file_checker2 fs (cat.*1) date_range (Some (cat.*2)) m y n c)
    = result (file_checker2 fs (cat'.*1) date_range (Some (cat'.*2)) m y n c).
Proof.
  intros Hperm. split_and!.
  - rewrite !file_checker_collect. apply collect_ext. intros d.
    by apply checker_elem_Permutation.
  - rewrite !File_Aligner_collect. f_equal. apply collect_ext. intros d.
    by apply aligner_elem_Permutation.
  - rewrite !file_checker2_files. simpl.
    rewrite !decide_True by (right; by rewrite !length_fmap).
    f_equal. apply map_ext. intros d. unfold checker2_code.
    assert (∀ cat1 cat2 : list (T * string), cat1 ≡ₚ cat2 →
              d ∈ small_dates fs (cat1.*1) (cat1.*2) m →
              d ∈ small_dates fs (cat2.*1) (cat2.*2) m) as Hsmall.
    { intros cat1 cat2 H12 (j & p & Hj & Hp & Hsz)%elem_of_small_dates.
      apply elem_of_small_dates.
      destruct (catalog_entry_Permutation cat1 cat2 j d p H12 Hj Hp)
        as (j' & Hj' & Hp'). eauto. }
    assert (d ∈ cat.*1 ↔ d ∈ cat'.*1) as Hin by by rewrite Hperm.
    assert (d ∈ small_dates fs (cat.*1) (cat.*2) m
            ↔ d ∈ small_dates fs (cat'.*1) (cat'.*2) m) as Hsm.
    { split; apply Hsmall; [done | by symmetry]. }
    repeat case_bool_decide; try done; tauto.
Qed.

(** X12.  The checkers and the aligners work one requested timestamp at a
    time: the run on two ranges put end to end is the run on the first
    followed by the run on the second, with the outputs put end to end
    (for [file_checker2], which stats the whole catalog in each run, so are
    the outputs). *)
Theorem range_concatenation dates files (r1 r2 : list T) (m y n c : Z) :
  file_checker fs dates (r1 ++ r2) (Some files) m y n c
  = (o1 <- file_checker fs dates r1 (Some files) m y n c ;;
     o2 <- file_checker fs dates r2 (Some files) m y n c ;;
     ret (o1 ++ o2))
  ∧ File_Aligner fs files dates (r1 ++ r2) m
    = (s1 <- File_Aligner fs files dates r1 m ;;
       s2 <- File_Aligner fs files dates r2 m ;;
       ret (fst s1 ++ fst s2, snd s1 ++ snd s2))
  ∧ File_Aligner_NoSize files dates (r1 ++ r2)
    = (s1 <- File_Aligner_NoSize files dates r1 ;;
       s2 <- File_Aligner_NoSize files dates r2 ;;
       ret (fst s1 ++ fst s2, snd s1 ++ snd s2))
  ∧ (∀ o1 o2,
       result (file_checker2 fs dates r1 (Some files) m y n c) = Ok o1 →
       result (file_checker2 fs dates r2 (Some files) m y n c) = Ok o2 →
       result (file_checker2 fs dates (r1 ++ r2) (Some files) m y n c)
       = Ok (o1 ++ o2)).
Proof.
  split_and!.
  - rewrite !file_checker_collect. apply collect_app.
  - rewrite !File_Aligner_collect, collect_app, !bind_assoc.
    apply bind_ext_ok. intros us _.
    rewrite bind_ret_l, !bind_assoc. apply bind_ext_ok. intros vs _.
    by rewrite !bind_ret_l, !map_app.
  - rewrite !File_Aligner_NoSize_collect, collect_app, !bind_assoc.
    apply bind_ext_ok. intros us _.
    rewrite bind_ret_l, !bind_assoc. apply bind_ext_ok. intros vs _.
    by rewrite !bind_ret_l, !map_app.
  - intros o1 o2. rewrite !file_checker2_files. simpl.
    case_decide; [|done]. intros [= <-] [= <-]. by rewrite map_app.
Qed.

End Further.

(** ** The further properties on concrete catalogs *)

Lemma sizes_nonnegative (p : string) (s : Z) : disk p = Some s → 0 ≤ s.
Proof. unfold disk. repeat case_decide; intros [= <-]; lia. Defined.

Lemma healthy_unique (d : Z) (j j' : nat) :
  d ∈ requested → [1; 3] !! j = Some d → [1; 3] !! j' = Some d → j = j'.
Proof.
  intros _ Hj Hj'.
  destruct j as [|[|j]], j' as [|[|j']]; simplify_eq/=; reflexivity.
Defined.

Lemma healthy_sizes (d : Z) (j : nat) (p : string) :
  d ∈ requested → [1; 3] !! j = Some d → ["a.txt"; "b.txt"] !! j = Some p →
  ∃ s, disk p = Some s ∧ 0 < s.
Proof.
  intros _ Hj Hp.
  destruct j as [|[|j]]; simplify_eq/=; exists 10; split; (reflexivity || lia).
Defined.

Lemma file_checker_outcome_witness :
  length cat_files = length cat_dates
  ∧ ((∃ out, result (file_checker disk cat_dates requested (Some cat_files)
                       0 1 0 2) = Ok out)
     ↔ ∀ d j p, d ∈ requested →
         cat_dates !! j = Some d → (∀ j', cat_dates !! j' = Some d → j' = j) →
         cat_files !! j = Some p → is_Some (disk p)).
Proof.
  split; [reflexivity|].
  exact (proj1 (file_checker_outcome disk cat_dates requested cat_files
                  0 1 0 2 eq_refl)).
Defined.

Lemma file_checker2_classifies_witness :
  length cat_files = length cat_dates ∧ 0 ≤ 0
  ∧ ∃ out,
      result (file_checker2 disk cat_dates requested (Some cat_files) 0 1 0 2)
      = Ok out
      ∧ out !! 0%nat = Some 1 ∧ out !! 1%nat = Some 2 ∧ out !! 2%nat = Some 0.
Proof.
  assert (0 ≤ 0) as Hm by lia.
  destruct (file_checker2_classifies disk cat_dates requested cat_files
              0 1 0 2 eq_refl Hm) as (out & Hout & Hcls).
  split; [reflexivity|]. split; [exact Hm|].
  exists out. split; [exact Hout|]. split_and!.
  - apply (proj1 (proj2 (Hcls 0%nat 1 eq_refl))); [compute_done|].
    intros j p Hj Hp.
    destruct j as [|[|[|j]]]; simplify_eq/=. exists 10.
    split; [reflexivity | lia].
  - apply (proj1 (Hcls 1%nat 2 eq_refl)). exists 1%nat, "empty.txt".
    split; [reflexivity|]. split; [reflexivity|]. right. exists 0.
    split; [reflexivity | lia].
  - apply (proj2 (proj2 (Hcls 2%nat 4 eq_refl))). compute_done.
Defined.

Lemma file_checker2_negative_threshold_witness :
  length ["gone.txt"; "empty.txt"] = length [1; 2] ∧ -1 < 0
  ∧ (∀ p s, disk p = Some s → 0 ≤ s)
  ∧ ∃ out,
      result (file_checker2 disk [1; 2] requested
                (Some ["gone.txt"; "empty.txt"]) (-1) 1 0 2) = Ok out
      ∧ out !! 0%nat = Some 1 ∧ out !! 1%nat = Some 1.
Proof.
  assert (-1 < 0) as Hm by lia.
  destruct (file_checker2_negative_threshold disk [1; 2] requested
              ["gone.txt"; "empty.txt"] (-1) 1 0 2 eq_refl Hm
              sizes_nonnegative) as (_ & out & Hout & Hyes).
  split; [reflexivity|]. split; [exact Hm|].
  split; [exact sizes_nonnegative|].
  exists out. split; [exact Hout|]. split.
  - apply (Hyes 0%nat 1 eq_refl). compute_done.
  - apply (Hyes 1%nat 2 eq_refl). compute_done.
Defined.

Lemma file_checker_shortcut_witness :
  length ["a.txt"; "b.txt"] = length [1; 3]
  ∧ result (file_checker disk [1; 3] requested (Some ["a.txt"; "b.txt"])
              0 1 0 2)
    = result (file_checker disk [1; 3] requested None 0 1 0 2).
Proof.
  split; [reflexivity|].
  exact (file_checker_shortcut disk [1; 3] requested ["a.txt"; "b.txt"] 0 2
           eq_refl healthy_unique healthy_sizes).
Defined.

Lemma file_checker_shortcut_duplicates_witness :
  dup_requested !! 0%nat = Some 1 ∧ 0%nat ≠ 1%nat
  ∧ dup_dates !! 0%nat = Some 1 ∧ dup_dates !! 1%nat = Some 1
  ∧ ∃ out, result (file_checker disk dup_dates dup_requested None 0 1 0 2)
           = Ok out
           ∧ out !! 0%nat = Some 1.
Proof.
  assert (0%nat ≠ 1%nat) as Hne by discriminate.
  split; [reflexivity|]. split; [exact Hne|].
  split; [reflexivity|]. split; [reflexivity|].
  exact (proj1 (file_checker_shortcut_duplicates disk dup_dates dup_requested
                  dup_files 0 1 0 2 0 0 1 1 eq_refl Hne eq_refl eq_refl)).
Defined.

Lemma aligners_agree_witness :
  length ["a.txt"; "b.txt"] = length [1; 3]
  ∧ result (File_Aligner disk ["a.txt"; "b.txt"] [1; 3] requested 0)
    = result (File_Aligner_NoSize ["a.txt"; "b.txt"] [1; 3] requested).
Proof.
  split; [reflexivity|].
  exact (proj1 (aligners_agree disk [1; 3] requested ["a.txt"; "b.txt"] 0
                  eq_refl healthy_unique healthy_sizes)).
Defined.

Lemma catalog_order_irrelevant_witness :
  [(1, "a.txt"); (2, "empty.txt")] ≡ₚ [(2, "empty.txt"); (1, "a.txt")]
  ∧ file_checker disk [1; 2] requested (Some ["a.txt"; "empty.txt"]) 0 1 0 2
    = file_checker disk [2; 1] requested (Some ["empty.txt"; "a.txt"]) 0 1 0 2.
Proof.
  assert ([(1, "a.txt"); (2, "empty.txt")] ≡ₚ [(2, "empty.txt"); (1, "a.txt")])
    as Hperm by apply perm_swap.
  split; [exact Hperm|].
  exact (proj1 (catalog_order_irrelevant disk
                  [(1, "a.txt"); (2, "empty.txt")]
                  [(2, "empty.txt"); (1, "a.txt")] requested 0 1 0 2 Hperm)).
Defined.

(** * Properties of the other functions of the module *)

(** ** [isnone], [iszero], [isval] *)

Lemma np_where_from_seq (k a n ind : nat) :
  np_where_from k (seq a n) ind
  = if decide (a ≤ ind ∧ ind < a + n)%nat then [(k + (ind - a))%nat] else [].
Proof.
  revert k a. induction n as [|n IH]; intros k a; simpl.
  - rewrite decide_False; [done | lia].
  - rewrite IH. repeat case_decide; subst; try lia; try done.
    + f_equal. lia.
    + f_equal. lia.
Qed.

Lemma np_setpos_where_seq (n ind : nat) (full : list bool) (val : bool) :
  (ind < n)%nat →
  np_setpos full (np_where (seq 0 n) ind) val = <[ind:=val]> full.
Proof.
  intros Hind. unfold np_where. rewrite np_where_from_seq.
  rewrite decide_True by lia. simpl. f_equal. lia.
Qed.

Lemma restructure_from (n k : nat) (flags full : list bool) :
  (k + length flags ≤ n)%nat → length full = n →
  foldl (fun full '(ind, val) => np_setpos full (np_where (seq 0 n) ind) val)
        full (zip (seq k (length flags)) flags)
  = take k full ++ flags ++ drop (k + length flags) full.
Proof.
  revert k full. induction flags as [|v flags IH]; intros k full Hk Hfull.
  - simpl. by rewrite Nat.add_0_r, take_drop.
  - simpl in Hk. cbn [length seq zip zip_with foldl].
    rewrite np_setpos_where_seq by lia.
    rewrite IH by (rewrite ?length_insert; lia).
    rewrite (take_S_r _ _ v)
      by (apply list_lookup_insert_eq; lia).
    rewrite take_insert_ge by lia.
    rewrite drop_insert_lt by lia.
    rewrite <- app_assoc. simpl.
    by replace (k + S (length flags))%nat with (S (k + length flags)) by lia.
Qed.

(** The loop that puts the flags back in shape changes nothing on a
    one-dimensional array. *)
Lemma restructure_seq (flags full : list bool) :
  length full = length flags →
  restructure (seq 0 (length flags)) (seq 0 (length flags)) flags full = flags.
Proof.
  intros Hfull. unfold restructure.
  rewrite restructure_from by lia.
  rewrite take_0, drop_ge by lia. by rewrite app_nil_r.
Qed.

Lemma flags_of_array {A : Type} (f : A → bool) (arg : list A)
    (keepshape : bool) :
  arg ≠ [] →
  (arg' <~ np_hstack_flat NumPy_1_16 (flat arg) ;;
   index_flat <~ np_hstack (seq 0 (length arg)) ;;
   if keepshape
   then Ret (restructure (seq 0 (length arg)) index_flat (map f arg')
               (replicate (length arg) false))
   else Ret (map f arg'))
  = Ret (map f arg).
Proof.
  intros Hne. destruct arg as [|x arg]; [done|].
  assert (np_hstack (seq 0 (length (x :: arg)))
          = Ret (seq 0 (length (x :: arg)))) as -> by done.
  cbn [np_hstack_flat flat read fst np_hstack pbind].
  destruct keepshape; [|done].
  f_equal.
  pose proof (restructure_seq (map f (x :: arg))
                (replicate (length (x :: arg)) false)) as Hr.
  rewrite length_map in Hr. apply Hr. by rewrite length_replicate.
Qed.

(** X13.  [isnone] and [iszero] on a one-dimensional array of [None]s and
    integers.  On NumPy 1.17 and later they return on no array: the
    dispatcher has used up [arg.flat] when [np.hstack] reads it, and
    [np.hstack] raises [ValueError].  On NumPy 1.16 and earlier they raise
    [ValueError] on the empty array and otherwise return the element-wise
    test ([val is None], [val == 0]), the same with [keepshape] and
    without. *)
Theorem isnone_iszero_outcome (np : numpy) (arg : list pyval)
    (keepshape : bool) :
  isnone np arg keepshape
  = match np with
    | NumPy_1_17 => Exc ValueError
    | NumPy_1_16 =>
        if decide (arg = []) then Exc ValueError
        else Ret (map is_None arg)
    end
  ∧ iszero np arg keepshape
    = match np with
      | NumPy_1_17 => Exc ValueError
      | NumPy_1_16 =>
          if decide (arg = []) then Exc ValueError
          else Ret (map (fun val => py_eq val (VInt 0)) arg)
      end.
Proof.
  destruct np; [|done].
  unfold isnone, iszero. destruct (decide (arg = [])) as [->|Hne]; [done|].
  split; by apply flags_of_array.
Qed.

(** X14.  [isval] guards the empty array, on which it returns the Python
    [False], where [iszero] raises.  On any other one-dimensional array of
    [None]s and integers it raises [ValueError] on NumPy 1.17 and later,
    as [iszero] does, and on NumPy 1.16 and earlier returns the
    element-wise test [val == value]; on either, [isval(arg, 0)] ends as
    [iszero(arg)] does. *)
Theorem isval_outcome (np : numpy) (arg : list pyval) (value : pyval)
    (keepshape : bool) :
  isval np arg value keepshape
  = (if decide (arg = []) then Ret PyFalse
     else match np with
          | NumPy_1_17 => Exc ValueError
          | NumPy_1_16 =>
              Ret (BoolArray (map (fun val => py_eq val value) arg))
          end)
  ∧ (arg ≠ [] →
     isval np arg (VInt 0) keepshape
     = (flags <~ iszero np arg keepshape ;; Ret (BoolArray flags))).
Proof.
  assert (∀ v, arg ≠ [] →
            isval np arg v keepshape
            = match np with
              | NumPy_1_17 => Exc ValueError
              | NumPy_1_16 =>
                  Ret (BoolArray (map (fun val => py_eq val v) arg))
              end) as Hval.
  { intros v Hne. unfold isval.
    rewrite decide_False by (by destruct arg).
    destruct np; [|done].
    destruct arg as [|x arg]; [done|].
    assert (np_hstack (seq 0 (length (x :: arg)))
            = Ret (seq 0 (length (x :: arg)))) as -> by done.
    cbn [np_hstack_flat flat read fst np_hstack pbind].
    destruct keepshape; [|done]. do 2 f_equal.
    pose proof (restructure_seq (map (fun val => py_eq val v) (x :: arg))
                  (replicate (length (x :: arg)) false)) as Hr.
    rewrite length_map in Hr. apply Hr. by rewrite length_replicate. }
  split.
  - destruct (decide (arg = [])) as [->|Hne]; [done|]. by apply Hval.
  - intros Hne. rewrite (Hval _ Hne). destruct np; [|done].
    unfold iszero. by rewrite (flags_of_array _ arg keepshape Hne).
Qed.

Lemma isval_outcome_witness :
  [VNone; VInt 0; VInt 3] ≠ []
  ∧ isval NumPy_1_17 [VNone; VInt 0; VInt 3] (VInt 0) true
    = (flags <~ iszero NumPy_1_17 [VNone; VInt 0; VInt 3] true ;;
       Ret (BoolArray flags))
  ∧ isval NumPy_1_17 [VNone; VInt 0; VInt 3] (VInt 0) true = Exc ValueError
  ∧ isval NumPy_1_16 [VNone; VInt 0; VInt 3] (VInt 0) true
    = Ret (BoolArray [false; true; false]).
Proof.
  assert ([VNone; VInt 0; VInt 3] ≠ []) as Hne by discriminate.
  split; [exact Hne|]. split.
  - exact (proj2 (isval_outcome NumPy_1_17 [VNone; VInt 0; VInt 3] (VInt 0)
                    true) Hne).
  - split; reflexivity.
Defined.

(** ** [del_folder] *)

Lemma string_app_length (a b : string) :
  String.length (a +:+ b) = (String.length a + String.length b)%nat.
Proof. induction a as [|c a IH]; simpl; [done | by rewrite IH]. Qed.

Lemma path_join_longer (folder name : string) :
  name ≠ EmptyString → starts_with_sep name = false →
  (String.length folder < String.length (path_join folder name))%nat.
Proof.
  intros Hne Hsep. unfold path_join. rewrite Hsep.
  assert (0 < String.length name)%nat by (destruct name; simpl; [done|lia]).
  case_match; rewrite !string_app_length; simpl; lia.
Qed.

Lemma del_step_calls {W : Type} (sys : os W) (folder : string) (sub : bool)
    (st : del_state W) (name : string) :
  ∃ cs ps,
    calls (del_step sys folder sub st name) = calls st ++ cs
    ∧ printed (del_step sys folder sub st name) = printed st ++ ps
    ∧ (length ps ≤ length cs)%nat ∧ (length cs ≤ 1)%nat
    ∧ ∀ c, c ∈ cs →
        c = Unlink (path_join folder name)
        ∨ (sub = true ∧ c = Rmtree (path_join folder name)).
Proof.
  assert (∃ cs ps,
    calls st = calls st ++ cs ∧ printed st = printed st ++ ps
    ∧ (length ps ≤ length cs)%nat ∧ (length cs ≤ 1)%nat
    ∧ ∀ c, c ∈ cs →
        c = Unlink (path_join folder name)
        ∨ (sub = true ∧ c = Rmtree (path_join folder name))) as Hnone.
  { exists [], []. rewrite !app_nil_r.
    split_and!; [done|done|simpl; lia|simpl; lia|].
    by intros c ?%elem_of_nil. }
  unfold del_step.
  destruct (os_isfile sys (path_join folder name) (world st)).
  - destruct (os_unlink sys (path_join folder name) (world st)) as [[e|] w];
      [exists [Unlink (path_join folder name)], [e]
      |exists [Unlink (path_join folder name)], []];
      simpl; rewrite ?app_nil_r; (split_and!; [done|done|lia|lia|]);
      intros c ->%list_elem_of_singleton; by left.
  - destruct (os_isdir sys (path_join folder name) (world st)), sub; simpl;
      try exact Hnone.
    destruct (os_rmtree sys (path_join folder name) (world st)) as [[e|] w];
      [exists [Rmtree (path_join folder name)], [e]
      |exists [Rmtree (path_join folder name)], []];
      simpl; rewrite ?app_nil_r; (split_and!; [done|done|lia|lia|]);
      intros c ->%list_elem_of_singleton; by right.
Qed.

Lemma del_loop_calls {W : Type} (sys : os W) (folder : string) (sub : bool)
    (names : list string) (st : del_state W) :
  ∃ cs ps,
    calls (foldl (del_step sys folder sub) st names) = calls st ++ cs
    ∧ printed (foldl (del_step sys folder sub) st names) = printed st ++ ps
    ∧ (length ps ≤ length cs)%nat ∧ (length cs ≤ length names)%nat
    ∧ ∀ c, c ∈ cs → ∃ name, name ∈ names
        ∧ (c = Unlink (path_join folder name)
           ∨ (sub = true ∧ c = Rmtree (path_join folder name))).
Proof.
  revert st. induction names as [|name names IH]; intros st.
  - exists [], []. rewrite !app_nil_r. split_and!; try done.
    by intros c ?%elem_of_nil.
  - cbn [foldl].
    destruct (del_step_calls sys folder sub st name)
      as (cs1 & ps1 & Hc1 & Hp1 & Hl1 & Hn1 & Hin1).
    destruct (IH (del_step sys folder sub st name))
      as (cs2 & ps2 & Hc2 & Hp2 & Hl2 & Hn2 & Hin2).
    exists (cs1 ++ cs2), (ps1 ++ ps2).
    rewrite Hc2, Hp2, Hc1, Hp1, <- !app_assoc, !length_app. simpl.
    split_and!; try done; try lia.
    intros c [Hc|Hc]%elem_of_app.
    + exists name. split; [by left | by apply Hin1].
    + destruct (Hin2 c Hc) as (name' & Hin & Hcase).
      exists name'. split; [by right | done].
Qed.

(** X15.  [del_folder] raises only what [os.listdir] raises, and then has
    touched nothing.  Otherwise it returns whatever [os.unlink] and
    [shutil.rmtree] do: their exceptions are printed, one line each.  It
    makes at most one call per listed name, on [os.path.join(folder,
    name)]; it calls [shutil.rmtree] only when [sub] is set; and, the names
    being non-empty and relative, it never calls either on [folder]
    itself. *)
Theorem del_folder_calls {W : Type} (sys : os W) (folder : string)
    (sub : bool) (w : W) :
  (∀ e, os_listdir sys folder w = Exc e →
     del_folder sys folder sub w = (Exc e, DelState w [] []))
  ∧ (∀ names, os_listdir sys folder w = Ret names →
       ∃ st, del_folder sys folder sub w = (Ret tt, st)
         ∧ (length (calls st) ≤ length names)%nat
         ∧ (length (printed st) ≤ length (calls st))%nat
         ∧ (∀ c, c ∈ calls st → ∃ name, name ∈ names
              ∧ (c = Unlink (path_join folder name)
                 ∨ (sub = true ∧ c = Rmtree (path_join folder name))))
         ∧ ((∀ name, name ∈ names →
               name ≠ EmptyString ∧ starts_with_sep name = false) →
            ¬ (Unlink folder ∈ calls st) ∧ ¬ (Rmtree folder ∈ calls st))).
Proof.
  split.
  - intros e He. unfold del_folder. by rewrite He.
  - intros names Hnames. unfold del_folder. rewrite Hnames.
    eexists. split; [done|].
    destruct (del_loop_calls sys folder sub names (DelState w [] []))
      as (cs & ps & -> & -> & Hl & Hn & Hin).
    simpl. split_and!; try done.
    intros Hproper.
    assert (∀ c, c ∈ cs → c ≠ Unlink folder ∧ c ≠ Rmtree folder) as Hnot.
    { intros c Hc. destruct (Hin c Hc) as (name & Hname & Hcase).
      destruct (Hproper name Hname) as [Hne Hsep].
      pose proof (path_join_longer folder name Hne Hsep) as Hlong.
      destruct Hcase as [->|[_ ->]]; split; try done;
        intros [= Heq]; rewrite Heq in Hlong; lia. }
    split; intros Hc; by destruct (Hnot _ Hc).
Qed.

(** ** [Print_Output] *)

(** X16.  [Print_Output] evaluates a call of itself, with the same
    arguments, before anything else: whatever the depth the interpreter
    allows, the call ends in [RecursionError] having started no timer,
    cleared no screen and printed nothing. *)
Theorem Print_Output_never_prints (frames : nat)
    (delay_time t_start it_tot it : Z) :
  Print_Output frames delay_time t_start it_tot it = ([], Exc RecursionError).
Proof.
  induction frames as [|frames IH]; [done|].
  cbn [Print_Output]. by rewrite IH.
Qed.

(** ** [antiverbose] and [verbose_class] *)

Lemma exec1_With (v : bool) (body : list stmt) (st : interp) :
  exec1 (With v body) st = with_antiverbose v (exec body) st.
Proof. reflexivity. Qed.

Lemma exec1_Method (v : bool) (body : list stmt) (st : interp) :
  exec1 (Method v body) st = verbose_class (exec body) v st.
Proof. reflexivity. Qed.

Lemma stmt_nested_ind (P : stmt → Prop) :
  (∀ s, P (Print s)) → (∀ e, P (Throw e)) →
  (∀ v body, Forall P body → P (With v body)) →
  (∀ v body, Forall P body → P (Method v body)) →
  ∀ c, P c.
Proof.
  intros HPrint HThrow HWith HMethod.
  fix IH 1. intros [s|e|v body|v body].
  - apply HPrint.
  - apply HThrow.
  - apply HWith. induction body as [|c body IHbody]; constructor; auto.
  - apply HMethod. induction body as [|c body IHbody]; constructor; auto.
Qed.

Lemma tidy_refl (st : interp) : tidy st st.
Proof.
  unfold tidy. split_and!; try done. intros f. split; [by left|].
  intros [?|(n & _ & ?)]; [done | lia].
Qed.

Lemma tidy_trans (st1 st2 st3 : interp) :
  tidy st1 st2 → tidy st2 st3 → tidy st1 st3.
Proof.
  intros (Hs1 & Ho1 & Hc1 & Hk1) (Hs2 & Ho2 & Hc2 & Hk2).
  unfold tidy. split_and!.
  - congruence.
  - lia.
  - intros f. rewrite Hc2, Hc1. split.
    + intros [[?|(n & -> & ?)]|(n & -> & ?)]; [by left|right..];
        exists n; split; (done || lia).
    + intros [?|(n & -> & ?)]; [by left; left|].
      destruct (decide (n < opened st2)%nat).
      * left. right. exists n. split; [done | lia].
      * right. exists n. split; [done | lia].
  - intros Hne. rewrite Hk2, Hk1; [done..|congruence].
Qed.

Lemma exec_tidy (body : list stmt) :
  Forall (fun c => plain c = true →
                   ∀ st r st', exec1 c st = (r, st') → tidy st st') body →
  forallb plain body = true →
  ∀ st r st', exec body st = (r, st') → tidy st st'.
Proof.
  induction 1 as [|c body Hc _ IH]; intros Hplain st r st'; cbn [exec].
  - intros [= _ <-]. apply tidy_refl.
  - cbn [forallb] in Hplain. apply andb_prop in Hplain as [Hpc Hpb].
    destruct (exec1 c st) as [[[]|e] st1] eqn:H1.
    + intros H2. eapply tidy_trans; [by eapply Hc | by eapply IH].
    + intros [= _ <-]. by eapply Hc.
Qed.

Lemma with_false_tidy (body : interp → pyres unit * interp) (st : interp)
    (r : pyres unit) (st' : interp) :
  (∀ st0 r0 st1, body st0 = (r0, st1) → tidy st0 st1) →
  with_antiverbose false body st = (r, st') →
  tidy st st' ∧ console st' = console st.
Proof.
  intros Hbody. unfold with_antiverbose, antiverbose_enter, antiverbose_exit.
  cbn [verbose negb open_devnull _original_stdout].
  destruct (body (set_stdout (DevNull (opened st))
                    (Interp (sys_stdout st) (closed st) (console st)
                       (S (opened st))))) as [r0 st1] eqn:Hrun.
  apply Hbody in Hrun as (Hs & Ho & Hc & Hk). simpl in *.
  intros [= _ <-]. simpl.
  assert (console st1 = console st) as Hcons by by apply Hk.
  split; [|done]. unfold tidy. simpl. split_and!; [done|lia| |done].
  intros f. rewrite elem_of_cons, Hc, Hs. split.
  - intros [->|[?|(n & -> & ?)]]; [right|by left|right].
    + exists (opened st). split; [done | lia].
    + exists n. split; [done | lia].
  - intros [?|(n & -> & ?)]; [by right; left|].
    destruct (decide (n = opened st)) as [->|Hne]; [by left|].
    right. right. exists n. split; [done | lia].
Qed.

Lemma plain_tidy (c : stmt) :
  plain c = true → ∀ st r st', exec1 c st = (r, st') → tidy st st'.
Proof.
  induction c as [s|e|v body IH|v body IH] using stmt_nested_ind;
    intros Hplain st r st'; [| | |done].
  - cbn [exec1]. unfold py_print. case_decide.
    + intros [= _ <-]. apply tidy_refl.
    + destruct (sys_stdout st) eqn:Hout; intros [= _ <-];
        [|apply tidy_refl].
      unfold tidy; simpl. split_and!; [done|lia| |congruence].
      intros f. split; [by left|]. intros [?|(n & _ & ?)]; [done | lia].
  - intros [= _ <-]. apply tidy_refl.
  - rewrite exec1_With. cbn [plain] in Hplain.
    pose proof (exec_tidy body IH Hplain) as Hbody.
    destruct v.
    + unfold with_antiverbose, antiverbose_enter, antiverbose_exit.
      cbn [verbose negb]. destruct (exec body st) as [r0 st1] eqn:Hrun.
      intros [= _ <-]. by eapply Hbody.
    + intros Hrun. by eapply with_false_tidy.
Qed.

(** X17.  A block [with antiverbose():] around a program that prints,
    raises and opens further [antiverbose] blocks, whether the program
    raises or not, lets nothing reach the console, leaves [sys.stdout] as
    it found it and has closed every file it opened and no other.  With
    [verbose=True] the block is the program itself. *)
Theorem antiverbose_block (body : list stmt) (st : interp) (r : pyres unit)
    (st' : interp) :
  forallb plain body = true →
  exec1 (With false body) st = (r, st') →
  console st' = console st
  ∧ sys_stdout st' = sys_stdout st
  ∧ (∀ f, f ∈ closed st'
          ↔ f ∈ closed st ∨ ∃ n, f = DevNull n
                                 ∧ (opened st ≤ n ∧ n < opened st')%nat)
  ∧ exec1 (With true body) st = exec body st.
Proof.
  intros Hplain Hrun. rewrite exec1_With in Hrun.
  apply with_false_tidy in Hrun as [(Hs & Ho & Hc & _) Hcons].
  - split_and!; try done. rewrite exec1_With.
    unfold with_antiverbose, antiverbose_enter, antiverbose_exit.
    cbn [verbose negb]. by destruct (exec body st) as [r0 st1].
  - apply exec_tidy; [|done]. apply Forall_forall. intros c _.
    apply plain_tidy.
Qed.

(** X18.  The wrapper of [verbose_class], on an object that is not
    verbose, around a method that prints, raises and opens [antiverbose]
    blocks: when the method returns, [sys.stdout] is the console whatever
    it was before the call; when the method raises, [sys.stdout] stays on
    the file the wrapper opened on [os.devnull]; [close] is not called on
    this file; and nothing reaches the console. *)
Theorem verbose_class_wrapper (body : list stmt) (st : interp)
    (r : pyres unit) (st' : interp) :
  forallb plain body = true →
  exec1 (Method false body) st = (r, st') →
  (r = Ret tt → sys_stdout st' = Console)
  ∧ (∀ e, r = Exc e → sys_stdout st' = DevNull (opened st))
  ∧ (DevNull (opened st) ∈ closed st' ↔ DevNull (opened st) ∈ closed st)
  ∧ (opened st < opened st')%nat
  ∧ console st' = console st.
Proof.
  intros Hplain. rewrite exec1_Method. unfold verbose_class.
  cbn [negb open_devnull].
  destruct (exec body (set_stdout (DevNull (opened st))
                         (Interp (sys_stdout st) (closed st) (console st)
                            (S (opened st))))) as [r0 st1] eqn:Hrun.
  apply exec_tidy in Hrun as (Hs & Ho & Hc & Hk); [|by apply Forall_forall;
    intros c _; apply plain_tidy|done].
  simpl in *.
  assert (DevNull (opened st) ∈ closed st1 ↔ DevNull (opened st) ∈ closed st)
    as Hleak.
  { rewrite Hc. split; [|by left].
    intros [?|(n & [= <-] & ?)]; [done | lia]. }
  destruct r0 as [[]|e]; intros [= <- <-]; simpl;
    (split_and!; [done|done|done|lia|by apply Hk]).
Qed.

Lemma exec_app (b1 b2 : list stmt) (st : interp) :
  exec (b1 ++ b2) st
  = match exec b1 st with
    | (Ret _, st1) => exec b2 st1
    | (Exc e, st1) => (Exc e, st1)
    end.
Proof.
  revert st. induction b1 as [|c b1 IH]; intros st; cbn [exec app]; [done|].
  destruct (exec1 c st) as [[[]|e] st1]; [apply IH | done].
Qed.

Lemma exec_prints_devnull (lines : list string) (st : interp) (n : nat) :
  sys_stdout st = DevNull n → DevNull n ∉ closed st →
  exec (map Print lines) st = (Ret tt, st).
Proof.
  intros Hout Hopen. induction lines as [|s lines IH]; [done|].
  cbn [map exec exec1]. unfold py_print.
  rewrite decide_False by (by rewrite Hout). by rewrite Hout.
Qed.

Lemma exec_prints_console (lines : list string) (st : interp) :
  sys_stdout st = Console → Console ∉ closed st →
  exec (map Print lines) st
  = (Ret tt, Interp Console (closed st) (console st ++ lines) (opened st)).
Proof.
  revert st. induction lines as [|s lines IH]; intros st Hout Hopen.
  - simpl. rewrite app_nil_r. by destruct st; simpl in *; subst.
  - cbn [map exec exec1]. unfold py_print.
    rewrite decide_False by (by rewrite Hout). rewrite Hout.
    rewrite IH by done. simpl. by rewrite <- app_assoc.
Qed.

(** X19.  A call of a method decorated with [verbose_class], on an object
    that is not verbose, inside a block [with antiverbose():] undoes the
    block: what is printed after the call, still inside the block, reaches
    the console, and at its end the block closes [sys.__stdout__] itself,
    so that a later [print] to the console raises [ValueError]; [close]
    is called on neither of the two files opened on [os.devnull]. *)
Theorem decorated_call_in_block (before inside after : list string)
    (st : interp) :
  Console ∉ closed st →
  (∀ n, DevNull n ∈ closed st → (n < opened st)%nat) →
  exec1 (With false (map Print before
                     ++ [Method false (map Print inside)]
                     ++ map Print after)) st
  = (Ret tt, Interp (sys_stdout st) (Console :: closed st)
               (console st ++ after) (S (S (opened st))))
  ∧ (sys_stdout st = Console →
     ∀ s, fst (py_print s (Interp (sys_stdout st) (Console :: closed st)
                             (console st ++ after) (S (S (opened st)))))
          = Exc ValueError).
Proof.
  intros Hconsole Hwf.
  assert (∀ n, (opened st ≤ n)%nat → DevNull n ∉ closed st) as Hfresh.
  { intros n Hn Hin. apply Hwf in Hin. lia. }
  split_and!.
  - rewrite exec1_With. unfold with_antiverbose, antiverbose_enter.
    cbn [verbose negb open_devnull].
    rewrite exec_app.
    rewrite (exec_prints_devnull before _ (opened st))
      by (simpl; auto).
    cbn [app exec]. rewrite exec1_Method. unfold verbose_class.
    cbn [negb open_devnull set_stdout sys_stdout closed console opened].
    rewrite (exec_prints_devnull inside _ (S (opened st)))
      by (simpl; auto).
    cbn [set_stdout sys_stdout closed console opened].
    rewrite exec_prints_console by done.
    unfold antiverbose_exit. by cbn.
  - intros Hout s. unfold py_print. simpl.
    by rewrite decide_True by (rewrite Hout; by left).
Qed.

(** A console session: nothing closed, no file opened yet. *)
Lemma antiverbose_block_witness :
  forallb plain [Print "a"; With false [Print "b"; Throw ValueError]] = true
  ∧ exec1 (With false [Print "a"; With false [Print "b"; Throw ValueError]])
      (Interp Console [] ["start"] 0)
    = (Exc ValueError, Interp Console [DevNull 0; DevNull 1] ["start"] 2)
  ∧ console (Interp Console [DevNull 0; DevNull 1] ["start"] 2) = ["start"]
  ∧ sys_stdout (Interp Console [DevNull 0; DevNull 1] ["start"] 2) = Console.
Proof.
  assert (forallb plain [Print "a"; With false [Print "b"; Throw ValueError]]
          = true) as Hplain by reflexivity.
  assert (exec1 (With false [Print "a";
                             With false [Print "b"; Throw ValueError]])
            (Interp Console [] ["start"] 0)
          = (Exc ValueError, Interp Console [DevNull 0; DevNull 1] ["start"] 2))
    as Hrun by reflexivity.
  destruct (antiverbose_block _ _ _ _ Hplain Hrun) as (Hcons & Hout & _).
  split; [exact Hplain|]. split; [exact Hrun|].
  split; [exact Hcons | exact Hout].
Defined.

Lemma verbose_class_wrapper_witness :
  forallb plain [Print "a"; Throw ValueError] = true
  ∧ exec1 (Method false [Print "a"; Throw ValueError])
      (Interp Console [] [] 0)
    = (Exc ValueError, Interp (DevNull 0) [] [] 1)
  ∧ sys_stdout (Interp (DevNull 0) [] [] 1) = DevNull 0.
Proof.
  assert (forallb plain [Print "a"; Throw ValueError] = true) as Hplain
    by reflexivity.
  assert (exec1 (Method false [Print "a"; Throw ValueError])
            (Interp Console [] [] 0)
          = (Exc ValueError, Interp (DevNull 0) [] [] 1)) as Hrun
    by reflexivity.
  destruct (verbose_class_wrapper _ _ _ _ Hplain Hrun) as (_ & Hexc & _).
  split; [exact Hplain|]. split; [exact Hrun|].
  exact (Hexc ValueError eq_refl).
Defined.

Lemma decorated_call_in_block_witness :
  ¬ (Console ∈ closed (Interp Console [] [] 0))
  ∧ (∀ n, DevNull n ∈ closed (Interp Console [] [] 0) →
          (n < opened (Interp Console [] [] 0))%nat)
  ∧ exec1 (With false (map Print ["a"]
                       ++ [Method false (map Print ["b"])]
                       ++ map Print ["c"])) (Interp Console [] [] 0)
    = (Ret tt, Interp Console [Console] ["c"] 2).
Proof.
  assert (Console ∉ closed (Interp Console [] [] 0)) as Hopen
    by (simpl; apply not_elem_of_nil).
  assert (∀ n, DevNull n ∈ closed (Interp Console [] [] 0) →
               (n < opened (Interp Console [] [] 0))%nat) as Hwf
    by (simpl; intros n Hn; by apply elem_of_nil in Hn).
  split; [exact Hopen|]. split; [exact Hwf|].
  exact (proj1 (decorated_call_in_block ["a"] ["b"] ["c"]
                  (Interp Console [] [] 0) Hopen Hwf)).
Defined.

(** ** [DelayedKeyboardInterrupt] *)

Lemma DKI_enter_spec (obj : nat) (p : process) :
  (∀ sig, handlers (DKI_enter obj p) sig = delayed obj)
  ∧ objects (DKI_enter obj p) obj
    = DKI None (handlers p SIGINT) (handlers p SIGTSTP) (handlers p SIGQUIT)
  ∧ (∀ o, o ≠ obj → objects (DKI_enter obj p) o = objects p o)
  ∧ called (DKI_enter obj p) = called p
  ∧ warnings (DKI_enter obj p) = warnings p.
Proof.
  unfold DKI_enter, signal_signal, set_object, update. simpl.
  split_and!; try done.
  - by intros [].
  - by rewrite decide_True.
  - intros o Ho. by rewrite decide_False.
Qed.

Lemma DKI_handler_fold (obj : nat) (sigs : list signum) (p : process) :
  let p' := foldl (fun p sig => DKI_handler obj sig p) p sigs in
  handlers p' = handlers p
  ∧ called p' = called p
  ∧ warnings p' = (warnings p + length sigs)%nat
  ∧ ctrlc_handler (objects p' obj) = ctrlc_handler (objects p obj)
  ∧ ctrlz_handler (objects p' obj) = ctrlz_handler (objects p obj)
  ∧ ctrlslash_handler (objects p' obj) = ctrlslash_handler (objects p obj)
  ∧ signal_received (objects p' obj)
    = match last sigs with
      | Some s => Some s
      | None => signal_received (objects p obj)
      end
  ∧ (∀ o, o ≠ obj → objects p' o = objects p o).
Proof.
  revert p. induction sigs as [|a sigs IH]; intros p.
  - simpl. split_and!; try done; lia.
  - cbn [foldl].
    destruct (IH (DKI_handler obj a p))
      as (Hh & Hc & Hw & H1 & H2 & H3 & Hr & Ho).
    assert (objects (DKI_handler obj a p) obj
            = DKI (Some a) (ctrlc_handler (objects p obj))
                (ctrlz_handler (objects p obj))
                (ctrlslash_handler (objects p obj))) as Hself.
    { unfold DKI_handler, set_object, update. simpl.
      by rewrite decide_True. }
    assert (∀ o, o ≠ obj → objects (DKI_handler obj a p) o = objects p o)
      as Hoth.
    { intros o Hne. unfold DKI_handler, set_object, update. simpl.
      by rewrite decide_False. }
    cbn zeta. rewrite Hh, Hc, Hw, H1, H2, H3, Hr, Hself. simpl.
    split_and!; try done; try lia.
    + destruct sigs as [|a' sigs]; [done|].
      change (last (a :: a' :: sigs)) with (last (a' :: sigs)).
      destruct (last (a' :: sigs)) eqn:E; [done|].
      by apply last_None in E.
    + intros o Hne. by rewrite Ho, Hoth.
Qed.

Lemma DKI_exit_callables (obj : nat) (p : process) (r : option signum)
    (n1 n2 n3 : nat) :
  objects p obj = DKI r (callable n1 false) (callable n2 false)
                    (callable n3 false) →
  ∃ p', DKI_exit obj p = (Ret tt, p')
    ∧ handlers p' SIGINT = callable n1 false
    ∧ handlers p' SIGTSTP = callable n2 false
    ∧ handlers p' SIGQUIT = callable n3 false
    ∧ warnings p' = warnings p
    ∧ called p' = called p ++ match r with
                              | Some s => [(n1, s); (n2, s); (n3, s)]
                              | None => []
                              end.
Proof.
  intros Hobj.
  unfold DKI_exit, signal_signal, call_if_received, call_handler, update.
  simpl. repeat (rewrite Hobj; simpl).
  destruct r as [s|]; simpl; repeat (rewrite Hobj; simpl).
  - eexists. split; [done|]. simpl. split_and!; try done.
    by rewrite <- !app_assoc.
  - eexists. split; [done|]. simpl. split_and!; try done.
    by rewrite app_nil_r.
Qed.

Lemma DKI_exit_delayed (inner outer : nat) (p : process) (s : signum) :
  inner ≠ outer →
  objects p inner = DKI (Some s) (delayed outer) (delayed outer)
                      (delayed outer) →
  ∃ p', DKI_exit inner p = (Ret tt, p')
    ∧ (∀ sig, handlers p' sig = delayed outer)
    ∧ warnings p' = S (S (S (warnings p)))
    ∧ called p' = called p
    ∧ objects p' outer
      = DKI (Some s) (ctrlc_handler (objects p outer))
          (ctrlz_handler (objects p outer))
          (ctrlslash_handler (objects p outer)).
Proof.
  intros Hne Hobj.
  unfold DKI_exit, signal_signal, call_if_received, call_handler,
    DKI_handler, set_object, update.
  simpl. rewrite !Hobj. simpl.
  repeat (rewrite ?decide_True by done; rewrite ?decide_False by done;
          rewrite ?Hobj; simpl).
  eexists. split; [done|]. simpl.
  rewrite ?decide_True by done. split_and!; try done.
  by intros [].
Qed.

(** X20.  A block that no signal interrupts leaves the process as it
    found it: the three handlers, whatever they were, are installed
    again, nothing is called and nothing is printed. *)
Theorem DKI_round_trip (obj : nat) (p : process) :
  ∃ p', with_DKI obj [] p = (Ret tt, p')
    ∧ (∀ sig, handlers p' sig = handlers p sig)
    ∧ called p' = called p
    ∧ warnings p' = warnings p
    ∧ (∀ o, o ≠ obj → objects p' o = objects p o).
Proof.
  unfold with_DKI. cbn [foldl].
  destruct (DKI_enter_spec obj p) as (_ & Hobj & Hoth & Hc & Hw).
  set (p0 := DKI_enter obj p) in *. clearbody p0.
  unfold DKI_exit, signal_signal, call_if_received, update. simpl.
  repeat (rewrite Hobj; simpl).
  eexists. split; [done|]. simpl. split_and!; try done.
  by intros [].
Qed.

(** X21.  When the three handlers found at entry are callables that
    return, a block interrupted by the signals [sigs] prints one warning
    for each of them, and at its end installs the three handlers again
    and calls each of them once, in the order Ctrl+C, Ctrl+Z, Ctrl+\,
    and each with the last signal received, whichever signal that is;
    the earlier signals are lost. *)
Theorem DKI_replays_last_signal (obj : nat) (sigs : list signum)
    (p : process) (n1 n2 n3 : nat) :
  handlers p SIGINT = callable n1 false →
  handlers p SIGTSTP = callable n2 false →
  handlers p SIGQUIT = callable n3 false →
  ∃ p', with_DKI obj sigs p = (Ret tt, p')
    ∧ (∀ sig, handlers p' sig = handlers p sig)
    ∧ warnings p' = (warnings p + length sigs)%nat
    ∧ called p' = called p ++ match last sigs with
                              | Some s => [(n1, s); (n2, s); (n3, s)]
                              | None => []
                              end.
Proof.
  intros H1 H2 H3. unfold with_DKI.
  destruct (DKI_enter_spec obj p) as (_ & Hobj & _ & Hc & Hw).
  destruct (DKI_handler_fold obj sigs (DKI_enter obj p))
    as (_ & Hc' & Hw' & Hh1 & Hh2 & Hh3 & Hr & _).
  cbn zeta in *.
  set (p1 := foldl _ _ _) in *.
  rewrite Hobj in Hh1, Hh2, Hh3, Hr. simpl in Hh1, Hh2, Hh3, Hr.
  rewrite H1 in Hh1. rewrite H2 in Hh2. rewrite H3 in Hh3.
  destruct (DKI_exit_callables obj p1 (last sigs) n1 n2 n3)
    as (p' & Hrun & Ha & Hb & Hd & Hw'' & Hc'').
  { destruct (objects p1 obj) as [r h1 h2 h3]; simpl in *; subst.
    by destruct (last sigs). }
  exists p'. split; [done|]. split_and!.
  - intros []; congruence.
  - lia.
  - by rewrite Hc'', Hc', Hc.
Qed.

(** X22.  With Python's own handler for Ctrl+C,
    [signal.default_int_handler], a block that any signal has interrupted
    ends in [KeyboardInterrupt], also when the signal was Ctrl+Z or
    Ctrl+\; the handler for Ctrl+C is installed again, but the handlers
    for Ctrl+Z and Ctrl+\ stay the [handler] method of the object. *)
Theorem DKI_default_interrupt (obj : nat) (sigs : list signum)
    (p : process) :
  handlers p SIGINT = default_int_handler →
  sigs ≠ [] →
  ∃ p', with_DKI obj sigs p = (Exc KeyboardInterrupt, p')
    ∧ handlers p' SIGINT = default_int_handler
    ∧ handlers p' SIGTSTP = delayed obj
    ∧ handlers p' SIGQUIT = delayed obj
    ∧ called p' = called p.
Proof.
  intros H1 Hsigs. unfold with_DKI.
  destruct (DKI_enter_spec obj p) as (Hh & Hobj & _ & Hc & _).
  destruct (DKI_handler_fold obj sigs (DKI_enter obj p))
    as (Hh' & Hc' & _ & Hh1 & _ & _ & Hr & _).
  cbn zeta in *.
  set (p1 := foldl _ _ _) in *. clearbody p1.
  rewrite Hobj in Hh1, Hr. simpl in Hh1, Hr. rewrite H1 in Hh1.
  assert (∃ s, last sigs = Some s) as [s Hs].
  { destruct (last sigs) eqn:E; [by eexists|].
    by apply last_None in E. }
  rewrite Hs in Hr.
  unfold DKI_exit, signal_signal, call_if_received, update. simpl.
  rewrite Hh1, Hr. simpl.
  eexists. split; [done|]. simpl.
  rewrite Hh', !Hh. split_and!; try done; by rewrite Hc'.
Qed.

(** X23.  A block inside the block of another object, the handlers found
    by the outer one being callables that return: the inner block hands
    the last signal to the outer object, once for each of its three
    handlers, so that three more warnings are printed than signals were
    received; the outer block then calls the three handlers with this
    signal and installs them again. *)
Theorem DKI_nested (outer inner : nat) (sigs : list signum) (s : signum)
    (p : process) (n1 n2 n3 : nat) :
  inner ≠ outer →
  last sigs = Some s →
  handlers p SIGINT = callable n1 false →
  handlers p SIGTSTP = callable n2 false →
  handlers p SIGQUIT = callable n3 false →
  ∃ p', with_DKI_block outer (with_DKI inner sigs) p = (Ret tt, p')
    ∧ (∀ sig, handlers p' sig = handlers p sig)
    ∧ warnings p' = (warnings p + length sigs + 3)%nat
    ∧ called p' = called p ++ [(n1, s); (n2, s); (n3, s)].
Proof.
  intros Hne Hs H1 H2 H3. unfold with_DKI_block, with_DKI.
  destruct (DKI_enter_spec outer p) as (Hh0 & Hobj0 & _ & Hc0 & Hw0).
  set (p0 := DKI_enter outer p) in *. clearbody p0.
  destruct (DKI_enter_spec inner p0) as (_ & Hobj1 & Hoth1 & Hc1 & Hw1).
  set (p1 := DKI_enter inner p0) in *. clearbody p1.
  destruct (DKI_handler_fold inner sigs p1)
    as (_ & Hc2 & Hw2 & Ha & Hb & Hd & Hr & Hoth2).
  cbn zeta in *.
  set (p2 := foldl _ _ _) in *. clearbody p2.
  rewrite Hobj1 in Ha, Hb, Hd, Hr. simpl in Ha, Hb, Hd, Hr.
  rewrite Hh0 in Ha, Hb, Hd. rewrite Hs in Hr.
  destruct (DKI_exit_delayed inner outer p2 s Hne)
    as (p3 & Hrun3 & Hh3 & Hw3 & Hc3 & Hobj3).
  { destruct (objects p2 inner) as [r h1 h2 h3]; simpl in *; by subst. }
  rewrite Hrun3.
  rewrite (Hoth2 outer), (Hoth1 outer), Hobj0 in Hobj3 by done.
  simpl in Hobj3. rewrite H1, H2, H3 in Hobj3.
  destruct (DKI_exit_callables outer p3 (Some s) n1 n2 n3 Hobj3)
    as (p4 & Hrun4 & Hi & Hz & Hq & Hw4 & Hc4).
  rewrite Hrun4. exists p4. split; [done|]. split_and!.
  - intros []; congruence.
  - lia.
  - by rewrite Hc4, Hc3, Hc2, Hc1, Hc0.
Qed.

Lemma DKI_replays_last_signal_witness :
  handlers program_process SIGINT = callable 1 false
  ∧ handlers program_process SIGTSTP = callable 2 false
  ∧ handlers program_process SIGQUIT = callable 3 false
  ∧ ∃ p', with_DKI 0 [SIGTSTP; SIGINT; SIGTSTP] program_process = (Ret tt, p')
      ∧ (∀ sig, handlers p' sig = handlers program_process sig)
      ∧ warnings p' = 3%nat
      ∧ called p' = [(1, SIGTSTP); (2, SIGTSTP); (3, SIGTSTP)]%nat.
Proof.
  split_and!; [reflexivity..|].
  exact (DKI_replays_last_signal 0 [SIGTSTP; SIGINT; SIGTSTP]
           program_process 1 2 3 eq_refl eq_refl eq_refl).
Defined.

Lemma DKI_default_interrupt_witness :
  handlers python_process SIGINT = default_int_handler
  ∧ [SIGQUIT] ≠ []
  ∧ ∃ p', with_DKI 0 [SIGQUIT] python_process = (Exc KeyboardInterrupt, p')
      ∧ handlers p' SIGINT = default_int_handler
      ∧ handlers p' SIGTSTP = delayed 0
      ∧ handlers p' SIGQUIT = delayed 0
      ∧ called p' = [].
Proof.
  assert ([SIGQUIT] ≠ []) as Hsigs by discriminate.
  split; [reflexivity|]. split; [exact Hsigs|].
  exact (DKI_default_interrupt 0 [SIGQUIT] python_process eq_refl Hsigs).
Defined.

Lemma DKI_nested_witness :
  (1 ≠ 0)%nat
  ∧ last [SIGINT] = Some SIGINT
  ∧ ∃ p', with_DKI_block 0 (with_DKI 1 [SIGINT]) program_process
          = (Ret tt, p')
      ∧ (∀ sig, handlers p' sig = handlers program_process sig)
      ∧ warnings p' = 4%nat
      ∧ called p' = [(1, SIGINT); (2, SIGINT); (3, SIGINT)]%nat.
Proof.
  assert ((1 ≠ 0)%nat) as Hne by discriminate.
  split; [exact Hne|]. split; [reflexivity|].
  exact (DKI_nested 0 1 [SIGINT] SIGINT program_process 1 2 3 Hne
           eq_refl eq_refl eq_refl eq_refl).
Defined.
